(** * Content-governance engine of the WhatsApp group bot

    A shallow embedding of the heuristic spam detector, the classification
    wrappers, the text path of the moderation pipeline and the media frame
    extractor (moderation.js, in its two revisions: with the keyword stage
    and with the keyword stage disabled), the verification state machine
    (verification.js), the SQLite layer (db.js) and the restore endpoint
    (index.js), with the admin commands, the helpers and the moderation
    step of the message handler (index.js), the message statistics (db.js)
    and the HTML escaping of the dashboard (summary.js), followed by the
    properties proved about them.

    Conventions of the embedding.
    - A JavaScript string is the list of its UTF-16 code units ([list N]);
      [message.length] is the length of that list.
    - [String.prototype.toLowerCase], [toUpperCase] and [trim] are library
      functions of the host; they are taken as an interface
      ([JsStringOps]) so that every statement holds for the real ones.
      [asciiOps] is an executable instance used to run the examples.
    - [Date.now()] is an integer number of milliseconds; SQLite's
      [datetime('now')] is an integer number of seconds (its text form
      'YYYY-MM-DD HH:MM:SS' is ordered like that integer).
    - External collaborators (the chat socket, the OpenAI client, ffmpeg)
      are records of outcomes, universally quantified in the theorems. *)

From Corelib Require Import PrimFloat PrimInt63.
From Stdlib Require Import ZArith NArith QArith Lia List Bool String Ascii DecimalString.
From stdpp Require Import gmap strings list sorting.

Local Open Scope Z_scope.

(** ** JavaScript strings *)

Abbreviation jsString := (list N).

(** A string literal as code units (the examples use ASCII literals). *)
Definition js (s : string) : jsString :=
  List.map N_of_ascii (list_ascii_of_string s).

Class JsStringOps := {
  toLowerCase : jsString -> jsString;
  toUpperCase : jsString -> jsString;
  trim : jsString -> jsString
}.

(** Character classes of the regular expressions used by the sources. *)

(** [[A-Z]] *)
Definition isUpper (c : N) : bool := ((65 <=? c) && (c <=? 90))%N.

(** [[a-z]] *)
Definition isLower (c : N) : bool := ((97 <=? c) && (c <=? 122))%N.

(** [[a-zA-Z]] *)
Definition isLetter (c : N) : bool := isUpper c || isLower c.

(** [[0-9]] *)
Definition isDigit (c : N) : bool := ((48 <=? c) && (c <=? 57))%N.

(** [\s]: ECMAScript WhiteSpace and LineTerminator code units. *)
Definition isSpace (c : N) : bool :=
  (((9 <=? c) && (c <=? 13)) || (c =? 32) || (c =? 160) || (c =? 5760)
   || ((8192 <=? c) && (c <=? 8202)) || (c =? 8232) || (c =? 8233)
   || (c =? 8239) || (c =? 8287) || (c =? 12288) || (c =? 65279))%N.

(** A lower-case ASCII letter of a pattern, matched under the [i] flag. *)
Definition matchesIgnoreCase (lower c : N) : bool :=
  ((c =? lower) || (c =? lower - 32))%N.

(** [://] followed by at least one character that is not white space. *)
Definition afterScheme (s : jsString) : bool :=
  match s with
  | 58%N :: 47%N :: 47%N :: x :: _ => negb (isSpace x)
  | _ => false
  end.

(** Does [/https?:\/\/[^\s]+/i] match at the head of [s]? *)
Definition startsLink (s : jsString) : bool :=
  match s with
  | h :: t1 :: t2 :: p :: rest =>
      matchesIgnoreCase 104 h && matchesIgnoreCase 116 t1
      && matchesIgnoreCase 116 t2 && matchesIgnoreCase 112 p
      && (match rest with
          | c :: rest' => (matchesIgnoreCase 115 c && afterScheme rest') || afterScheme rest
          | [] => false
          end)
  | _ => false
  end.

(** [message.match(/https?:\/\/[^\s]+/gi)]: the matches are found left to
    right and do not overlap; a match runs up to the next white space, so
    after a match the scan skips to the next white-space character. *)
Fixpoint scanLinks (inMatch : bool) (s : jsString) : nat :=
  match s with
  | [] => O
  | c :: rest =>
      if inMatch then
        (if isSpace c then scanLinks false rest else scanLinks true rest)
      else if startsLink (c :: rest) then S (scanLinks true rest)
      else scanLinks false rest
  end.

Definition countLinks (message : jsString) : nat := scanLinks false message.

(** [startsWith], [endsWith], [includes] *)
Fixpoint startsWith (prefix s : jsString) : bool :=
  match prefix, s with
  | [], _ => true
  | p :: prefix', c :: s' => (p =? c)%N && startsWith prefix' s'
  | _ :: _, [] => false
  end.

Definition endsWith (suffix s : jsString) : bool :=
  startsWith (rev suffix) (rev s).

Fixpoint includes (needle s : jsString) : bool :=
  match s with
  | [] => startsWith needle []
  | _ :: s' => startsWith needle s || includes needle s'
  end.

(** ** Verdicts (moderation.js) *)

Inductive violation :=
  | excessive_links | excessive_caps | repeated_message
  | sensitive_topic | toxic_content
  | sensitive_image | sensitive_video | sensitive_gif.

Inductive severityLevel := low | medium | high.

(** The data interpolated into the [reason] template string. *)
Inductive reasonText :=
  | ContainsLinks (linkCount : nat)         (* `Message contains ${linkCount} links (max: 3)` *)
  | PercentUppercase (capsRatio : Q)        (* `Message is ${Math.round(capsRatio * 100)}% uppercase` *)
  | SameMessageSent (count : Z)             (* `Same message sent ${data.count} times` *)
  | ContainsTopic (topic : jsString)        (* `Contains sensitive topic: ${matchedTopics[0]}` *)
  | DetectedTopic (topic : jsString)        (* `Detected sensitive topic: ${result.topic}` *)
  | FlaggedFor (categories : list jsString) (* `Flagged for: ${flaggedCategories.join(', ')}` *)
  | HighScore (category : jsString) (score : Q)
  | MediaTopic (topic : jsString).          (* `Video contains sensitive topic: ${result.topic}` *)

(** The optional fields that only some verdicts carry. *)
Inductive verdictExtras :=
  | NoExtras
  | KeywordExtras (matchedTopics : list jsString)
  | TopicExtras (topic : jsString) (confidence : Q)
  | MediaExtras (topic : jsString) (description : jsString) (confidence : Q)
  | ToxicExtras (flagged : bool) (categories : list jsString)
                (categoryScores : list (jsString * Q)).

Record verdict := {
  type : violation;
  reason : reasonText;
  severity : severityLevel;
  extras : verdictExtras
}.

(** ** Heuristic spam detector (moderation.js, checkSimpleSpam) *)

Module SPAM_CONFIG.
Definition maxLinks : nat := 3.
Definition maxCapsRatio : Q := 7 # 10.
Definition minCapsLength : nat := 10.
Definition repeatThreshold : Z := 3.
Definition repeatWindow : Z := 60000.
End SPAM_CONFIG.

(** An entry of the [recentMessages] map: [{ message, count, lastTime }]. *)
Module Entry.
Record t := {
  message : jsString;
  count : Z;
  lastTime : Z
}.
End Entry.

Abbreviation cacheEntry := Entry.t.

(** [cleanRecentMessages]: every entry with
    [now - data.lastTime > repeatWindow] is deleted. *)
Definition cleanRecentMessages (now : Z) (recentMessages : gmap (list N) cacheEntry)
  : gmap (list N) cacheEntry :=
  filter (fun kd => ~ (now - Entry.lastTime kd.2 > SPAM_CONFIG.repeatWindow)) recentMessages.

(** [message.replace(/[^a-zA-Z]/g, '')] *)
Definition lettersOf (message : jsString) : jsString := List.filter isLetter message.

(** [(letters.match(/[A-Z]/g) || []).length] *)
Definition countUpper (letters : jsString) : nat := length (List.filter isUpper letters).

(** [capsRatio]: the quotient is a double in the source.  For operands
    below 2^30 (a string length) the double quotient exceeds the double
    [0.7] exactly when the rational one exceeds 7/10, so the ratio is kept
    as a rational. *)
Definition capsRatio (letters : jsString) : Q :=
  Z.of_nat (countUpper letters) # Pos.of_nat (length letters).

(** The comparison [capsRatio > 0.7] as JavaScript evaluates it, on
    binary64 values ([0x1.6666666666666p-1] is the double written [0.7]). *)
Definition doubleRatioExceeds (caps letters : PrimInt63.int) : bool :=
  PrimFloat.ltb 0x1.6666666666666p-1%float
    (PrimFloat.div (PrimFloat.of_uint63 caps) (PrimFloat.of_uint63 letters)).

(** The block "Check for excessive caps". *)
Definition checkCaps (message : jsString) : option verdict :=
  if (SPAM_CONFIG.minCapsLength <=? length message)%nat then
    let letters := lettersOf message in
    if (0 <? length letters)%nat then
      if negb (Qle_bool (capsRatio letters) SPAM_CONFIG.maxCapsRatio) then
        Some {| type := excessive_caps;
                reason := PercentUppercase (capsRatio letters);
                severity := low; extras := NoExtras |}
      else None
    else None
  else None.

(** The key [`${senderPhone}:${groupId}`]. *)
Definition cacheKey (senderPhone groupId : jsString) : jsString :=
  senderPhone ++ 58%N :: groupId.

(** [checkSimpleSpam(message, senderPhone, groupId)].  [tClean] is the
    clock read by [cleanRecentMessages], [tStamp] the later reading stored
    in [lastTime].  The result is the returned verdict ([None] for [null])
    and the [recentMessages] map after the call. *)
Definition checkSimpleSpam `{JsStringOps} (tClean tStamp : Z)
    (message senderPhone groupId : jsString)
    (recentMessages : gmap (list N) cacheEntry)
  : option verdict * gmap (list N) cacheEntry :=
  if (length message <? 5)%nat then (None, recentMessages) else
  let linkCount := countLinks message in
  if (SPAM_CONFIG.maxLinks <? linkCount)%nat then
    (Some {| type := excessive_links;
             reason := ContainsLinks linkCount;
             severity := medium; extras := NoExtras |}, recentMessages)
  else
  match checkCaps message with
  | Some v => (Some v, recentMessages)
  | None =>
      let recent := cleanRecentMessages tClean recentMessages in
      let key := cacheKey senderPhone groupId in
      let messageHash := trim (toLowerCase message) in
      match recent !! key with
      | Some data =>
          if decide (Entry.message data = messageHash) then
            let data' := {| Entry.message := Entry.message data;
                            Entry.count := Entry.count data + 1;
                            Entry.lastTime := tStamp |} in
            (if SPAM_CONFIG.repeatThreshold <=? Entry.count data' then
               Some {| type := repeated_message;
                       reason := SameMessageSent (Entry.count data');
                       severity := medium; extras := NoExtras |}
             else None,
             <[key := data']> recent)
          else
            (None, <[key := {| Entry.message := messageHash; Entry.count := 1;
                               Entry.lastTime := tStamp |}]> recent)
      | None =>
          (None, <[key := {| Entry.message := messageHash; Entry.count := 1;
                               Entry.lastTime := tStamp |}]> recent)
      end
  end.

(** The entry written for a text seen for the first time (or after a
    different text, or after eviction). *)
Definition freshEntry `{JsStringOps} (message : jsString) (tStamp : Z) : cacheEntry :=
  {| Entry.message := trim (toLowerCase message); Entry.count := 1;
     Entry.lastTime := tStamp |}.

(** ** Classification gateway (moderation.js) *)

(** Outcome of a chat completion whose answer is parsed as JSON: the call
    throws, [JSON.parse] throws, or the parsed object is obtained. *)
Inductive completion (A : Type) :=
  | ApiError
  | Unparsable
  | Parsed (a : A).
Arguments ApiError {A}.
Arguments Unparsable {A}.
Arguments Parsed {A} a.

(** [response.results[0]] of the moderation endpoint. *)
Record moderationResult := {
  flagged : bool;
  categories : list (jsString * bool);
  category_scores : list (jsString * Q)
}.

(** The parsed answer [{flagged, topic, confidence}] of the topic prompt. *)
Record topicResult := {
  topic_flagged : bool;
  topic : jsString;
  topic_confidence : Q
}.

(** A byte buffer. *)
Abbreviation Buffer := (list N).

(** The parsed answer [{flagged, topic, description, confidence}] of the
    vision prompt; [description] may be missing. *)
Record mediaResult := {
  media_flagged : bool;
  media_topic : jsString;
  media_description : option jsString;
  media_confidence : Q
}.

(** The OpenAI client together with [config.openaiApiKey]. [None] of
    [moderations_create] stands for a call that throws. *)
Record OpenAI := {
  openaiApiKey : bool;
  moderations_create : jsString -> option moderationResult;
  topic_completion : jsString -> completion topicResult;
  vision_completion : list Buffer -> completion mediaResult
}.

(** [checkToxicContent(message)] *)
Definition checkToxicContent (openai : OpenAI) (message : jsString) : option verdict :=
  if (length message <? 3)%nat then None else
  if negb (openaiApiKey openai) then None else
  match moderations_create openai message with
  | None => None
  | Some result =>
      if flagged result then
        let flaggedCategories := List.map fst (List.filter snd (categories result)) in
        Some {| type := toxic_content;
                reason := FlaggedFor flaggedCategories;
                severity := high;
                extras := ToxicExtras true flaggedCategories (category_scores result) |}
      else
        match List.find (fun cs => negb (Qle_bool (snd cs) (75 # 100))) (category_scores result) with
        | Some (category, score) =>
            Some {| type := toxic_content;
                    reason := HighScore category score;
                    severity := medium;
                    extras := ToxicExtras false [category] (category_scores result) |}
        | None => None
        end
  end.

(** [checkSensitiveContent(message)] *)
Definition checkSensitiveContent (openai : OpenAI) (message : jsString) : option verdict :=
  if (length message <? 10)%nat then None else
  if negb (openaiApiKey openai) then None else
  match topic_completion openai message with
  | ApiError => None
  | Unparsable => None
  | Parsed result =>
      if topic_flagged result && negb (Qle_bool (topic_confidence result) (7 # 10)) then
        Some {| type := sensitive_topic;
                reason := DetectedTopic (topic result);
                severity := high;
                extras := TopicExtras (topic result) (topic_confidence result) |}
      else None
  end.

(** ** Moderation pipeline, text path (moderation.js, moderateMessage) *)

Inductive stage := HeuristicSpam | KeywordMatch | ToxicClassify | TopicClassify.

(** What a run of [moderateMessage] produces: the value the promise
    resolves to, the repeat cache afterwards, and the stage functions that
    were called, in call order. *)
Record moderationRun := {
  result : option verdict;
  cacheAfter : gmap (list N) cacheEntry;
  stages : list stage
}.

(** [moderateMessage(message, senderPhone, groupId)] in the revision whose
    keyword stage is disabled ("NOTE: Keyword-based sensitive topic
    detection has been disabled"). *)
Definition moderateMessage `{JsStringOps} (openai : OpenAI) (tClean tStamp : Z)
    (message senderPhone groupId : jsString)
    (recentMessages : gmap (list N) cacheEntry) : moderationRun :=
  let spam := checkSimpleSpam tClean tStamp message senderPhone groupId recentMessages in
  match spam.1 with
  | Some spamResult =>
      {| result := Some spamResult; cacheAfter := spam.2; stages := [HeuristicSpam] |}
  | None =>
      match checkToxicContent openai message with
      | Some toxicResult =>
          {| result := Some toxicResult; cacheAfter := spam.2;
             stages := [HeuristicSpam; ToxicClassify] |}
      | None =>
          if (20 <? length message)%nat then
            match checkSensitiveContent openai message with
            | Some sensitiveResult =>
                {| result := Some sensitiveResult; cacheAfter := spam.2;
                   stages := [HeuristicSpam; ToxicClassify; TopicClassify] |}
            | None =>
                {| result := None; cacheAfter := spam.2;
                   stages := [HeuristicSpam; ToxicClassify; TopicClassify] |}
            end
          else
            {| result := None; cacheAfter := spam.2;
               stages := [HeuristicSpam; ToxicClassify] |}
      end
  end.

(** A run called the stages of [path] in order and stopped at the first
    one that returned a verdict: the stages called are a non-empty prefix of
    [path], every stage but the last called returned null, the result is
    what the last stage called returned, and a null result means that every
    stage of [path] was called. *)
Definition stopsAtFirstVerdict (path : list stage) (verdictOf : stage -> option verdict)
    (run : moderationRun) : Prop :=
  exists notCalled,
    path = stages run ++ notCalled
    /\ stages run <> []
    /\ (forall s, In s (List.removelast (stages run)) -> verdictOf s = None)
    /\ result run = verdictOf (List.last (stages run) HeuristicSpam)
    /\ (result run = None -> notCalled = []).

(** *** The earlier revision with the keyword stage *)

Module KeywordRevision.

(** [SENSITIVE_TOPICS] of that revision. *)
Definition SENSITIVE_TOPICS : list jsString := List.map js [
  "politics"; "politicians"; "political parties"; "elections"; "voting"; "government";
  "religion"; "religious"; "god"; "church"; "mosque"; "temple"; "bible"; "quran"; "conversion";
  "caste"; "reservation"; "dalit"; "brahmin"; "caste system"; "untouchable";
  "feminism"; "feminist"; "men's rights"; "gender war"; "patriarchy"; "misogyny"; "misandry";
  "lgbtq"; "lgbt"; "gay"; "lesbian"; "transgender"; "trans rights"; "same-sex marriage"; "homosexual";
  "racism"; "racist"; "skin color"; "north india"; "south india"; "regionalism"; "ethnic";
  "vaccine"; "covid"; "corona"; "5g"; "conspiracy"; "big pharma"; "anti-vax"; "microchip";
  "abortion"; "pro-life"; "pro-choice"; "prolife"; "prochoice"
]%string.

(** One pattern character against one input character under the [i] flag. *)
Definition charMatches (p c : N) : bool :=
  if isLower p then matchesIgnoreCase p c else (p =? c)%N.

Fixpoint matchesAt (pattern s : jsString) : bool :=
  match pattern, s with
  | [], _ => true
  | p :: pattern', c :: s' => charMatches p c && matchesAt pattern' s'
  | _ :: _, [] => false
  end.

Fixpoint matchesSomewhere (pattern s : jsString) : bool :=
  match s with
  | [] => matchesAt pattern []
  | _ :: s' => matchesAt pattern s || matchesSomewhere pattern s'
  end.

(** [SENSITIVE_KEYWORDS_REGEX.test(s)]: an alternation of the escaped
    topics, case-insensitive. *)
Definition SENSITIVE_KEYWORDS_REGEX_test (s : jsString) : bool :=
  existsb (fun topic => matchesSomewhere topic s) SENSITIVE_TOPICS.

(** [checkSensitiveKeywords(message)] *)
Definition checkSensitiveKeywords `{JsStringOps} (message : jsString) : option verdict :=
  if (length message <? 3)%nat then None else
  let lowerMessage := toLowerCase message in
  if SENSITIVE_KEYWORDS_REGEX_test lowerMessage then
    let matchedTopics :=
      List.filter (fun topic => includes (toLowerCase topic) lowerMessage) SENSITIVE_TOPICS in
    match matchedTopics with
    | first :: _ =>
        Some {| type := sensitive_topic;
                reason := ContainsTopic first;
                severity := high;
                extras := KeywordExtras matchedTopics |}
    | [] => None
    end
  else None.

(** [moderateMessage] of that revision. *)
Definition moderateMessage `{JsStringOps} (openai : OpenAI) (tClean tStamp : Z)
    (message senderPhone groupId : jsString)
    (recentMessages : gmap (list N) cacheEntry) : moderationRun :=
  let spam := checkSimpleSpam tClean tStamp message senderPhone groupId recentMessages in
  match spam.1 with
  | Some spamResult =>
      {| result := Some spamResult; cacheAfter := spam.2; stages := [HeuristicSpam] |}
  | None =>
      match checkSensitiveKeywords message with
      | Some keywordResult =>
          {| result := Some keywordResult; cacheAfter := spam.2;
             stages := [HeuristicSpam; KeywordMatch] |}
      | None =>
          match checkToxicContent openai message with
          | Some toxicResult =>
              {| result := Some toxicResult; cacheAfter := spam.2;
                 stages := [HeuristicSpam; KeywordMatch; ToxicClassify] |}
          | None =>
              if (20 <? length message)%nat then
                match checkSensitiveContent openai message with
                | Some sensitiveResult =>
                    {| result := Some sensitiveResult; cacheAfter := spam.2;
                       stages := [HeuristicSpam; KeywordMatch; ToxicClassify; TopicClassify] |}
                | None =>
                    {| result := None; cacheAfter := spam.2;
                       stages := [HeuristicSpam; KeywordMatch; ToxicClassify; TopicClassify] |}
                end
              else
                {| result := None; cacheAfter := spam.2;
                   stages := [HeuristicSpam; KeywordMatch; ToxicClassify] |}
          end
      end
  end.

End KeywordRevision.

(** The verdict a stage function returns for the message of a run. *)
Definition stageVerdict `{JsStringOps} (openai : OpenAI) (tClean tStamp : Z)
    (message senderPhone groupId : jsString)
    (recentMessages : gmap (list N) cacheEntry) (s : stage) : option verdict :=
  match s with
  | HeuristicSpam =>
      (checkSimpleSpam tClean tStamp message senderPhone groupId recentMessages).1
  | KeywordMatch => KeywordRevision.checkSensitiveKeywords message
  | ToxicClassify => checkToxicContent openai message
  | TopicClassify => checkSensitiveContent openai message
  end.

(** ** SQLite layer (db.js) *)

(** [crypto.createHash('sha256').update(phone).digest('hex')] *)
Class Crypto := { sha256hex : jsString -> jsString }.

Definition hashPhone `{Crypto} (phone : jsString) : jsString := sha256hex phone.

(** Rows of the four tables.  Times are seconds; [id] is the
    AUTOINCREMENT key. *)
Module Message.
Record row := {
  id : Z;
  timestamp : Z;
  group_id : jsString;
  hashed_phone : jsString;
  message_body : jsString;
  is_from_admin : bool;
  is_from_bot : bool
}.
End Message.

Module Verified.
Record row := {
  id : Z;
  phone : jsString;
  hashed_phone : jsString;
  group_id : jsString;
  verified_at : Z
}.
End Verified.

Module Pending.
Record row := {
  id : Z;
  phone : jsString;
  group_id : jsString;
  expected_answer : option Z;
  captcha_code : option jsString;
  created_at : Z;
  expires_at : Z
}.
End Pending.

Module Log.
Record row := {
  id : Z;
  timestamp : Z;
  group_id : jsString;
  user_phone : jsString;
  hashed_phone : jsString;
  user_name : option jsString;
  message_body : jsString;
  violation_type : violation;
  action_taken : jsString;
  admin_response : option jsString;
  category_scores : list (jsString * Q);
  message_key : option jsString;
  restored : Z
}.
End Log.

(** The database: the rows of each table in insertion order and, per
    table, the largest key ever handed out (AUTOINCREMENT never reuses a
    key, also after rows are deleted). *)
Record database := {
  messages : list Message.row;
  verified_users : list Verified.row;
  pending_verifications : list Pending.row;
  moderation_logs : list Log.row;
  messages_seq : Z;
  verified_seq : Z;
  pending_seq : Z;
  logs_seq : Z
}.

(** The database right after [init] created the tables. *)
Definition emptyDatabase : database :=
  {| messages := []; verified_users := []; pending_verifications := [];
     moderation_logs := []; messages_seq := 0; verified_seq := 0;
     pending_seq := 0; logs_seq := 0 |}.

Definition setMessages (rows : list Message.row) (seq : Z) (db : database) : database :=
  {| messages := rows; verified_users := verified_users db;
     pending_verifications := pending_verifications db;
     moderation_logs := moderation_logs db; messages_seq := seq;
     verified_seq := verified_seq db; pending_seq := pending_seq db;
     logs_seq := logs_seq db |}.

Definition setVerified (rows : list Verified.row) (seq : Z) (db : database) : database :=
  {| messages := messages db; verified_users := rows;
     pending_verifications := pending_verifications db;
     moderation_logs := moderation_logs db; messages_seq := messages_seq db;
     verified_seq := seq; pending_seq := pending_seq db;
     logs_seq := logs_seq db |}.

Definition setPending (rows : list Pending.row) (seq : Z) (db : database) : database :=
  {| messages := messages db; verified_users := verified_users db;
     pending_verifications := rows;
     moderation_logs := moderation_logs db; messages_seq := messages_seq db;
     verified_seq := verified_seq db; pending_seq := seq;
     logs_seq := logs_seq db |}.

Definition setLogs (rows : list Log.row) (seq : Z) (db : database) : database :=
  {| messages := messages db; verified_users := verified_users db;
     pending_verifications := pending_verifications db;
     moderation_logs := rows; messages_seq := messages_seq db;
     verified_seq := verified_seq db; pending_seq := pending_seq db;
     logs_seq := seq |}.

(** [saveMessage({ groupId, phone, messageBody, isFromAdmin, isFromBot })] *)
Definition saveMessage `{Crypto} (now : Z) (groupId phone messageBody : jsString)
    (isFromAdmin isFromBot : bool) (db : database) : database :=
  let id := messages_seq db + 1 in
  setMessages
    (messages db ++ [{| Message.id := id; Message.timestamp := now;
                        Message.group_id := groupId;
                        Message.hashed_phone := hashPhone phone;
                        Message.message_body := messageBody;
                        Message.is_from_admin := isFromAdmin;
                        Message.is_from_bot := isFromBot |}])
    id db.

(** How a call ends: it returns, or it throws (for an async function: the
    promise is fulfilled or rejected). *)
Inductive outcome (A : Type) :=
  | Returned (a : A)
  | Raised.
Arguments Returned {A} a.
Arguments Raised {A}.

(** The row of [pending_verifications] with the given (phone, group_id)? *)
Definition pendingKeyIs (phone groupId : jsString) (r : Pending.row) : bool :=
  bool_decide (Pending.phone r = phone) && bool_decide (Pending.group_id r = groupId).

(** [datetime('now', '+' || timeoutMinutes || ' minutes')]: for a negative
    number the modifier reads ['+-5 minutes'], which is not a valid one, and
    the value is NULL ([None]). *)
Definition expiresAfter (now timeoutMinutes : Z) : option Z :=
  if timeoutMinutes <? 0 then None else Some (now + 60 * timeoutMinutes).

(** [INSERT OR REPLACE INTO pending_verifications]: the row that conflicts
    on UNIQUE(phone, group_id) is deleted, then the new row is inserted,
    with [expires_at] as computed by [expiresAfter].  The column is
    declared [expires_at DATETIME NOT NULL]: for a NULL value the statement
    raises and the table is left as it was. *)
Definition insertOrReplacePending (now : Z) (phone groupId : jsString)
    (expectedAnswer : option Z) (captchaCode : option jsString)
    (timeoutMinutes : Z) (db : database) : outcome unit * database :=
  match expiresAfter now timeoutMinutes with
  | None => (Raised, db)
  | Some expiresAt =>
      let id := pending_seq db + 1 in
      (Returned tt,
       setPending
         (List.filter (fun r => negb (pendingKeyIs phone groupId r)) (pending_verifications db)
          ++ [{| Pending.id := id; Pending.phone := phone; Pending.group_id := groupId;
                 Pending.expected_answer := expectedAnswer;
                 Pending.captcha_code := captchaCode;
                 Pending.created_at := now;
                 Pending.expires_at := expiresAt |}])
         id db)
  end.

(** [addPendingVerification(phone, groupId, expectedAnswer, timeoutMinutes)] *)
Definition addPendingVerification (now : Z) (phone groupId : jsString)
    (expectedAnswer timeoutMinutes : Z) (db : database) : outcome unit * database :=
  insertOrReplacePending now phone groupId (Some expectedAnswer) None timeoutMinutes db.

(** [addPendingCaptcha(phone, groupId, captchaCode, timeoutMinutes)]; a
    missing or empty [captchaCode] is the empty list, for which the
    function returns before the INSERT. *)
Definition addPendingCaptcha `{JsStringOps} (now : Z) (phone groupId captchaCode : jsString)
    (timeoutMinutes : Z) (db : database) : outcome unit * database :=
  match captchaCode with
  | [] => (Returned tt, db)
  | _ :: _ =>
      insertOrReplacePending now phone groupId (Some 0) (Some (toUpperCase captchaCode))
        timeoutMinutes db
  end.

(** [getPendingVerification(phone, groupId)]:
    [WHERE phone = ? AND group_id = ? AND expires_at > datetime('now')] *)
Definition getPendingVerification (now : Z) (phone groupId : jsString) (db : database)
  : option Pending.row :=
  List.find (fun r => pendingKeyIs phone groupId r && (now <? Pending.expires_at r))
    (pending_verifications db).

(** [removePendingVerification(phone, groupId)] *)
Definition removePendingVerification (phone groupId : jsString) (db : database) : database :=
  setPending
    (List.filter (fun r => negb (pendingKeyIs phone groupId r)) (pending_verifications db))
    (pending_seq db) db.

(** [markUserVerified(phone, groupId)]: [INSERT OR REPLACE INTO
    verified_users]; the table declares [phone TEXT UNIQUE NOT NULL], so
    the row that conflicts is the row with the same phone, whatever its
    group. *)
Definition markUserVerified `{Crypto} (now : Z) (phone groupId : jsString) (db : database)
  : database :=
  let id := verified_seq db + 1 in
  setVerified
    (List.filter (fun r => negb (bool_decide (Verified.phone r = phone))) (verified_users db)
     ++ [{| Verified.id := id; Verified.phone := phone;
            Verified.hashed_phone := hashPhone phone;
            Verified.group_id := groupId; Verified.verified_at := now |}])
    id db.

(** [isUserVerified(phone, groupId)] *)
Definition isUserVerified (phone groupId : jsString) (db : database) : bool :=
  existsb (fun r => bool_decide (Verified.phone r = phone)
                    && bool_decide (Verified.group_id r = groupId))
    (verified_users db).

(** [getExpiredVerifications()]: [WHERE expires_at <= datetime('now')] *)
Definition getExpiredVerifications (now : Z) (db : database) : list Pending.row :=
  List.filter (fun r => Pending.expires_at r <=? now) (pending_verifications db).

(** [cleanupExpiredVerifications()]: returns [result.changes] and deletes. *)
Definition cleanupExpiredVerifications (now : Z) (db : database) : Z * database :=
  (Z.of_nat (length (getExpiredVerifications now db)),
   setPending
     (List.filter (fun r => negb (Pending.expires_at r <=? now)) (pending_verifications db))
     (pending_seq db) db).

(** The argument object of [logModeration]. *)
Record moderationData := {
  groupId : jsString;
  userPhone : jsString;
  userName : option jsString;
  messageBody : jsString;
  violationType : violation;
  actionTaken : jsString;
  categoryScores : option (list (jsString * Q));
  messageKey : option jsString
}.

(** [logModeration(data)]: returns [lastInsertRowid]. *)
Definition logModeration `{Crypto} (now : Z) (data : moderationData) (db : database)
  : Z * database :=
  let id := logs_seq db + 1 in
  (id,
   setLogs
     (moderation_logs db
      ++ [{| Log.id := id; Log.timestamp := now; Log.group_id := groupId data;
             Log.user_phone := userPhone data;
             Log.hashed_phone := hashPhone (userPhone data);
             Log.user_name := userName data;
             Log.message_body := messageBody data;
             Log.violation_type := violationType data;
             Log.action_taken := actionTaken data;
             Log.admin_response := None;
             Log.category_scores := default [] (categoryScores data);
             Log.message_key := messageKey data;
             Log.restored := 0 |}])
     id db).

(** [getModerationLogById(logId)]; [None] of [logId] is [NaN], which
    SQLite binds as NULL and which equals no key. *)
Definition getModerationLogById (logId : option Z) (db : database) : option Log.row :=
  match logId with
  | Some i => List.find (fun r => Log.id r =? i) (moderation_logs db)
  | None => None
  end.

Definition setRestored (r : Log.row) : Log.row :=
  {| Log.id := Log.id r; Log.timestamp := Log.timestamp r; Log.group_id := Log.group_id r;
     Log.user_phone := Log.user_phone r; Log.hashed_phone := Log.hashed_phone r;
     Log.user_name := Log.user_name r; Log.message_body := Log.message_body r;
     Log.violation_type := Log.violation_type r; Log.action_taken := Log.action_taken r;
     Log.admin_response := Log.admin_response r;
     Log.category_scores := Log.category_scores r; Log.message_key := Log.message_key r;
     Log.restored := 1 |}.

Definition setAdminResponse (response : option jsString) (r : Log.row) : Log.row :=
  {| Log.id := Log.id r; Log.timestamp := Log.timestamp r; Log.group_id := Log.group_id r;
     Log.user_phone := Log.user_phone r; Log.hashed_phone := Log.hashed_phone r;
     Log.user_name := Log.user_name r; Log.message_body := Log.message_body r;
     Log.violation_type := Log.violation_type r; Log.action_taken := Log.action_taken r;
     Log.admin_response := response;
     Log.category_scores := Log.category_scores r; Log.message_key := Log.message_key r;
     Log.restored := Log.restored r |}.

(** [UPDATE moderation_logs SET ... WHERE id = ?] *)
Definition updateLogsWhereId (logId : option Z) (f : Log.row -> Log.row) (db : database)
  : database :=
  match logId with
  | Some i =>
      setLogs (List.map (fun r => if Log.id r =? i then f r else r) (moderation_logs db))
        (logs_seq db) db
  | None => db
  end.

(** [markMessageRestored(logId)] *)
Definition markMessageRestored (logId : option Z) (db : database) : database :=
  updateLogsWhereId logId setRestored db.

(** [updateModerationResponse(logId, response)] *)
Definition updateModerationResponse (logId : option Z) (response : option jsString)
    (db : database) : database :=
  updateLogsWhereId logId (setAdminResponse response) db.

(** [clearModerationLogs()]: returns [result.changes]. *)
Definition clearModerationLogs (db : database) : Z * database :=
  (Z.of_nat (length (moderation_logs db)), setLogs [] (logs_seq db) db).

(** ** The chat socket *)

Inductive language := en | nl.

(** The localized texts of [MESSAGES]. *)
Inductive botText :=
  | welcome (lang : language) (timeout : Z)
  | success (lang : language)
  | wrong (lang : language)
  | timeout (lang : language)
  | alreadyVerified (lang : language).

(** What the bot sends with [sock.sendMessage]. *)
Inductive content :=
  | Text (text : botText)
  | CaptchaImage (image : Buffer) (caption : botText)
  | RestoredMessage (displayName : jsString) (originalMessage : jsString).

(** The socket as seen by the bot: each call either succeeds or throws
    ([None], [false]). *)
Record Socket := {
  groupMetadata : jsString -> option jsString;
  sendMessage : jsString -> content -> bool;
  groupParticipantsUpdate : jsString -> list jsString -> bool
}.

(** The calls made on the socket, in order. *)
Inductive socketCall :=
  | CallGroupMetadata (groupId : jsString)
  | CallSendMessage (groupId : jsString) (c : content)
  | CallRemove (groupId : jsString) (participants : list jsString).

(** ** Verification state machine (verification.js) *)

Definition DUTCH_KEYWORDS : list jsString :=
  List.map js ["nederland"; "dutch"; "nl"; "holland"; "vlaams"; "belgie"; "belgian"]%string.

(** [s.replace(pattern, '')] for a non-empty string pattern: the first
    occurrence is removed. *)
Fixpoint removeFirst (pattern s : jsString) : jsString :=
  match s with
  | [] => []
  | c :: s' =>
      if startsWith pattern s then List.skipn (length pattern) s
      else c :: removeFirst pattern s'
  end.

(** [s.split(':')[0]] *)
Fixpoint beforeColon (s : jsString) : jsString :=
  match s with
  | [] => []
  | c :: s' => if (c =? 58)%N then [] else c :: beforeColon s'
  end.

(** [jidToPhone(jid)] *)
Definition jidToPhone (jid : jsString) : jsString :=
  match jid with
  | [] => []
  | _ :: _ => beforeColon (removeFirst (js "@g.us") (removeFirst (js "@s.whatsapp.net") jid))
  end.

(** [detectLanguage(groupName)] *)
Definition detectLanguage `{JsStringOps} (groupName : jsString) : language :=
  let lowerName := toLowerCase groupName in
  if existsb (fun keyword => includes keyword lowerName) DUTCH_KEYWORDS then nl else en.

(** [getMessages(groupName)] selects the table of texts of a language. *)
Definition getMessages `{JsStringOps} (groupName : jsString) : language :=
  detectLanguage groupName.

(** [config.verificationTimeoutMinutes] and the captcha generator (whose
    call may throw: [None]). *)
Record VerificationEnv := {
  verificationTimeoutMinutes : Z;
  generateCaptcha : option (jsString * Buffer)
}.

(** [startVerification(sock, groupId, groupName, userJid)]: the database
    afterwards, the socket calls, and whether the promise is fulfilled. *)
Definition startVerification `{JsStringOps} (env : VerificationEnv) (sock : Socket)
    (now : Z) (groupId groupName userJid : jsString) (db : database)
  : outcome unit * database * list socketCall :=
  let userPhone := jidToPhone userJid in
  let messages := getMessages groupName in
  let timeout := verificationTimeoutMinutes env in
  if isUserVerified userPhone groupId db then (Returned tt, db, [])
  else
    match generateCaptcha env with
    | None => (Raised, db, [])
    | Some (code, image) =>
        match addPendingCaptcha now userPhone groupId code timeout db with
        | (Raised, db') => (Raised, db', [])
        | (Returned _, db') =>
            (Returned tt, db',
             [CallSendMessage groupId (CaptchaImage image (welcome messages timeout))])
        end
    end.

(** The object returned by [checkVerificationAnswer]. *)
Record verificationResult := {
  vr_success : bool;
  vr_message : botText;
  vr_phone : jsString
}.

(** [/^[A-Z0-9]{3,7}$/i.test(s)] *)
Definition looksLikeCaptcha (s : jsString) : bool :=
  (3 <=? length s)%nat && (length s <=? 7)%nat
  && forallb (fun c => isUpper c || isLower c || isDigit c) s.

(** [checkVerificationAnswer(senderJid, messageText, groupId, groupName)].
    [now] is the time of the lookup, [tVerified] the time of the insert
    into [verified_users]. *)
Definition checkVerificationAnswer `{JsStringOps} `{Crypto} (now tVerified : Z)
    (senderJid messageText groupId groupName : jsString) (db : database)
  : option verificationResult * database :=
  let phone := jidToPhone senderJid in
  match getPendingVerification now phone groupId db with
  | None => (None, db)
  | Some pending =>
      match Pending.captcha_code pending with
      | None => (None, db)
      | Some [] => (None, db)
      | Some (c :: code) =>
          let messages := getMessages groupName in
          let userAnswer := toUpperCase (trim messageText) in
          let expectedCode := toUpperCase (c :: code) in
          if decide (userAnswer = expectedCode) then
            let db1 := removePendingVerification phone groupId db in
            let db2 := markUserVerified tVerified phone groupId db1 in
            (Some {| vr_success := true; vr_message := success messages;
                     vr_phone := phone |}, db2)
          else if looksLikeCaptcha (trim messageText) then
            (Some {| vr_success := false; vr_message := wrong messages;
                     vr_phone := phone |}, db)
          else (None, db)
      end
  end.

(** The participant removed for a pending row: the stored phone, with
    ['@s.whatsapp.net'] appended unless it already contains ['@']. *)
Definition participantJidOf (phone : jsString) : jsString :=
  if includes [64%N] phone then phone else phone ++ js "@s.whatsapp.net".

(** One iteration of the loop of [processExpiredVerifications]: the socket
    calls made for the row and the entry pushed on [kicked], if any. *)
Definition processExpired `{JsStringOps} (sock : Socket) (verification : Pending.row)
  : list socketCall * list (jsString * jsString) :=
  let group := Pending.group_id verification in
  let groupName :=
    match groupMetadata sock group with
    | Some subject => subject
    | None => group
    end in
  let messages := getMessages groupName in
  let participantJid := participantJidOf (Pending.phone verification) in
  ([CallGroupMetadata group;
    CallSendMessage group (Text (timeout messages));
    CallRemove group [participantJid]],
   if groupParticipantsUpdate sock group [participantJid]
   then [(Pending.phone verification, group)] else []).

(** [processExpiredVerifications(sock)]: [tQuery] is the time of
    [getExpiredVerifications], [tCleanup] the time of
    [cleanupExpiredVerifications] after the loop.  Returns [kicked], the
    socket calls and the database afterwards. *)
Definition processExpiredVerifications `{JsStringOps} (sock : Socket) (tQuery tCleanup : Z)
    (db : database) : list (jsString * jsString) * list socketCall * database :=
  let expired := getExpiredVerifications tQuery db in
  let steps := List.map (processExpired sock) expired in
  (List.concat (List.map snd steps),
   List.concat (List.map fst steps),
   (cleanupExpiredVerifications tCleanup db).2).

(** The removal attempts among socket calls. *)
Definition removalAttempts (calls : list socketCall) : list (jsString * list jsString) :=
  List.concat (List.map (fun c => match c with
                                  | CallRemove g ps => [(g, ps)]
                                  | _ => []
                                  end) calls).

(** ** Restore endpoint (index.js, POST /api/restore-message/:id) *)

Inductive restoreError :=
  | MessageNotFound          (* 'Message not found' *)
  | MessageAlreadyRestored   (* 'Message already restored' *)
  | BotNotConnected          (* 'Bot not connected' *)
  | CaughtError.             (* error.message of an exception *)

(** The JSON body of the response. *)
Inductive restoreResponse :=
  | RestoreOk                          (* { success: true, message: 'Message restored successfully' } *)
  | RestoreFailed (error : restoreError). (* { success: false, error } *)

(** [maskedPhone] *)
Definition maskedPhoneOf (userPhone : jsString) : jsString :=
  if (6 <? length userPhone)%nat then
    List.firstn 4 userPhone ++ js "****" ++ List.skipn (length userPhone - 2) userPhone
  else js "****".

(** The message resent to the group: the display name (or the masked
    phone) and the logged body. *)
Definition restoredMessageOf (log : Log.row) : content :=
  let displayName :=
    match Log.user_name log with
    | Some (c :: name) => c :: name
    | _ => maskedPhoneOf (Log.user_phone log)
    end in
  RestoredMessage displayName (Log.message_body log).

(** The handler.  [sock] is [None] while the bot is not connected;
    [groupIdToName] is the cache read by [getGroupNameFromConfig];
    [logId] is [parseInt(req.params.id)] ([None] for [NaN]). *)
Definition restoreMessage (sock : option Socket) (groupIdToName : gmap (list N) jsString)
    (logId : option Z) (db : database)
  : restoreResponse * database * list socketCall :=
  match getModerationLogById logId db with
  | None => (RestoreFailed MessageNotFound, db, [])
  | Some log =>
      if negb (Log.restored log =? 0) then (RestoreFailed MessageAlreadyRestored, db, [])
      else
        match sock with
        | None => (RestoreFailed BotNotConnected, db, [])
        | Some sock =>
            let groupName :=
              match groupIdToName !! Log.group_id log with
              | Some (c :: name) => c :: name
              | _ => Log.group_id log
              end in
            let lookupCalls :=
              if decide (groupName = Log.group_id log)
              then [CallGroupMetadata (Log.group_id log)] else [] in
            let restoredMessage := restoredMessageOf log in
            let calls := lookupCalls ++ [CallSendMessage (Log.group_id log) restoredMessage] in
            if sendMessage sock (Log.group_id log) restoredMessage then
              (RestoreOk, markMessageRestored logId db, calls)
            else (RestoreFailed CaughtError, db, calls)
        end
  end.

(** ** Media frame extractor (moderation.js) *)

(** The temporary directory: file name to content. *)
Abbreviation FileSystem := (gmap (list N) Buffer).

(** Computations over the temporary directory that may throw. *)
Definition io (A : Type) : Type := FileSystem -> outcome A * FileSystem.

Definition ret {A} (a : A) : io A := fun fs => (Returned a, fs).

Definition throw {A} : io A := fun fs => (Raised, fs).

Definition bind {A B} (m : io A) (k : A -> io B) : io B :=
  fun fs =>
    match m fs with
    | (Returned a, fs') => k a fs'
    | (Raised, fs') => (Raised, fs')
    end.

(** [try { body } catch (error) { handler }] *)
Definition tryCatch {A} (body handler : io A) : io A :=
  fun fs =>
    match body fs with
    | (Returned a, fs') => (Returned a, fs')
    | (Raised, fs') => handler fs'
    end.

Declare Scope io_scope.
Delimit Scope io_scope with io.
Notation "x <- m ;; k" := (bind m (fun x => k))
  (at level 100, m at next level, right associativity) : io_scope.
Notation "m ;;; k" := (bind m (fun _ => k))
  (at level 100, right associativity) : io_scope.

(** [`${n}`] for an integer. *)
Definition decimal (n : Z) : jsString := js (NilZero.string_of_int (Z.to_int n)).

(** One run of ffmpeg on an output pattern [..._%d.jpg]: the frames it
    wrote (index and content) and whether it ended with ['end'] or with
    ['error']. *)
Record ffmpegRun := {
  framesWritten : list (Z * Buffer);
  ended : bool
}.

(** The environment of one extraction. *)
Record MediaEnv := {
  writeFileSucceeds : bool;
  ffprobeDuration : option Q;
  selectRun : ffmpegRun;
  fallbackRun : ffmpegRun;
  gifRun : ffmpegRun
}.

(** [fs.writeFileSync(path, buffer)] *)
Definition writeFileSync (succeeds : bool) (path : jsString) (buffer : Buffer) : io unit :=
  fun fs => if succeeds then (Returned tt, <[path := buffer]> fs) else (Raised, fs).

(** [if (fs.existsSync(path)) fs.unlinkSync(path)] *)
Definition unlinkIfExists (path : jsString) : io unit :=
  fun fs => (Returned tt, delete path fs).

(** [fs.readdirSync(tempDir)], in directory order. *)
Definition readdirSync : io (list jsString) :=
  fun fs => (Returned (List.map fst (map_to_list fs)), fs).

(** [ffprobe]: [resolve(metadata.format.duration || 5)] or [reject(err)]. *)
Definition ffprobe (env : MediaEnv) : io Q :=
  match ffprobeDuration env with
  | Some duration => ret (if Qeq_bool duration 0 then 5 # 1 else duration)
  | None => throw
  end.

(** An ffmpeg command: the frames are written under the pattern, then the
    promise is resolved or rejected. *)
Definition runFfmpeg (run : ffmpegRun) (framePattern : Z -> jsString) : io unit :=
  fun fs =>
    let fs' := fold_left (fun acc kf => <[framePattern kf.1 := kf.2]> acc)
                 (framesWritten run) fs in
    if ended run then (Returned tt, fs') else (Raised, fs').

(** [for (const file of files) if (fs.existsSync(filePath)) {
      frames.push(fs.readFileSync(filePath)); fs.unlinkSync(filePath) }] *)
Fixpoint readAndUnlink (files : list jsString) (frames : list Buffer) : io (list Buffer) :=
  match files with
  | [] => ret frames
  | file :: rest =>
      fun fs =>
        match fs !! file with
        | Some frameBuffer => readAndUnlink rest (frames ++ [frameBuffer]) (delete file fs)
        | None => readAndUnlink rest frames fs
        end
  end.

Definition isFrameFile (f : jsString) : bool :=
  startsWith (js "frame_") f && endsWith (js ".jpg") f.

Definition isGifFrameFile (f : jsString) : bool :=
  startsWith (js "gifframe_") f && endsWith (js ".jpg") f.

(** The default order of [Array.prototype.sort] on strings: by code
    units. *)
Fixpoint codeUnitLe (a b : jsString) : bool :=
  match a, b with
  | [], _ => true
  | _ :: _, [] => false
  | x :: a', y :: b' =>
      if (x <? y)%N then true else if (x =? y)%N then codeUnitLe a' b' else false
  end.

Definition tempVideoPath (t : Z) : jsString := js "video_" ++ decimal t ++ js ".mp4".

Definition videoFramePattern (t k : Z) : jsString :=
  js "frame_" ++ decimal t ++ js "_" ++ decimal k ++ js ".jpg".

Definition tempGifPath (t : Z) : jsString := js "gif_" ++ decimal t ++ js ".gif".

Definition gifFramePattern (t k : Z) : jsString :=
  js "gifframe_" ++ decimal t ++ js "_" ++ decimal k ++ js ".jpg".

Local Open Scope io_scope.

(** The block "Read extracted frames" of [extractVideoFrames]: the body of
    the [for] loop runs once (it ends in [break]) when [1 <= numFrames],
    and reads and unlinks every [frame_*.jpg] of the directory. *)
Definition readVideoFrames (numFrames : nat) : io (list Buffer) :=
  if (1 <=? numFrames)%nat then
    files <- readdirSync ;;
    readAndUnlink (List.filter isFrameFile files) []
  else ret [].

(** The block "Read extracted frames" of [extractGifFrames]: the sorted
    [gifframe_*.jpg] files, of which the first [numFrames] are read and
    unlinked. *)
Definition readGifFrames (numFrames : nat) : io (list Buffer) :=
  listed <- readdirSync ;;
  let files := merge_sort (fun a b => Is_true (codeUnitLe a b))
                 (List.filter isGifFrameFile listed) in
  readAndUnlink (List.firstn numFrames files) [].

(** [extractVideoFrames(videoBuffer, numFrames)]; [t1] and [t2] are the
    two readings of [Date.now()] in the file names. *)
Definition extractVideoFrames (env : MediaEnv) (t1 t2 : Z) (videoBuffer : Buffer)
    (numFrames : nat) : io (list Buffer) :=
  tryCatch
    (writeFileSync (writeFileSucceeds env) (tempVideoPath t1) videoBuffer ;;;
     duration <- ffprobe env ;;
     tryCatch (runFfmpeg (selectRun env) (videoFramePattern t2))
              (runFfmpeg (fallbackRun env) (videoFramePattern t2)) ;;;
     frames <- readVideoFrames numFrames ;;
     unlinkIfExists (tempVideoPath t1) ;;;
     ret frames)
    (unlinkIfExists (tempVideoPath t1) ;;;
     throw).

(** [extractGifFrames(gifBuffer, numFrames)] *)
Definition extractGifFrames (env : MediaEnv) (t1 t2 : Z) (gifBuffer : Buffer)
    (numFrames : nat) : io (list Buffer) :=
  tryCatch
    (writeFileSync (writeFileSucceeds env) (tempGifPath t1) gifBuffer ;;;
     runFfmpeg (gifRun env) (gifFramePattern t2) ;;;
     frames <- readGifFrames numFrames ;;
     unlinkIfExists (tempGifPath t1) ;;;
     ret frames)
    (unlinkIfExists (tempGifPath t1) ;;;
     throw).

Local Close Scope io_scope.

(** The tail shared by [analyzeVideo] and [analyzeGif]: the vision call on
    the frames and the threshold on the parsed answer. *)
Definition classifyFrames (openai : OpenAI) (kind : violation) (fallbackDescription : jsString)
    (frames : list Buffer) : option verdict :=
  match vision_completion openai frames with
  | ApiError => None
  | Unparsable => None
  | Parsed result =>
      if media_flagged result && negb (Qle_bool (media_confidence result) (6 # 10)) then
        Some {| type := kind;
                reason := MediaTopic (media_topic result);
                severity := high;
                extras := MediaExtras (media_topic result)
                            (match media_description result with
                             | Some (c :: d) => c :: d
                             | _ => fallbackDescription
                             end)
                            (media_confidence result) |}
      else None
  end.

(** [analyzeVideo(videoBuffer)]; [None] of the buffer is a missing one. *)
Definition analyzeVideo (openai : OpenAI) (env : MediaEnv) (t1 t2 : Z)
    (videoBuffer : option Buffer) (fs : FileSystem) : option verdict * FileSystem :=
  match videoBuffer with
  | None => (None, fs)
  | Some buffer =>
      if negb (openaiApiKey openai) then (None, fs)
      else
        match extractVideoFrames env t1 t2 buffer 4 fs with
        | (Raised, fs') => (None, fs')
        | (Returned [], fs') => (None, fs')
        | (Returned frames, fs') =>
            (classifyFrames openai sensitive_video (js "Sensitive video content") frames, fs')
        end
  end.

(** [analyzeGif(gifBuffer)] *)
Definition analyzeGif (openai : OpenAI) (env : MediaEnv) (t1 t2 : Z)
    (gifBuffer : option Buffer) (fs : FileSystem) : option verdict * FileSystem :=
  match gifBuffer with
  | None => (None, fs)
  | Some buffer =>
      if negb (openaiApiKey openai) then (None, fs)
      else
        match extractGifFrames env t1 t2 buffer 4 fs with
        | (Raised, fs') => (None, fs')
        | (Returned [], fs') => (None, fs')
        | (Returned frames, fs') =>
            (classifyFrames openai sensitive_gif (js "Sensitive GIF content") frames, fs')
        end
  end.

(** ** Operations on the database *)

(** The mutating functions exported by db.js, and the restore endpoint. *)
Inductive dbOperation :=
  | SaveMessage (now : Z) (groupId phone messageBody : jsString) (isFromAdmin isFromBot : bool)
  | AddPendingVerification (now : Z) (phone groupId : jsString) (expectedAnswer timeoutMinutes : Z)
  | AddPendingCaptcha (now : Z) (phone groupId captchaCode : jsString) (timeoutMinutes : Z)
  | RemovePendingVerification (phone groupId : jsString)
  | MarkUserVerified (now : Z) (phone groupId : jsString)
  | CleanupExpiredVerifications (now : Z)
  | LogModeration (now : Z) (data : moderationData)
  | MarkMessageRestored (logId : option Z)
  | UpdateModerationResponse (logId : option Z) (response : option jsString)
  | ClearModerationLogs
  | RestoreMessage (sock : option Socket) (groupIdToName : gmap (list N) jsString)
                   (logId : option Z).

Definition perform `{JsStringOps} `{Crypto} (op : dbOperation) (db : database) : database :=
  match op with
  | SaveMessage now groupId phone messageBody isFromAdmin isFromBot =>
      saveMessage now groupId phone messageBody isFromAdmin isFromBot db
  | AddPendingVerification now phone groupId expectedAnswer timeoutMinutes =>
      (addPendingVerification now phone groupId expectedAnswer timeoutMinutes db).2
  | AddPendingCaptcha now phone groupId captchaCode timeoutMinutes =>
      (addPendingCaptcha now phone groupId captchaCode timeoutMinutes db).2
  | RemovePendingVerification phone groupId => removePendingVerification phone groupId db
  | MarkUserVerified now phone groupId => markUserVerified now phone groupId db
  | CleanupExpiredVerifications now => (cleanupExpiredVerifications now db).2
  | LogModeration now data => (logModeration now data db).2
  | MarkMessageRestored logId => markMessageRestored logId db
  | UpdateModerationResponse logId response => updateModerationResponse logId response db
  | ClearModerationLogs => (clearModerationLogs db).2
  | RestoreMessage sock groupIdToName logId => (restoreMessage sock groupIdToName logId db).1.2
  end.

(** The operations that write the membership of a (phone, room) outside
    the verification of that phone for that room: a verification of the
    phone for another room, which replaces the phone's row of
    [verified_users], and a pending record written for the (phone, room). *)
Definition rewritesMembership (phone groupId : jsString) (op : dbOperation) : bool :=
  match op with
  | MarkUserVerified _ p g => bool_decide (p = phone) && negb (bool_decide (g = groupId))
  | AddPendingVerification _ p g _ _ => bool_decide (p = phone) && bool_decide (g = groupId)
  | AddPendingCaptcha _ p g _ _ => bool_decide (p = phone) && bool_decide (g = groupId)
  | _ => false
  end.

(** Every key of [moderation_logs] was handed out by AUTOINCREMENT. *)
Definition logKeysIssued (db : database) : Prop :=
  forall r, In r (moderation_logs db) -> Log.id r <= logs_seq db.

(** The log entry [i], if it still exists, is restored, and its key will
    not be handed out again. *)
Definition restoredForGood (i : Z) (db : database) : Prop :=
  i <= logs_seq db /\ logKeysIssued db
  /\ forall r, In r (moderation_logs db) -> Log.id r = i -> Log.restored r <> 0.

(** Every (phone, room) key has at most one pending row. *)
Definition pendingKeysUnique (db : database) : Prop :=
  NoDup (List.map (fun r => (Pending.phone r, Pending.group_id r)) (pending_verifications db)).

(** Every row of [verified_users] has a phone of its own (the UNIQUE
    constraint of the column). *)
Definition verifiedPhonesUnique (db : database) : Prop :=
  NoDup (List.map Verified.phone (verified_users db)).

(** ** An executable instance of the string interface (ASCII) *)

Definition asciiLower (c : N) : N := if isUpper c then (c + 32)%N else c.
Definition asciiUpper (c : N) : N := if isLower c then (c - 32)%N else c.

Fixpoint trimStart (s : jsString) : jsString :=
  match s with
  | c :: s' => if isSpace c then trimStart s' else s
  | [] => []
  end.

Definition asciiOps : JsStringOps := {|
  toLowerCase := List.map asciiLower;
  toUpperCase := List.map asciiUpper;
  trim := fun s => rev (trimStart (rev (trimStart s)))
|}.

(** The message passes the three early returns of [checkSimpleSpam]
    (shorter than 5, more than [maxLinks] links, excessive caps) and so
    reaches the block "Check for repeated messages". *)
Definition reachesRepeatCheck (message : jsString) : bool :=
  negb (length message <? 5)%nat
  && negb (SPAM_CONFIG.maxLinks <? countLinks message)%nat
  && (match checkCaps message with Some _ => false | None => true end).

(** A stand-in digest, a socket on which every call succeeds and a captcha
    generator, to run the examples. *)
Definition exampleCrypto : Crypto := {| sha256hex := fun phone => js "sha256:" ++ phone |}.

Definition exampleSocket : Socket := {|
  groupMetadata := fun groupId => Some (js "Test Group");
  sendMessage := fun _ _ => true;
  groupParticipantsUpdate := fun _ _ => true
|}.

Definition exampleEnv : VerificationEnv := {|
  verificationTimeoutMinutes := 5;
  generateCaptcha := Some (js "x7Kq2", [137; 80; 78; 71]%N)
|}.

Definition exampleFailingSocket : Socket := {|
  groupMetadata := fun _ => None;
  sendMessage := fun _ _ => false;
  groupParticipantsUpdate := fun _ _ => false
|}.

(** An OpenAI client that flags nothing. *)
Definition exampleQuietOpenAI : OpenAI := {|
  openaiApiKey := true;
  moderations_create := fun _ =>
    Some {| flagged := false; categories := []; category_scores := [] |};
  topic_completion := fun _ =>
    Parsed {| topic_flagged := false; topic := []; topic_confidence := 0 |};
  vision_completion := fun _ =>
    Parsed {| media_flagged := false; media_topic := []; media_description := None;
              media_confidence := 0 |}
|}.

(** ** Further functions of the sources *)

(** *** moderation.js: image analysis and the admin commands *)

(** [analyzeImage(imageBuffer, mimeType)]; [None] of the buffer is a
    missing one.  The MIME type only enters the data URL sent to the API;
    the call, the parse and the threshold [result.confidence > 0.6] are
    those of the video and GIF analysers, on the single image. *)
Definition analyzeImage (openai : OpenAI) (imageBuffer : option Buffer) : option verdict :=
  match imageBuffer with
  | None => None
  | Some buffer =>
      if negb (openaiApiKey openai) then None
      else classifyFrames openai sensitive_image (js "Sensitive image content") [buffer]
  end.

(** The values interpolated into the template string returned by
    [formatAdminAlert]. *)
Record adminAlert := {
  alert_logId : Z;
  alert_groupName : jsString;
  alert_maskedPhone : jsString;
  alert_type : violation;
  alert_reason : reasonText;
  alert_severity : severityLevel;
  alert_truncatedMsg : jsString
}.

(** [formatAdminAlert(result, groupName, senderPhone, message, logId)] *)
Definition formatAdminAlert (result : verdict) (groupName senderPhone message : jsString)
    (logId : Z) : adminAlert :=
  let truncatedMsg :=
    if (100 <? length message)%nat then List.firstn 100 message ++ js "..." else message in
  let maskedPhone :=
    if (6 <? length senderPhone)%nat then
      List.firstn 4 senderPhone ++ js "****"
      ++ List.skipn (length senderPhone - 2) senderPhone
    else js "****" in
  {| alert_logId := logId; alert_groupName := groupName; alert_maskedPhone := maskedPhone;
     alert_type := type result; alert_reason := reason result;
     alert_severity := severity result; alert_truncatedMsg := truncatedMsg |}.

(** The strings returned by [handleAdminResponse]. *)
Inductive adminReply :=
  | ActionIgnored                          (* 'Action: Ignored. No action taken.' *)
  | UserRemoved (userPhone : jsString)     (* `Action: User ${userPhone} has been removed from the group.` *)
  | ErrorBanning                           (* `Error banning user: ${error.message}` *)
  | MuteComingSoon                         (* 'Action: Mute functionality coming soon.' *)
  | UnknownAction.                         (* 'Unknown action. Use: ignore, ban, or mute' *)

(** [handleAdminResponse(response, sock, groupId, userPhone)]: the string
    the promise resolves to and the socket calls made. *)
Definition handleAdminResponse `{JsStringOps} (response : jsString) (sock : Socket)
    (groupId userPhone : jsString) : adminReply * list socketCall :=
  let action := trim (toLowerCase response) in
  if bool_decide (action = js "ignore") || includes (js "ignore") action then
    (ActionIgnored, [])
  else if bool_decide (action = js "ban") || includes (js "ban") action then
    let participantJid :=
      if negb (includes [64%N] userPhone) then userPhone ++ js "@s.whatsapp.net"
      else userPhone in
    (if groupParticipantsUpdate sock groupId [participantJid]
     then UserRemoved userPhone else ErrorBanning,
     [CallRemove groupId [participantJid]])
  else if bool_decide (action = js "mute") || includes (js "mute") action then
    (MuteComingSoon, [])
  else (UnknownAction, []).

(** *** index.js: helpers and the moderation step of the message handler *)

(** [maskPhone(phone)] *)
Definition maskPhone (phone : jsString) : jsString :=
  match phone with
  | [] => js "****"
  | _ :: _ =>
      let clean := removeFirst (js "@g.us") (removeFirst (js "@s.whatsapp.net") phone) in
      if (6 <? length clean)%nat then
        List.firstn 4 clean ++ js "****" ++ List.skipn (length clean - 2) clean
      else js "****"
  end.

(** What [downloadMediaMessage(message, 'buffer', {})] does for the image
    of a message: it throws, or it returns the buffer. *)
Inductive download :=
  | DownloadThrows
  | Downloaded (imageBuffer : Buffer).

(** The block "Run moderation check (skip for group admins)" of the
    [messages.upsert] handler, up to the verdict.  [image] is [None] when
    the message has no image ([hasImage] false); [textPath] is
    [moderation.moderateMessage] applied to the text, sender and room,
    whichever revision of moderation.js is loaded, as a function of the
    repeat cache.  The cache is returned as the block leaves it, together
    with the stages of the text path that ran. *)
Definition moderationCheck (openai : OpenAI)
    (textPath : gmap (list N) cacheEntry -> moderationRun)
    (isGroupAdmin : bool) (image : option download) (messageText : jsString)
    (recentMessages : gmap (list N) cacheEntry) : moderationRun :=
  if isGroupAdmin then
    {| result := None; cacheAfter := recentMessages; stages := [] |}
  else
    let moderationResult :=
      match image with
      | Some (Downloaded imageBuffer) => analyzeImage openai (Some imageBuffer)
      | Some DownloadThrows => None
      | None => None
      end in
    match moderationResult, messageText with
    | None, _ :: _ => textPath recentMessages
    | _, _ => {| result := moderationResult; cacheAfter := recentMessages; stages := [] |}
    end.

(** The body written to the ledger for a verdict: [`[IMAGE]
    ${moderationResult.description}`] for an image verdict, the text
    otherwise.  A verdict without [description] interpolates
    ['undefined']. *)
Definition logMessageBody (moderationResult : verdict) (messageText : jsString) : jsString :=
  match type moderationResult with
  | sensitive_image =>
      js "[IMAGE] " ++
      match extras moderationResult with
      | MediaExtras _ description _ => description
      | _ => js "undefined"
      end
  | _ => messageText
  end.

(** The [categoryScores] field of a verdict ([undefined] unless the verdict
    comes from the toxicity stage). *)
Definition categoryScoresOf (moderationResult : verdict) : option (list (jsString * Q)) :=
  match extras moderationResult with
  | ToxicExtras _ _ scores => Some scores
  | _ => None
  end.

(** The call of [db.logModeration] in the handler, for a verdict. *)
Definition logViolation `{Crypto} (now : Z) (moderationResult : verdict)
    (remoteJid senderPhone : jsString) (senderName : option jsString)
    (messageText : jsString) (messageKey : jsString) (db : database) : Z * database :=
  logModeration now
    {| groupId := remoteJid; userPhone := senderPhone; userName := senderName;
       messageBody := logMessageBody moderationResult messageText;
       violationType := type moderationResult;
       actionTaken := js "deleted";
       categoryScores := categoryScoresOf moderationResult;
       messageKey := Some messageKey |}
    db.

(** *** summary.js and the message statistics of db.js *)

(** [text.replace(/c/g, replacement)] for a single character [c]. *)
Definition replaceAll (c : N) (replacement s : jsString) : jsString :=
  List.flat_map (fun x => if (x =? c)%N then replacement else [x]) s.

(** [escapeHtml(text)] *)
Definition escapeHtml (text : jsString) : jsString :=
  match text with
  | [] => []
  | _ :: _ =>
      replaceAll 39 (js "&#039;")
        (replaceAll 34 (js "&quot;")
           (replaceAll 62 (js "&gt;")
              (replaceAll 60 (js "&lt;")
                 (replaceAll 38 (js "&amp;") text))))
  end.

(** The rows selected by
    [WHERE group_id = ? AND timestamp >= datetime('now', '-' || ? || ' days')],
    for a number of days that is not negative (the callers pass 7). *)
Definition messagesOfLastDays (now : Z) (groupId : jsString) (days : Z) (db : database)
  : list Message.row :=
  List.filter (fun r => bool_decide (Message.group_id r = groupId)
                        && (now - 86400 * days <=? Message.timestamp r))
    (messages db).

(** [getTotalMessageCount(groupId, days)] *)
Definition getTotalMessageCount (now : Z) (groupId : jsString) (days : Z) (db : database) : Z :=
  Z.of_nat (length (messagesOfLastDays now groupId days db)).

(** [getUniqueUsersCount(groupId, days)]: [COUNT(DISTINCT hashed_phone)] *)
Definition getUniqueUsersCount (now : Z) (groupId : jsString) (days : Z) (db : database) : Z :=
  Z.of_nat (length (remove_dups
                      (List.map Message.hashed_phone (messagesOfLastDays now groupId days db)))).

(** *** Runs of several calls *)

(** [checkSimpleSpam] called for each message of a list in turn, for one
    sender and room; every message comes with the two clock readings of its
    call.  Returns the verdicts in call order and the cache at the end. *)
Fixpoint checkSimpleSpamEach `{JsStringOps} (calls : list (Z * Z * jsString))
    (senderPhone groupId : jsString) (recentMessages : gmap (list N) cacheEntry)
  : list (option verdict) * gmap (list N) cacheEntry :=
  match calls with
  | [] => ([], recentMessages)
  | (tClean, tStamp, message) :: rest =>
      let r := checkSimpleSpam tClean tStamp message senderPhone groupId recentMessages in
      let rs := checkSimpleSpamEach rest senderPhone groupId r.2 in
      (r.1 :: rs.1, rs.2)
  end.

(** Every call reads its clock no later than [repeatWindow] after the
    stamp of the call before it ([lastStamp] for the first). *)
Fixpoint withinWindow (lastStamp : Z) (calls : list (Z * Z * jsString)) : Prop :=
  match calls with
  | [] => True
  | (tClean, tStamp, _) :: rest =>
      tClean - lastStamp <= SPAM_CONFIG.repeatWindow /\ withinWindow tStamp rest
  end.

(** The verdict of the [count]-th consecutive occurrence of a text. *)
Definition occurrenceVerdict (count : Z) : option verdict :=
  if 3 <=? count then
    Some {| type := repeated_message; reason := SameMessageSent count;
            severity := medium; extras := NoExtras |}
  else None.

(** * Properties *)

(** ** The heuristic spam detector *)

Example countLinks_four :
  countLinks (js "check this out http://a http://b http://c http://d") = 4%nat.
Proof. reflexivity. Qed.

Example checkCaps_all_caps :
  type <$> checkCaps (js "THIS IS ALL CAPS TEXT") = Some excessive_caps.
Proof. reflexivity. Qed.

Example checkCaps_mixed :
  checkCaps (js "This is all Caps text") = None.
Proof. reflexivity. Qed.

Lemma checkCaps_Some message v :
  checkCaps message = Some v ->
  type v = excessive_caps /\ severity v = low
  /\ (10 <= length message)%nat /\ (0 < length (lettersOf message))%nat
  /\ (7 # 10 < capsRatio (lettersOf message))%Q.
Proof.
  unfold checkCaps, SPAM_CONFIG.minCapsLength, SPAM_CONFIG.maxCapsRatio.
  destruct (Nat.leb_spec 10 (length message)) as [Hlen|]; [|discriminate].
  destruct (Nat.ltb_spec 0 (length (lettersOf message))) as [Hpos|]; [|discriminate].
  destruct (Qle_bool _ _) eqn:Hq; simpl; [discriminate|].
  intros [= <-]; simpl. repeat split; try assumption.
  apply Qnot_le_lt. intros Hle. apply Qle_bool_iff in Hle. congruence.
Qed.

Lemma checkCaps_None message :
  checkCaps message = None ->
  ~ ((10 <= length message)%nat /\ (0 < length (lettersOf message))%nat
     /\ (7 # 10 < capsRatio (lettersOf message))%Q).
Proof.
  unfold checkCaps, SPAM_CONFIG.minCapsLength, SPAM_CONFIG.maxCapsRatio.
  intros Hc (Hlen & Hpos & Hlt).
  destruct (Nat.leb_spec 10 (length message)); [|lia].
  destruct (Nat.ltb_spec 0 (length (lettersOf message))); [|lia].
  destruct (Qle_bool _ _) eqn:Hq; simpl in Hc; [|discriminate].
  apply Qle_bool_iff in Hq. exact (Qlt_not_le _ _ Hlt Hq).
Qed.

Lemma lettersOf_length message : (length (lettersOf message) <= length message)%nat.
Proof. apply List.filter_length_le. Qed.

(** At the boundary of the rational model the double comparison agrees:
    7/10 does not exceed the double [0.7], the nearest ratios around it
    fall on the expected side. *)
Example doubleRatioExceeds_boundary :
  doubleRatioExceeds 7 10 = false /\ doubleRatioExceeds 8 11 = true
  /\ doubleRatioExceeds 699999999 1000000000 = false
  /\ doubleRatioExceeds 700000001 1000000000 = true.
Proof. vm_compute. repeat split; reflexivity. Qed.

Section SpamDetector.
Context {ops : JsStringOps}.

Implicit Types (message senderPhone groupId : jsString).
Implicit Types (recentMessages : gmap (list N) cacheEntry).

Lemma checkSimpleSpam_early tClean tStamp message senderPhone groupId recentMessages :
  reachesRepeatCheck message = false ->
  (checkSimpleSpam tClean tStamp message senderPhone groupId recentMessages).2
  = recentMessages.
Proof.
  unfold reachesRepeatCheck, checkSimpleSpam.
  destruct (length message <? 5)%nat; [reflexivity|].
  destruct (SPAM_CONFIG.maxLinks <? countLinks message)%nat; [reflexivity|].
  destruct (checkCaps message); [reflexivity|discriminate].
Qed.

Lemma reachesRepeatCheck_true message :
  reachesRepeatCheck message = true <->
  (5 <= length message)%nat /\ (countLinks message <= SPAM_CONFIG.maxLinks)%nat
  /\ checkCaps message = None.
Proof.
  unfold reachesRepeatCheck.
  destruct (Nat.ltb_spec (length message) 5);
    destruct (Nat.ltb_spec SPAM_CONFIG.maxLinks (countLinks message));
    destruct (checkCaps message); simpl; split;
    try discriminate; try (intros (? & ? & ?); try discriminate; lia).
  intros _. repeat split; lia.
Qed.

Lemma checkSimpleSpam_verdict_kinds tClean tStamp message senderPhone groupId recentMessages v :
  (checkSimpleSpam tClean tStamp message senderPhone groupId recentMessages).1 = Some v ->
  (type v = excessive_links \/ type v = excessive_caps) ->
  reachesRepeatCheck message = false.
Proof.
  unfold reachesRepeatCheck, checkSimpleSpam.
  destruct (length message <? 5)%nat; [reflexivity|].
  destruct (SPAM_CONFIG.maxLinks <? countLinks message)%nat; [reflexivity|].
  destruct (checkCaps message); [reflexivity|]. simpl.
  destruct (cleanRecentMessages _ _ !! _) as [data|]; simpl; [|discriminate].
  destruct (decide _); simpl; [|discriminate].
  destruct (_ <=? _); [|discriminate].
  intros [= <-]; simpl. intros [|]; discriminate.
Qed.

(** C10. A call of checkSimpleSpam that returns early (message empty or
    shorter than 5 characters) or that returns an excessive_links or
    excessive_caps verdict leaves the repeat cache exactly as it was; the
    cache can differ after a call only if the message has at least 5
    characters, at most 3 links and passes the caps check. *)
Theorem checkSimpleSpam_cache_untouched
    tClean tStamp message senderPhone groupId recentMessages :
  let r := checkSimpleSpam tClean tStamp message senderPhone groupId recentMessages in
  (((length message < 5)%nat
    \/ exists v, r.1 = Some v /\ (type v = excessive_links \/ type v = excessive_caps))
   -> r.2 = recentMessages)
  /\ (r.2 <> recentMessages ->
      (5 <= length message)%nat /\ (countLinks message <= 3)%nat
      /\ checkCaps message = None).
Proof.
  intros r. split.
  - intros [Hshort|(v & Hv & Hk)]; apply checkSimpleSpam_early.
    + unfold reachesRepeatCheck.
      destruct (Nat.ltb_spec (length message) 5); [reflexivity|lia].
    + eapply checkSimpleSpam_verdict_kinds; eassumption.
  - intros Hne. apply reachesRepeatCheck_true.
    destruct (reachesRepeatCheck message) eqn:Hr; [reflexivity|].
    exfalso. apply Hne. apply checkSimpleSpam_early, Hr.
Qed.

Lemma checkSimpleSpam_caps_verdict tClean tStamp message senderPhone groupId recentMessages :
  (5 <= length message)%nat -> (countLinks message <= 3)%nat ->
  forall v,
  ((checkSimpleSpam tClean tStamp message senderPhone groupId recentMessages).1 = Some v
   /\ type v = excessive_caps)
  <-> checkCaps message = Some v.
Proof.
  intros Hlen Hlinks v. unfold checkSimpleSpam.
  destruct (Nat.ltb_spec (length message) 5); [lia|].
  destruct (Nat.ltb_spec SPAM_CONFIG.maxLinks (countLinks message));
    [unfold SPAM_CONFIG.maxLinks in *; lia|].
  destruct (checkCaps message) as [w|] eqn:Hc; simpl.
  - split.
    + intros [Hv _]. exact Hv.
    + intros [= <-]. split; [reflexivity|]. apply (checkCaps_Some _ _ Hc).
  - split; [|discriminate]. intros [Hv Ht]. exfalso.
    destruct (cleanRecentMessages _ _ !! _) as [data|]; simpl in Hv; [|discriminate].
    destruct (decide _); simpl in Hv; [|discriminate].
    destruct (_ <=? _); [|discriminate].
    injection Hv as <-. discriminate.
Qed.

(** C2 (as the code has it). For every message of length at least 5 with at
    most 3 links: checkSimpleSpam returns an excessive_caps verdict exactly
    when the message as a whole (all characters, not only the letters) has
    length at least 10, contains at least one letter, and the ratio of
    upper-case letters to letters exceeds 0.7; such a verdict has severity
    low.  In particular a text with at least 10 letters and a ratio above
    0.7 is flagged, and a text whose ratio is at most 0.7 is not. *)
Theorem excessive_caps_exactly
    tClean tStamp message senderPhone groupId recentMessages :
  (5 <= length message)%nat -> (countLinks message <= 3)%nat ->
  let r := (checkSimpleSpam tClean tStamp message senderPhone groupId recentMessages).1 in
  ((exists v, r = Some v /\ type v = excessive_caps)
   <-> (10 <= length message)%nat /\ (0 < length (lettersOf message))%nat
       /\ (7 # 10 < capsRatio (lettersOf message))%Q)
  /\ (forall v, r = Some v -> type v = excessive_caps -> severity v = low)
  /\ ((10 <= length (lettersOf message))%nat ->
      (7 # 10 < capsRatio (lettersOf message))%Q ->
      exists v, r = Some v /\ type v = excessive_caps /\ severity v = low)
  /\ ((capsRatio (lettersOf message) <= 7 # 10)%Q ->
      ~ exists v, r = Some v /\ type v = excessive_caps).
Proof.
  intros Hlen Hlinks r.
  pose proof (checkSimpleSpam_caps_verdict tClean tStamp message senderPhone groupId
                recentMessages Hlen Hlinks) as Hiff. fold r in Hiff.
  assert (Hmain : (exists v, r = Some v /\ type v = excessive_caps)
                  <-> (10 <= length message)%nat /\ (0 < length (lettersOf message))%nat
                      /\ (7 # 10 < capsRatio (lettersOf message))%Q).
  { split.
    - intros (v & Hv). apply Hiff in Hv. apply checkCaps_Some in Hv. tauto.
    - intros Hcond. destruct (checkCaps message) as [v|] eqn:Hc.
      + exists v. apply Hiff. reflexivity.
      + exfalso. exact (checkCaps_None _ Hc Hcond). }
  split; [exact Hmain|]. split; [|split].
  - intros v Hv Ht. assert (Hc : checkCaps message = Some v) by (apply Hiff; auto).
    apply (checkCaps_Some _ _ Hc).
  - intros Hl Hq.
    destruct (proj2 Hmain) as (v & Hv & Ht).
    { pose proof (lettersOf_length message). repeat split; [lia|lia|exact Hq]. }
    exists v. repeat split; try assumption.
    assert (Hc : checkCaps message = Some v) by (apply Hiff; auto).
    apply (checkCaps_Some _ _ Hc).
  - intros Hle Hex. apply Hmain in Hex. destruct Hex as (_ & _ & Hlt).
    exact (Qlt_not_le _ _ Hlt Hle).
Qed.

(** *** The repeat cache *)

Lemma cleanRecentMessages_lookup now recentMessages key :
  cleanRecentMessages now recentMessages !! key
  = match recentMessages !! key with
    | Some data =>
        if decide (now - Entry.lastTime data <= SPAM_CONFIG.repeatWindow)
        then Some data else None
    | None => None
    end.
Proof.
  unfold cleanRecentMessages.
  destruct (recentMessages !! key) as [data|] eqn:Hk.
  - destruct (decide _) as [Hle|Hgt].
    + apply map_lookup_filter_Some. split; [exact Hk|]. simpl. lia.
    + apply map_lookup_filter_None. right. intros data' Hk'. simpl.
      rewrite Hk in Hk'. injection Hk' as <-. lia.
  - apply map_lookup_filter_None. left. exact Hk.
Qed.

(** Steps a call of [checkSimpleSpam] past its three early returns, for a
    message known to reach the repeat check. *)
Ltac past_early_returns Hreach message :=
  let Hlen := fresh "Hlen" in
  let Hlinks := fresh "Hlinks" in
  let Hcaps := fresh "Hcaps" in
  apply reachesRepeatCheck_true in Hreach as (Hlen & Hlinks & Hcaps);
  unfold checkSimpleSpam;
  destruct (Nat.ltb_spec (length message) 5); [lia|];
  destruct (Nat.ltb_spec SPAM_CONFIG.maxLinks (countLinks message)); [lia|];
  rewrite Hcaps; cbv zeta.

(** No live entry of the key holds the normalized text: the call stores a
    fresh entry with count 1 and returns no verdict. *)
Lemma checkSimpleSpam_reset tClean tStamp message senderPhone groupId recentMessages :
  reachesRepeatCheck message = true ->
  (forall data, recentMessages !! cacheKey senderPhone groupId = Some data ->
     tClean - Entry.lastTime data <= SPAM_CONFIG.repeatWindow ->
     Entry.message data <> trim (toLowerCase message)) ->
  checkSimpleSpam tClean tStamp message senderPhone groupId recentMessages
  = (None, <[cacheKey senderPhone groupId := freshEntry message tStamp]>
             (cleanRecentMessages tClean recentMessages)).
Proof.
  intros Hr Hfresh. past_early_returns Hr message.
  rewrite cleanRecentMessages_lookup.
  destruct (recentMessages !! cacheKey senderPhone groupId) as [data|] eqn:Hk;
    [|reflexivity].
  destruct (decide (tClean - _ <= _)) as [Hlive|]; [|reflexivity].
  destruct (decide _) as [Heq|]; [|reflexivity].
  exfalso. exact (Hfresh data eq_refl Hlive Heq).
Qed.

(** A live entry of the key holds the normalized text: the count is
    incremented, the timestamp refreshed, and the verdict is returned from
    count 3 on. *)
Lemma checkSimpleSpam_repeat tClean tStamp message senderPhone groupId recentMessages data :
  reachesRepeatCheck message = true ->
  recentMessages !! cacheKey senderPhone groupId = Some data ->
  tClean - Entry.lastTime data <= SPAM_CONFIG.repeatWindow ->
  Entry.message data = trim (toLowerCase message) ->
  checkSimpleSpam tClean tStamp message senderPhone groupId recentMessages
  = (if 3 <=? Entry.count data + 1
     then Some {| type := repeated_message;
                  reason := SameMessageSent (Entry.count data + 1);
                  severity := medium; extras := NoExtras |}
     else None,
     <[cacheKey senderPhone groupId :=
         {| Entry.message := Entry.message data; Entry.count := Entry.count data + 1;
            Entry.lastTime := tStamp |}]>
       (cleanRecentMessages tClean recentMessages)).
Proof.
  intros Hr Hk Hlive Heq. past_early_returns Hr message.
  rewrite cleanRecentMessages_lookup, Hk.
  destruct (decide (tClean - _ <= _)); [|contradiction].
  destruct (decide _); [|contradiction]. reflexivity.
Qed.

(** X4. A call for another (sender, room) key leaves the entry of this key
    as the lazy eviction leaves it. *)
Theorem checkSimpleSpam_other_key tClean tStamp message senderPhone groupId recentMessages key :
  key <> cacheKey senderPhone groupId ->
  reachesRepeatCheck message = true ->
  (checkSimpleSpam tClean tStamp message senderPhone groupId recentMessages).2 !! key
  = cleanRecentMessages tClean recentMessages !! key.
Proof.
  intros Hne Hr. past_early_returns Hr message.
  destruct (cleanRecentMessages _ _ !! cacheKey _ _) as [data|]; simpl.
  - destruct (decide _); simpl; apply lookup_insert_ne; congruence.
  - apply lookup_insert_ne; congruence.
Qed.

Lemma repeated_on_third tc1 ts1 tc2 ts2 tc3 ts3 a b c senderPhone groupId recentMessages :
  reachesRepeatCheck a = true -> reachesRepeatCheck b = true ->
  reachesRepeatCheck c = true ->
  trim (toLowerCase b) = trim (toLowerCase a) ->
  trim (toLowerCase c) = trim (toLowerCase a) ->
  (forall data, recentMessages !! cacheKey senderPhone groupId = Some data ->
     tc1 - Entry.lastTime data <= SPAM_CONFIG.repeatWindow ->
     Entry.message data <> trim (toLowerCase a)) ->
  tc2 - ts1 <= SPAM_CONFIG.repeatWindow ->
  tc3 - ts2 <= SPAM_CONFIG.repeatWindow ->
  let r1 := checkSimpleSpam tc1 ts1 a senderPhone groupId recentMessages in
  let r2 := checkSimpleSpam tc2 ts2 b senderPhone groupId r1.2 in
  let r3 := checkSimpleSpam tc3 ts3 c senderPhone groupId r2.2 in
  r1.1 = None /\ r2.1 = None
  /\ r3.1 = Some {| type := repeated_message; reason := SameMessageSent 3;
                    severity := medium; extras := NoExtras |}
  /\ r3.2 !! cacheKey senderPhone groupId
     = Some {| Entry.message := trim (toLowerCase a); Entry.count := 3;
               Entry.lastTime := ts3 |}.
Proof.
  intros Ha Hb Hc Hba Hca Hfresh H12 H23 r1 r2 r3.
  assert (E1 : r1 = (None, <[cacheKey senderPhone groupId := freshEntry a ts1]>
                             (cleanRecentMessages tc1 recentMessages)))
    by (apply checkSimpleSpam_reset; assumption).
  assert (E2 : r2 = (None, <[cacheKey senderPhone groupId :=
                               {| Entry.message := trim (toLowerCase a); Entry.count := 2;
                                  Entry.lastTime := ts2 |}]>
                             (cleanRecentMessages tc2 r1.2))).
  { subst r2. rewrite E1. simpl.
    rewrite (checkSimpleSpam_repeat tc2 ts2 b senderPhone groupId _ (freshEntry a ts1));
      [reflexivity|exact Hb|apply lookup_insert_eq|exact H12|simpl; congruence]. }
  assert (E3 : r3 = (Some {| type := repeated_message; reason := SameMessageSent 3;
                             severity := medium; extras := NoExtras |},
                     <[cacheKey senderPhone groupId :=
                         {| Entry.message := trim (toLowerCase a); Entry.count := 3;
                            Entry.lastTime := ts3 |}]>
                       (cleanRecentMessages tc3 r2.2))).
  { subst r3. rewrite E2. simpl.
    rewrite (checkSimpleSpam_repeat tc3 ts3 c senderPhone groupId _
               {| Entry.message := trim (toLowerCase a); Entry.count := 2;
                  Entry.lastTime := ts2 |});
      [reflexivity|exact Hc|apply lookup_insert_eq|exact H23|simpl; congruence]. }
  rewrite E1, E2, E3. simpl. repeat split; try reflexivity.
  apply lookup_insert_eq.
Qed.

Lemma streak_not_continued td1 td2 ta1 ta2 a d senderPhone groupId recentMessages :
  reachesRepeatCheck a = true -> reachesRepeatCheck d = true ->
  trim (toLowerCase d) <> trim (toLowerCase a) ->
  let rd := checkSimpleSpam td1 td2 d senderPhone groupId recentMessages in
  let ra := checkSimpleSpam ta1 ta2 a senderPhone groupId rd.2 in
  ra.1 = None
  /\ ra.2 !! cacheKey senderPhone groupId = Some (freshEntry a ta2).
Proof.
  intros Ha Hd Hne rd ra.
  assert (Hk : exists data, rd.2 !! cacheKey senderPhone groupId = Some data
                            /\ Entry.message data = trim (toLowerCase d)).
  { subst rd. past_early_returns Hd d.
    destruct (cleanRecentMessages _ _ !! cacheKey _ _) as [data|]; simpl.
    - destruct (decide _) as [Heq|]; simpl; eexists; (split; [apply lookup_insert_eq|]);
        simpl; [exact Heq|reflexivity].
    - eexists; split; [apply lookup_insert_eq|reflexivity]. }
  destruct Hk as (data & Hk & Hmsg).
  subst ra. rewrite checkSimpleSpam_reset; [|exact Ha|].
  - simpl. split; [reflexivity|apply lookup_insert_eq].
  - intros data' Hk' _. rewrite Hk in Hk'. injection Hk' as <-. congruence.
Qed.

Lemma streak_not_continued_after_window td1 td2 ta1 ta2 a d senderPhone groupId recentMessages :
  reachesRepeatCheck a = true ->
  trim (toLowerCase d) <> trim (toLowerCase a) ->
  (forall data, recentMessages !! cacheKey senderPhone groupId = Some data ->
     ta1 - Entry.lastTime data > SPAM_CONFIG.repeatWindow) ->
  let rd := checkSimpleSpam td1 td2 d senderPhone groupId recentMessages in
  let ra := checkSimpleSpam ta1 ta2 a senderPhone groupId rd.2 in
  ra.1 = None
  /\ ra.2 !! cacheKey senderPhone groupId = Some (freshEntry a ta2).
Proof.
  intros Ha Hne Hexpired rd ra.
  destruct (reachesRepeatCheck d) eqn:Hd.
  - exact (streak_not_continued td1 td2 ta1 ta2 a d senderPhone groupId recentMessages
             Ha Hd Hne).
  - subst ra rd. rewrite (checkSimpleSpam_early _ _ _ _ _ _ Hd).
    rewrite checkSimpleSpam_reset; [|exact Ha|].
    + simpl. split; [reflexivity|apply lookup_insert_eq].
    + intros data Hk Hlive. specialize (Hexpired data Hk). lia.
Qed.

(** C5 (as the code has it). For every (sender, room) key and every text
    that reaches the repeat check (at least 5 characters, at most 3 links,
    no caps verdict): (1) starting from a cache with no live entry of that
    text, three messages with the same normalized (lower-cased, trimmed)
    text, each checked within the 60 s window of the previous one, give no
    verdict on the first and second and a repeated_message verdict of
    severity medium on the third; (2) a text that differs from the cached
    one resets the entry to count 1 with no verdict; (3) after a differing
    message intervened, the earlier text starts again at count 1 with no
    verdict if the differing message reached the repeat check or the window
    of the old entry has expired. *)
Theorem repeated_message_streak senderPhone groupId :
  (forall tc1 ts1 tc2 ts2 tc3 ts3 a b c recentMessages,
     reachesRepeatCheck a = true -> reachesRepeatCheck b = true ->
     reachesRepeatCheck c = true ->
     trim (toLowerCase b) = trim (toLowerCase a) ->
     trim (toLowerCase c) = trim (toLowerCase a) ->
     (forall data, recentMessages !! cacheKey senderPhone groupId = Some data ->
        tc1 - Entry.lastTime data <= 60000 ->
        Entry.message data <> trim (toLowerCase a)) ->
     tc2 - ts1 <= 60000 -> tc3 - ts2 <= 60000 ->
     let r1 := checkSimpleSpam tc1 ts1 a senderPhone groupId recentMessages in
     let r2 := checkSimpleSpam tc2 ts2 b senderPhone groupId r1.2 in
     let r3 := checkSimpleSpam tc3 ts3 c senderPhone groupId r2.2 in
     r1.1 = None /\ r2.1 = None
     /\ r3.1 = Some {| type := repeated_message; reason := SameMessageSent 3;
                       severity := medium; extras := NoExtras |})
  /\ (forall tClean tStamp d recentMessages data,
        reachesRepeatCheck d = true ->
        recentMessages !! cacheKey senderPhone groupId = Some data ->
        Entry.message data <> trim (toLowerCase d) ->
        let r := checkSimpleSpam tClean tStamp d senderPhone groupId recentMessages in
        r.1 = None
        /\ r.2 !! cacheKey senderPhone groupId
           = Some {| Entry.message := trim (toLowerCase d); Entry.count := 1;
                     Entry.lastTime := tStamp |})
  /\ (forall td1 td2 ta1 ta2 a d recentMessages,
        reachesRepeatCheck a = true ->
        trim (toLowerCase d) <> trim (toLowerCase a) ->
        reachesRepeatCheck d = true
        \/ (forall data, recentMessages !! cacheKey senderPhone groupId = Some data ->
              ta1 - Entry.lastTime data > 60000) ->
        let rd := checkSimpleSpam td1 td2 d senderPhone groupId recentMessages in
        let ra := checkSimpleSpam ta1 ta2 a senderPhone groupId rd.2 in
        ra.1 = None
        /\ ra.2 !! cacheKey senderPhone groupId
           = Some {| Entry.message := trim (toLowerCase a); Entry.count := 1;
                     Entry.lastTime := ta2 |}).
Proof.
  split; [|split].
  - intros tc1 ts1 tc2 ts2 tc3 ts3 a b c recentMessages Ha Hb Hc Hba Hca Hfresh H12 H23.
    pose proof (repeated_on_third tc1 ts1 tc2 ts2 tc3 ts3 a b c senderPhone groupId
                  recentMessages Ha Hb Hc Hba Hca Hfresh H12 H23) as H.
    cbv zeta in *. tauto.
  - intros tClean tStamp d recentMessages data Hd Hk Hne r. subst r.
    rewrite checkSimpleSpam_reset; [|exact Hd|].
    + simpl. split; [reflexivity|apply lookup_insert_eq].
    + intros data' Hk' _. rewrite Hk in Hk'. injection Hk' as <-. exact Hne.
  - intros td1 td2 ta1 ta2 a d recentMessages Ha Hne [Hd|Hexpired].
    + exact (streak_not_continued td1 td2 ta1 ta2 a d senderPhone groupId
               recentMessages Ha Hd Hne).
    + exact (streak_not_continued_after_window td1 td2 ta1 ta2 a d senderPhone groupId
               recentMessages Ha Hne Hexpired).
Qed.

End SpamDetector.

(** C2, as stated, fails: the caps check is gated on the length of the
    whole message, so a message of 10 characters with only 3 letters, all
    upper case, is flagged although its alphabetic length is below 10. *)
Lemma excessive_caps_short_alphabetic :
  let message := js "ABC 123456" in
  (5 <= length message)%nat /\ (countLinks message <= 3)%nat
  /\ (length (lettersOf message) < 10)%nat
  /\ (@checkSimpleSpam asciiOps 0 0 message (js "31600000001") (js "120363@g.us") ∅).1
     = Some {| type := excessive_caps; reason := PercentUppercase (3 # 3); severity := low;
             extras := NoExtras |}.
Proof. vm_compute. repeat split; try lia; reflexivity. Qed.

Lemma excessive_caps_exactly_witness :
  let message := js "THIS IS ALL CAPS TEXT" in
  exists v,
    (@checkSimpleSpam asciiOps 0 0 message (js "31600000001") (js "120363@g.us") ∅).1 = Some v
    /\ type v = excessive_caps /\ severity v = low.
Proof.
  intros message.
  refine (proj1 (proj2 (proj2 (@excessive_caps_exactly asciiOps 0 0 message
            (js "31600000001") (js "120363@g.us") ∅ _ _))) _ _).
  - vm_compute. lia.
  - vm_compute. lia.
  - vm_compute. lia.
  - vm_compute. reflexivity.
Defined.

Lemma checkSimpleSpam_cache_untouched_witness :
  (@checkSimpleSpam asciiOps 5 7 (js "hey") (js "31600000001") (js "120363@g.us") ∅).2 = ∅.
Proof.
  apply (proj1 (@checkSimpleSpam_cache_untouched asciiOps 5 7 (js "hey")
                  (js "31600000001") (js "120363@g.us") ∅)).
  left. vm_compute. lia.
Defined.

(** C5, as stated, fails for texts that return before the repeat check: a
    text of 4 characters sent three times within a second is never flagged,
    and a short differing message does not reset the entry, so that the
    third "buy now!!" is flagged although "ok" intervened. *)
Lemma short_texts_bypass_repeat_check :
  let sender := js "31600000001" in
  let room := js "120363@g.us" in
  let s1 := @checkSimpleSpam asciiOps 1000 1000 (js "spam") sender room ∅ in
  let s2 := @checkSimpleSpam asciiOps 1100 1100 (js "spam") sender room s1.2 in
  let s3 := @checkSimpleSpam asciiOps 1200 1200 (js "spam") sender room s2.2 in
  let r1 := @checkSimpleSpam asciiOps 1000 1000 (js "buy now!!") sender room ∅ in
  let r2 := @checkSimpleSpam asciiOps 2000 2000 (js "buy now!!") sender room r1.2 in
  let r3 := @checkSimpleSpam asciiOps 3000 3000 (js "ok") sender room r2.2 in
  let r4 := @checkSimpleSpam asciiOps 4000 4000 (js "buy now!!") sender room r3.2 in
  s1.1 = None /\ s2.1 = None /\ s3.1 = None /\ s3.2 = ∅
  /\ r3.1 = None
  /\ r3.2 !! cacheKey sender room
     = Some {| Entry.message := js "buy now!!"; Entry.count := 2; Entry.lastTime := 2000 |}
  /\ r4.1 = Some {| type := repeated_message; reason := SameMessageSent 3;
                    severity := medium; extras := NoExtras |}.
Proof. vm_compute. repeat split; reflexivity. Qed.

Lemma repeated_message_streak_witness :
  let sender := js "31600000001" in
  let room := js "120363@g.us" in
  let r1 := @checkSimpleSpam asciiOps 1000 1001 (js "Buy now!") sender room ∅ in
  let r2 := @checkSimpleSpam asciiOps 20000 20001 (js "buy now! ") sender room r1.2 in
  let r3 := @checkSimpleSpam asciiOps 40000 40001 (js " BUY NOW!") sender room r2.2 in
  r1.1 = None /\ r2.1 = None
  /\ r3.1 = Some {| type := repeated_message; reason := SameMessageSent 3;
                    severity := medium; extras := NoExtras |}.
Proof.
  intros sender room.
  apply (proj1 (@repeated_message_streak asciiOps sender room)).
  - vm_compute. reflexivity.
  - vm_compute. reflexivity.
  - vm_compute. reflexivity.
  - vm_compute. reflexivity.
  - vm_compute. reflexivity.
  - intros data Hdata. rewrite lookup_empty in Hdata. discriminate Hdata.
  - lia.
  - lia.
Defined.

(** ** The text path of the moderation pipeline *)

Section TextPath.
Context {ops : JsStringOps}.

(** Closes the side conditions of [stopsAtFirstVerdict] once the stages
    that were not called are given: the stages called before the last one
    returned null by the case analysis in the context. *)
Ltac stops_here notCalled :=
  exists notCalled; simpl; repeat split; try congruence; try tauto;
  let s := fresh "s" in
  let Hs := fresh "Hs" in
  intros s Hs; simpl in Hs; intuition (subst; congruence).

(** C4 (as the code has it). For every text message, moderateMessage calls
    its stage functions in a fixed order, stops at the first stage that
    returns a verdict and returns that verdict (null when no stage returns
    one, after all of them were called).  In the revision whose keyword
    stage is disabled the order is heuristic-spam, toxic-classify, then
    topic-classify only if the text is longer than 20 characters; in the
    revision of moderation.js that still has the keyword stage,
    keyword-match is called between heuristic-spam and toxic-classify. *)
Theorem text_path_first_verdict
    (openai : OpenAI) (tClean tStamp : Z) (message senderPhone groupId : jsString)
    (recentMessages : gmap (list N) cacheEntry) :
  let verdictOf :=
    stageVerdict openai tClean tStamp message senderPhone groupId recentMessages in
  stopsAtFirstVerdict
    ([HeuristicSpam; ToxicClassify]
     ++ (if (20 <? length message)%nat then [TopicClassify] else []))
    verdictOf
    (moderateMessage openai tClean tStamp message senderPhone groupId recentMessages)
  /\ stopsAtFirstVerdict
       ([HeuristicSpam; KeywordMatch; ToxicClassify]
        ++ (if (20 <? length message)%nat then [TopicClassify] else []))
       verdictOf
       (KeywordRevision.moderateMessage openai tClean tStamp message senderPhone groupId
          recentMessages).
Proof.
  intros verdictOf. subst verdictOf.
  unfold stopsAtFirstVerdict, moderateMessage, KeywordRevision.moderateMessage, stageVerdict.
  destruct (checkSimpleSpam _ _ _ _ _ _).1 as [spamResult|] eqn:Hspam.
  { split.
    - stops_here (ToxicClassify
                  :: (if (20 <? length message)%nat then [TopicClassify] else [])).
    - stops_here (KeywordMatch :: ToxicClassify
                  :: (if (20 <? length message)%nat then [TopicClassify] else [])). }
  split.
  - destruct (checkToxicContent openai message) as [toxicResult|] eqn:Htoxic.
    + stops_here (if (20 <? length message)%nat then [TopicClassify] else []).
    + destruct (20 <? length message)%nat.
      * destruct (checkSensitiveContent openai message) as [sensitiveResult|] eqn:Htopic;
          stops_here (@nil stage).
      * stops_here (@nil stage).
  - destruct (KeywordRevision.checkSensitiveKeywords message) as [keywordResult|] eqn:Hkey.
    + stops_here (ToxicClassify
                  :: (if (20 <? length message)%nat then [TopicClassify] else [])).
    + destruct (checkToxicContent openai message) as [toxicResult|] eqn:Htoxic.
      * stops_here (if (20 <? length message)%nat then [TopicClassify] else []).
      * destruct (20 <? length message)%nat.
        -- destruct (checkSensitiveContent openai message) as [sensitiveResult|] eqn:Htopic;
             stops_here (@nil stage).
        -- stops_here (@nil stage).
Qed.

End TextPath.

Example links_before_any_classification :
  let run := @moderateMessage asciiOps exampleQuietOpenAI 0 0
               (js "check this out http://a http://b http://c http://d")
               (js "31600000001") (js "120363@g.us") ∅ in
  result run = Some {| type := excessive_links; reason := ContainsLinks 4;
                       severity := medium; extras := NoExtras |}
  /\ stages run = [HeuristicSpam].
Proof. vm_compute. split; reflexivity. Qed.

(** C4, as stated, fails on the revision of moderation.js that has the
    keyword stage: the stage called after heuristic-spam is keyword-match,
    and its verdict is returned before toxic-classify is ever called.  The
    revision without the keyword stage goes on to the classifiers. *)
Lemma keyword_stage_before_toxic :
  let message := js "oh my god, what a day this has been" in
  let earlier := @KeywordRevision.moderateMessage asciiOps exampleQuietOpenAI 0 0 message
                   (js "31600000001") (js "120363@g.us") ∅ in
  let current := @moderateMessage asciiOps exampleQuietOpenAI 0 0 message
                   (js "31600000001") (js "120363@g.us") ∅ in
  stages earlier = [HeuristicSpam; KeywordMatch]
  /\ result earlier
     = Some {| type := sensitive_topic; reason := ContainsTopic (js "god");
               severity := high; extras := KeywordExtras [js "god"] |}
  /\ checkToxicContent exampleQuietOpenAI message = None
  /\ stages current = [HeuristicSpam; ToxicClassify; TopicClassify]
  /\ result current = None.
Proof. vm_compute. repeat split; reflexivity. Qed.

(** ** The pending-verification store *)

Lemma find_app_none {A} (f : A -> bool) (l1 l2 : list A) :
  (forall x, In x l1 -> f x = false) ->
  List.find f (l1 ++ l2) = List.find f l2.
Proof.
  induction l1 as [|x l1 IH]; intros Hall; [reflexivity|]. simpl.
  rewrite (Hall x) by (left; reflexivity). apply IH. intros y Hy. apply Hall. right. exact Hy.
Qed.

Lemma find_none_iff {A} (f : A -> bool) (l : list A) :
  List.find f l = None <-> forall x, In x l -> f x = false.
Proof.
  split.
  - apply List.find_none.
  - induction l as [|x l IH]; intros Hall; [reflexivity|]. simpl.
    rewrite (Hall x) by (left; reflexivity). apply IH. intros y Hy. apply Hall. right. exact Hy.
Qed.

Lemma pendingKeyIs_true phone groupId r :
  pendingKeyIs phone groupId r = true
  <-> Pending.phone r = phone /\ Pending.group_id r = groupId.
Proof.
  unfold pendingKeyIs. rewrite andb_true_iff, !bool_decide_eq_true. reflexivity.
Qed.


Lemma insertOrReplacePending_raises now phone groupId answer code timeoutMinutes db :
  timeoutMinutes < 0 ->
  insertOrReplacePending now phone groupId answer code timeoutMinutes db = (Raised, db).
Proof.
  intros Hneg. unfold insertOrReplacePending, expiresAfter.
  destruct (Z.ltb_spec timeoutMinutes 0); [reflexivity|lia].
Qed.

Section Verification.
Context {ops : JsStringOps} {crypto : Crypto}.


(** C9. When every pending record of the sender's (phone, room) has
    expires_at <= now, checkVerificationAnswer returns null and leaves the
    database (pending and verified stores alike) unchanged, whatever the
    submitted text, the stored code included. *)
Theorem expired_answer_is_ignored
    (now tVerified : Z) (senderJid messageText groupId groupName : jsString) (db : database) :
  (forall r, In r (pending_verifications db) ->
     Pending.phone r = jidToPhone senderJid -> Pending.group_id r = groupId ->
     Pending.expires_at r <= now) ->
  checkVerificationAnswer now tVerified senderJid messageText groupId groupName db
  = (None, db).
Proof.
  intros Hexpired. unfold checkVerificationAnswer.
  assert (Hnone : getPendingVerification now (jidToPhone senderJid) groupId db = None).
  { unfold getPendingVerification. apply find_none_iff. intros r Hin.
    destruct (pendingKeyIs (jidToPhone senderJid) groupId r) eqn:Hk; [|reflexivity].
    apply pendingKeyIs_true in Hk as [Hp Hg]. simpl.
    pose proof (Hexpired r Hin Hp Hg).
    destruct (Z.ltb_spec now (Pending.expires_at r)); [lia|reflexivity]. }
  rewrite Hnone. reflexivity.
Qed.

(** *** The expiry sweep *)

Lemma sweep_calls sock (expired : list Pending.row) :
  removalAttempts (List.concat (List.map fst (List.map (processExpired sock) expired)))
  = List.map (fun r => (Pending.group_id r, [participantJidOf (Pending.phone r)])) expired.
Proof.
  induction expired as [|r expired IH]; [reflexivity|].
  simpl. rewrite <- IH. reflexivity.
Qed.

Lemma sweep_kicked sock (expired : list Pending.row) :
  List.concat (List.map snd (List.map (processExpired sock) expired))
  = List.map (fun r => (Pending.phone r, Pending.group_id r))
      (List.filter (fun r => groupParticipantsUpdate sock (Pending.group_id r)
                               [participantJidOf (Pending.phone r)]) expired).
Proof.
  induction expired as [|r expired IH]; [reflexivity|].
  simpl. rewrite IH.
  destruct (groupParticipantsUpdate _ _ _); reflexivity.
Qed.

(** C6. In one run of the sweep (the clock does not go back between the
    query and the cleanup) exactly one removal is attempted for each
    expired record, in the order of the records and whatever the outcome of
    the other removals; the users reported as kicked are those whose
    removal succeeded; afterwards no record that had expired is left in
    storage, whether its removal succeeded or failed. *)
Theorem sweep_attempts_once_and_deletes
    (sock : Socket) (tQuery tCleanup : Z) (db : database) :
  tQuery <= tCleanup ->
  let expired := getExpiredVerifications tQuery db in
  let run := processExpiredVerifications sock tQuery tCleanup db in
  removalAttempts run.1.2
  = List.map (fun r => (Pending.group_id r, [participantJidOf (Pending.phone r)])) expired
  /\ run.1.1
     = List.map (fun r => (Pending.phone r, Pending.group_id r))
         (List.filter (fun r => groupParticipantsUpdate sock (Pending.group_id r)
                                  [participantJidOf (Pending.phone r)]) expired)
  /\ (forall r, In r expired -> ~ In r (pending_verifications run.2))
  /\ getExpiredVerifications tCleanup run.2 = []
  /\ (forall r, In r (pending_verifications db) -> tCleanup < Pending.expires_at r ->
        In r (pending_verifications run.2)).
Proof.
  intros Hclock expired run. subst expired run. unfold processExpiredVerifications. simpl.
  split; [apply sweep_calls|]. split; [apply sweep_kicked|].
  split; [|split].
  - intros r Hin Hin'. apply List.filter_In in Hin as [_ Hexp].
    apply List.filter_In in Hin' as [_ Hkeep].
    apply Z.leb_le in Hexp. apply negb_true_iff, Z.leb_gt in Hkeep. lia.
  - unfold getExpiredVerifications. simpl.
    induction (pending_verifications db) as [|r rows IH]; [reflexivity|]. simpl.
    destruct (Z.leb_spec (Pending.expires_at r) tCleanup) as [Hle|Hgt]; simpl; [exact IH|].
    destruct (Z.leb_spec (Pending.expires_at r) tCleanup); [lia|exact IH].
  - intros r Hin Hlive. apply List.filter_In. split; [exact Hin|].
    apply negb_true_iff, Z.leb_gt. exact Hlive.
Qed.

End Verification.


(** A negative timeout: the INSERT raises, no record is created, and
    startVerification ends with the exception before anything is sent. *)
Example negative_timeout_stores_nothing :
  @addPendingCaptcha asciiOps 0 (js "31600000001") (js "111@g.us") (js "x7Kq2") (-1)
    emptyDatabase
  = (Raised, emptyDatabase)
  /\ @startVerification asciiOps
       {| verificationTimeoutMinutes := -1;
          generateCaptcha := Some (js "x7Kq2", [137; 80; 78; 71]%N) |}
       exampleSocket 0 (js "111@g.us") (js "Test Group") (js "31600000001@s.whatsapp.net")
       emptyDatabase
     = (Raised, emptyDatabase, []).
Proof. vm_compute. split; reflexivity. Qed.

Lemma expired_answer_is_ignored_witness :
  let db := (@addPendingCaptcha asciiOps 0 (js "31600000001") (js "111@g.us") (js "x7Kq2") 5
               emptyDatabase).2 in
  @checkVerificationAnswer asciiOps exampleCrypto 300 300 (js "31600000001@s.whatsapp.net")
    (js "x7kq2") (js "111@g.us") (js "Test Group") db
  = (None, db).
Proof.
  intros db.
  apply (@expired_answer_is_ignored asciiOps exampleCrypto).
  intros r [<-|[]] _ _. vm_compute. discriminate.
Defined.

Example answer_before_expiry :
  let db := (@addPendingCaptcha asciiOps 0 (js "31600000001") (js "111@g.us") (js "x7Kq2") 5
               emptyDatabase).2 in
  let run := @checkVerificationAnswer asciiOps exampleCrypto 299 299
               (js "31600000001@s.whatsapp.net") (js " x7kq2 ") (js "111@g.us")
               (js "Test Group") db in
  run.1 = Some {| vr_success := true; vr_message := success en;
                  vr_phone := js "31600000001" |}
  /\ pending_verifications run.2 = []
  /\ isUserVerified (js "31600000001") (js "111@g.us") run.2 = true.
Proof. vm_compute. repeat split; reflexivity. Qed.

Lemma sweep_attempts_once_and_deletes_witness :
  let db := (@addPendingCaptcha asciiOps 0 (js "31600000001") (js "111@g.us") (js "x7Kq2") 5
               (@addPendingCaptcha asciiOps 200 (js "31600000002") (js "111@g.us") (js "Zp4Lm")
                  5 emptyDatabase).2).2 in
  getExpiredVerifications 301 (@processExpiredVerifications asciiOps exampleFailingSocket 300 301 db).2
  = [].
Proof.
  intros db.
  exact (proj1 (proj2 (proj2 (proj2
           (@sweep_attempts_once_and_deletes asciiOps exampleFailingSocket 300 301 db
              ltac:(lia)))))).
Defined.

(** ** The verified-users store *)

Section VerifiedStore.
Context {ops : JsStringOps} {crypto : Crypto}.

Lemma NoDup_map_filter {A B} (f : A -> B) (p : A -> bool) (l : list A) :
  NoDup (List.map f l) -> NoDup (List.map f (List.filter p l)).
Proof.
  induction l as [|x l IH]; simpl; intros Hnd; [constructor|].
  apply NoDup_cons_1_1 in Hnd as Hx. apply NoDup_cons_1_2 in Hnd as Hl.
  destruct (p x); simpl; [|apply IH, Hl].
  apply NoDup_cons_2; [|apply IH, Hl].
  intros Hin. apply Hx. apply list_elem_of_In in Hin. apply list_elem_of_In.
  apply List.in_map_iff in Hin as (y & Hy & Hin). apply List.filter_In in Hin as [Hin _].
  apply List.in_map_iff. exists y. split; assumption.
Qed.

(** The store never holds two rows with the same phone, hence never two
    rows with the same (phone, room). *)
Lemma markUserVerified_unique now phone groupId db :
  verifiedPhonesUnique db -> verifiedPhonesUnique (markUserVerified now phone groupId db).
Proof.
  unfold verifiedPhonesUnique, markUserVerified. simpl. intros Hnd.
  rewrite List.map_app. simpl. apply NoDup_app. split; [|split].
  - apply NoDup_map_filter, Hnd.
  - intros x Hx Hx'. apply list_elem_of_In in Hx. apply list_elem_of_In in Hx'.
    destruct Hx' as [<-|[]].
    apply List.in_map_iff in Hx as (r & Hr & Hin). apply List.filter_In in Hin as [_ Hne].
    apply negb_true_iff, bool_decide_eq_false in Hne. contradiction.
  - apply NoDup_singleton.
Qed.

(** Marking a phone verified in one room drops its verified record of
    every other room. *)
Lemma markUserVerified_forgets_other_rooms now phone groupId other db :
  other <> groupId ->
  isUserVerified phone other (markUserVerified now phone groupId db) = false.
Proof.
  intros Hne. unfold isUserVerified, markUserVerified. simpl.
  rewrite List.existsb_app. simpl. apply orb_false_iff. split.
  - apply not_true_is_false. intros Hex. apply List.existsb_exists in Hex as (r & Hin & Hr).
    apply List.filter_In in Hin as [_ Hp]. apply andb_true_iff in Hr as [Hr _].
    rewrite Hr in Hp. discriminate.
  - rewrite orb_false_r. apply andb_false_iff. right.
    apply bool_decide_eq_false. congruence.
Qed.

End VerifiedStore.

(** C1. A phone verified in room A and then in room B is no longer
    verified in room A: the second insert replaces the only row the store
    keeps for that phone, and the next join of room A is challenged again. *)
Lemma verified_user_challenged_again :
  let phone := js "31600000001" in
  let jid := js "31600000001@s.whatsapp.net" in
  let roomA := js "111@g.us" in
  let roomB := js "222@g.us" in
  let join now room db :=
    (@startVerification asciiOps exampleEnv exampleSocket now room (js "Test Group") jid db).1.2 in
  let answer now room db :=
    (@checkVerificationAnswer asciiOps exampleCrypto now now jid (js "x7kq2") room
       (js "Test Group") db) in
  let db1 := (answer 10 roomA (join 0 roomA emptyDatabase)).2 in
  let db2 := (answer 30 roomB (join 20 roomB db1)).2 in
  let rejoin := @startVerification asciiOps exampleEnv exampleSocket 40 roomA
                  (js "Test Group") jid db2 in
  isUserVerified phone roomA db1 = true
  /\ isUserVerified phone roomB db2 = true
  /\ isUserVerified phone roomA db2 = false
  /\ List.map Verified.group_id (verified_users db2) = [roomB]
  /\ rejoin.2 = [CallSendMessage roomA
                   (CaptchaImage [137; 80; 78; 71]%N (welcome en 5))]
  /\ List.map Pending.captcha_code (pending_verifications rejoin.1.2) = [Some (js "X7KQ2")].
Proof. vm_compute. repeat split; reflexivity. Qed.

(** ** The moderation ledger *)

Section Ledger.
Context {ops : JsStringOps} {crypto : Crypto}.

Lemma find_log_after_update (i : Z) (f : Log.row -> Log.row) (rows : list Log.row) :
  (forall r, Log.id (f r) = Log.id r) ->
  List.find (fun r => Log.id r =? i)
    (List.map (fun r => if Log.id r =? i then f r else r) rows)
  = option_map f (List.find (fun r => Log.id r =? i) rows).
Proof.
  intros Hid. induction rows as [|r rows IH]; [reflexivity|]. simpl.
  destruct (Log.id r =? i) eqn:Hr.
  - rewrite Hid, Hr. reflexivity.
  - rewrite Hr. exact IH.
Qed.

Lemma updateLogsWhereId_keeps i logId f db :
  (forall r, Log.id (f r) = Log.id r) ->
  (forall r, Log.restored r <> 0 -> Log.restored (f r) <> 0) ->
  restoredForGood i db -> restoredForGood i (updateLogsWhereId logId f db).
Proof.
  intros Hid Hres (Hseq & Hkeys & Hr). unfold updateLogsWhereId.
  destruct logId as [j|]; [|repeat split; assumption].
  repeat split; simpl.
  - exact Hseq.
  - intros r Hin. apply List.in_map_iff in Hin as (r0 & <- & Hin).
    destruct (Log.id r0 =? j); [rewrite Hid|]; apply Hkeys, Hin.
  - intros r Hin Hri. apply List.in_map_iff in Hin as (r0 & <- & Hin).
    destruct (Log.id r0 =? j).
    + rewrite Hid in Hri. apply Hres, (Hr r0 Hin Hri).
    + apply (Hr r0 Hin Hri).
Qed.

Lemma markMessageRestored_keeps i logId db :
  restoredForGood i db -> restoredForGood i (markMessageRestored logId db).
Proof.
  apply updateLogsWhereId_keeps; [reflexivity|]. intros r _. simpl. discriminate.
Qed.

Lemma perform_keeps i op db :
  restoredForGood i db -> restoredForGood i (perform op db).
Proof.
  intros Hinv. destruct op; simpl; try exact Hinv.
  - unfold addPendingVerification, insertOrReplacePending.
    destruct (expiresAfter _ _); exact Hinv.
  - unfold addPendingCaptcha. destruct captchaCode; [exact Hinv|].
    unfold insertOrReplacePending. destruct (expiresAfter _ _); exact Hinv.
  - destruct Hinv as (Hseq & Hkeys & Hr). repeat split; simpl.
    + lia.
    + intros r Hin. apply in_app_or in Hin as [Hin|[<-|[]]]; simpl; [|lia].
      specialize (Hkeys r Hin). lia.
    + intros r Hin Hri. apply in_app_or in Hin as [Hin|[<-|[]]]; [exact (Hr r Hin Hri)|].
      simpl in Hri. lia.
  - apply markMessageRestored_keeps, Hinv.
  - apply updateLogsWhereId_keeps; [reflexivity|intros r Hres; exact Hres|exact Hinv].
  - destruct Hinv as (Hseq & Hkeys & Hr). repeat split; simpl; [exact Hseq| |]; intros r [].
  - unfold restoreMessage.
    destruct (getModerationLogById logId db) as [log|]; [|exact Hinv].
    destruct (negb _); [exact Hinv|].
    destruct sock as [sock|]; [|exact Hinv].
    destruct (sendMessage _ _ _); [|exact Hinv].
    apply markMessageRestored_keeps, Hinv.
Qed.

Lemma restoredForGood_lookup i db :
  restoredForGood i db ->
  getModerationLogById (Some i) db = None
  \/ exists log, getModerationLogById (Some i) db = Some log /\ Log.restored log <> 0.
Proof.
  intros (_ & _ & Hr). simpl.
  destruct (List.find _ _) as [log|] eqn:Hfind; [right|left; reflexivity].
  apply List.find_some in Hfind as [Hin Hid]. apply Z.eqb_eq in Hid.
  exists log. split; [reflexivity|]. exact (Hr log Hin Hid).
Qed.

(** C8 (as the code has it). For a log entry with restored = 0, a first
    restore call on a connected socket that delivers the message succeeds
    and flips restored to 1; every later restore call on the entry,
    whatever the state of the socket, answers "Message already restored"
    without sending anything and without changing the database; and after
    any further sequence of database operations the entry, as long as it
    exists, is still restored. *)
Theorem restore_twice
    (sock : Socket) (groupIdToName : gmap (list N) jsString) (i : Z) (log : Log.row)
    (db : database) :
  getModerationLogById (Some i) db = Some log ->
  Log.restored log = 0 ->
  logKeysIssued db ->
  sendMessage sock (Log.group_id log) (restoredMessageOf log) = true ->
  let first := restoreMessage (Some sock) groupIdToName (Some i) db in
  first.1.1 = RestoreOk
  /\ (exists log', getModerationLogById (Some i) first.1.2 = Some log'
                   /\ Log.restored log' = 1)
  /\ (forall sock' groupIdToName',
        restoreMessage sock' groupIdToName' (Some i) first.1.2
        = (RestoreFailed MessageAlreadyRestored, first.1.2, []))
  /\ (forall operations : list dbOperation,
        let db' := fold_left (fun d op => perform op d) operations first.1.2 in
        getModerationLogById (Some i) db' = None
        \/ exists log', getModerationLogById (Some i) db' = Some log'
                        /\ Log.restored log' <> 0).
Proof.
  intros Hlog Hfresh Hkeys Hsend first.
  assert (Efirst : first.1 = (RestoreOk, markMessageRestored (Some i) db)).
  { subst first. unfold restoreMessage. rewrite Hlog, Hfresh. simpl. rewrite Hsend.
    reflexivity. }
  assert (Hget : getModerationLogById (Some i) (markMessageRestored (Some i) db)
                 = Some (setRestored log)).
  { simpl. rewrite find_log_after_update by reflexivity.
    simpl in Hlog. rewrite Hlog. reflexivity. }
  rewrite Efirst. cbn [fst snd].
  split; [reflexivity|]. split; [|split].
  - exists (setRestored log). split; [exact Hget|reflexivity].
  - intros sock' groupIdToName'. unfold restoreMessage at 1. rewrite Hget. reflexivity.
  - intros operations. cbv zeta. apply restoredForGood_lookup.
    assert (Hinv : restoredForGood i (markMessageRestored (Some i) db)).
    { repeat split; simpl.
      - simpl in Hlog. apply List.find_some in Hlog as [Hin Hid]. apply Z.eqb_eq in Hid.
        specialize (Hkeys log Hin). lia.
      - intros r Hin. apply List.in_map_iff in Hin as (r0 & <- & Hin).
        destruct (Log.id r0 =? i); simpl; apply (Hkeys r0 Hin).
      - intros r Hin Hri. apply List.in_map_iff in Hin as (r0 & <- & Hin).
        destruct (Log.id r0 =? i) eqn:Hr0; [simpl; discriminate|].
        apply Z.eqb_neq in Hr0. contradiction. }
    revert Hinv. generalize (markMessageRestored (Some i) db).
    induction operations as [|op operations IH]; intros d Hinv; [exact Hinv|].
    simpl. apply IH, perform_keeps, Hinv.
Qed.

End Ledger.

Lemma restore_twice_witness :
  let data := {| groupId := js "111@g.us"; userPhone := js "31600000001";
                 userName := Some (js "Ann"); messageBody := js "BUY NOW BUY NOW";
                 violationType := excessive_caps; actionTaken := js "deleted";
                 categoryScores := None; messageKey := None |} in
  let db := (@logModeration exampleCrypto 5 data emptyDatabase).2 in
  let first := restoreMessage (Some exampleSocket) ∅ (Some 1) db in
  first.1.1 = RestoreOk
  /\ restoreMessage None ∅ (Some 1) first.1.2
     = (RestoreFailed MessageAlreadyRestored, first.1.2, []).
Proof.
  intros data db first.
  refine (let H := @restore_twice asciiOps exampleCrypto exampleSocket ∅ 1 _ db _ _ _ _ in
          conj (proj1 H) (proj1 (proj2 (proj2 H)) None ∅)).
  - vm_compute. reflexivity.
  - reflexivity.
  - intros r [<-|[]]. vm_compute. discriminate.
  - reflexivity.
Defined.

(** C8, as stated, fails while the bot is not connected and when the resend
    throws: the first restore call on an unrestored entry then fails, the
    entry stays unrestored, and a second call is answered with the same
    failure, not with "already restored". *)
Lemma restore_fails_without_delivery :
  let data := {| groupId := js "111@g.us"; userPhone := js "31600000001";
                 userName := Some (js "Ann"); messageBody := js "BUY NOW BUY NOW";
                 violationType := excessive_caps; actionTaken := js "deleted";
                 categoryScores := None; messageKey := None |} in
  let db := (@logModeration exampleCrypto 5 data emptyDatabase).2 in
  let offline := restoreMessage None ∅ (Some 1) db in
  let failing := restoreMessage (Some exampleFailingSocket) ∅ (Some 1) db in
  option_map Log.restored (getModerationLogById (Some 1) db) = Some 0
  /\ offline = (RestoreFailed BotNotConnected, db, [])
  /\ (restoreMessage None ∅ (Some 1) offline.1.2).1.1 = RestoreFailed BotNotConnected
  /\ failing.1 = (RestoreFailed CaughtError, db)
  /\ (restoreMessage (Some exampleFailingSocket) ∅ (Some 1) failing.1.2).1.1
     = RestoreFailed CaughtError
  /\ option_map Log.restored (getModerationLogById (Some 1) failing.1.2) = Some 0.
Proof. vm_compute. repeat split; reflexivity. Qed.

(** ** The media frame extractor *)

Section MediaExtractor.

Lemma readAndUnlink_spec (files : list jsString) (acc : list Buffer) (fs : FileSystem) :
  exists frames, readAndUnlink files acc fs
                 = (Returned frames, fold_left (fun m f => delete f m) files fs).
Proof.
  revert acc fs. induction files as [|f files IH]; intros acc fs; simpl.
  - exists acc. reflexivity.
  - destruct (fs !! f) as [b|] eqn:Hf.
    + apply IH.
    + rewrite (delete_id fs f Hf). apply IH.
Qed.

Lemma unlinked_none (files : list jsString) (fs : FileSystem) (k : jsString) :
  fs !! k = None -> fold_left (fun m f => delete f m) files fs !! k = None.
Proof.
  revert fs. induction files as [|f files IH]; intros fs Hk; simpl; [exact Hk|].
  apply IH. apply lookup_delete_None. right. exact Hk.
Qed.

Lemma unlinked_member (files : list jsString) (fs : FileSystem) (k : jsString) :
  In k files -> fold_left (fun m f => delete f m) files fs !! k = None.
Proof.
  revert fs. induction files as [|f files IH]; intros fs; simpl; [tauto|].
  intros [->|Hin]; [apply unlinked_none, lookup_delete_eq|apply IH, Hin].
Qed.

Lemma written_lookup (pattern : Z -> jsString) (written : list (Z * Buffer)) (fs : FileSystem)
    (k : jsString) :
  is_Some (fold_left (fun acc kf => <[pattern kf.1 := kf.2]> acc) written fs !! k) ->
  is_Some (fs !! k) \/ In k (List.map (fun kf => pattern kf.1) written).
Proof.
  revert fs. induction written as [|[j b] written IH]; intros fs; simpl; [tauto|].
  intros Hk. apply IH in Hk as [Hk|Hk]; [|tauto].
  destruct (decide (pattern j = k)) as [->|Hne]; [tauto|].
  rewrite lookup_insert_ne in Hk by exact Hne. tauto.
Qed.

(** The frame-reading block of the video extractor returns, and when it
    ran leaves no [frame_*.jpg] behind. *)
Lemma readVideoFrames_spec (numFrames : nat) (fs : FileSystem) :
  exists frames fs',
    readVideoFrames numFrames fs = (Returned frames, fs')
    /\ (forall k, fs !! k = None -> fs' !! k = None)
    /\ ((1 <= numFrames)%nat -> forall f, isFrameFile f = true -> fs' !! f = None).
Proof.
  unfold readVideoFrames. destruct (Nat.leb_spec 1 numFrames) as [Hn|Hn].
  - unfold bind, readdirSync.
    destruct (readAndUnlink_spec (List.filter isFrameFile (List.map fst (map_to_list fs)))
                [] fs) as (frames & ->).
    eexists _, _. split; [reflexivity|]. split.
    + intros k. apply unlinked_none.
    + intros _ f Hf. destruct (fs !! f) as [b|] eqn:Hb; [|apply unlinked_none, Hb].
      apply unlinked_member. apply List.filter_In. split; [|exact Hf].
      apply List.in_map_iff. exists (f, b). split; [reflexivity|].
      apply list_elem_of_In, elem_of_map_to_list, Hb.
  - exists [], fs. split; [reflexivity|]. split; [tauto|lia].
Qed.

Lemma extractVideoFrames_exits (env : MediaEnv) (t1 t2 : Z) (buffer : Buffer)
    (numFrames : nat) (fs : FileSystem) :
  let run := extractVideoFrames env t1 t2 buffer numFrames fs in
  (run.1 = Raised
   <-> writeFileSucceeds env = false \/ ffprobeDuration env = None
       \/ (ended (selectRun env) = false /\ ended (fallbackRun env) = false))
  /\ run.2 !! tempVideoPath t1 = None
  /\ (forall frames, run.1 = Returned frames -> (1 <= numFrames)%nat ->
      forall f, isFrameFile f = true -> run.2 !! f = None).
Proof.
  intros run. subst run.
  destruct env as [w p [w1 e1] [w2 e2] g].
  unfold extractVideoFrames, tryCatch, bind, writeFileSync, ffprobe, runFfmpeg,
    unlinkIfExists, ret, throw. cbn [writeFileSucceeds ffprobeDuration selectRun fallbackRun
      framesWritten ended].
  destruct w.
  2:{ split; [split; [tauto|reflexivity]|]. split; [apply lookup_delete_eq|discriminate]. }
  destruct p as [duration|].
  2:{ split; [split; [tauto|reflexivity]|]. split; [apply lookup_delete_eq|discriminate]. }
  destruct e1.
  - match goal with |- context [readVideoFrames ?n ?x] =>
      destruct (readVideoFrames_spec n x) as (frames & fs' & -> & Hkeep & Hclean) end.
    split; [split; [discriminate|intros [|[|[? ?]]]; discriminate]|].
    split; [apply lookup_delete_eq|]. intros frames' _ Hn f Hf.
    apply lookup_delete_None. right. exact (Hclean Hn f Hf).
  - destruct e2.
    + match goal with |- context [readVideoFrames ?n ?x] =>
        destruct (readVideoFrames_spec n x) as (frames & fs' & -> & Hkeep & Hclean) end.
      split; [split; [discriminate|intros [|[|[? ?]]]; discriminate]|].
      split; [apply lookup_delete_eq|]. intros frames' _ Hn f Hf.
      apply lookup_delete_None. right. exact (Hclean Hn f Hf).
    + split; [split; [tauto|reflexivity]|]. split; [apply lookup_delete_eq|discriminate].
Qed.

Lemma readGifFrames_spec (numFrames : nat) (fs : FileSystem) :
  exists frames fs',
    readGifFrames numFrames fs = (Returned frames, fs')
    /\ (forall k, fs !! k = None -> fs' !! k = None)
    /\ ((length (List.filter isGifFrameFile (List.map fst (map_to_list fs))) <= numFrames)%nat ->
        forall f, isGifFrameFile f = true -> fs' !! f = None).
Proof.
  unfold readGifFrames, bind, readdirSync. cbv zeta.
  set (listed := List.filter isGifFrameFile (List.map fst (map_to_list fs))).
  set (files := merge_sort _ listed).
  assert (Hperm : files ≡ₚ listed) by apply merge_sort_Permutation.
  destruct (readAndUnlink_spec (List.firstn numFrames files) [] fs) as (frames & ->).
  eexists _, _. split; [reflexivity|]. split.
  - intros k. apply unlinked_none.
  - intros Hlen f Hf. destruct (fs !! f) as [b|] eqn:Hb; [|apply unlinked_none, Hb].
    apply unlinked_member.
    rewrite List.firstn_all2 by (rewrite (Permutation_length Hperm); exact Hlen).
    apply (Permutation_in _ (Permutation_sym Hperm)).
    apply List.filter_In. split; [|exact Hf].
    apply List.in_map_iff. exists (f, b). split; [reflexivity|].
    apply list_elem_of_In, elem_of_map_to_list, Hb.
Qed.

Lemma gif_frames_bound (t1 t2 : Z) (buffer : Buffer) (written : list (Z * Buffer))
    (fs : FileSystem) :
  (forall f, isGifFrameFile f = true -> fs !! f = None) ->
  (length (List.filter isGifFrameFile
             (List.map fst
                (map_to_list
                   (fold_left (fun acc kf => <[gifFramePattern t2 kf.1 := kf.2]> acc) written
                      (<[tempGifPath t1 := buffer]> fs)))))
   <= length written)%nat.
Proof.
  intros Hclean.
  rewrite <- (List.length_map (fun kf => gifFramePattern t2 kf.1) written).
  apply NoDup_incl_length.
  - apply List.NoDup_filter, NoDup_ListNoDup. exact (NoDup_fst_map_to_list _).
  - intros k Hk. apply List.filter_In in Hk as [Hk Hgif].
    apply List.in_map_iff in Hk as ([k' b] & <- & Hk). simpl in Hgif |- *.
    apply list_elem_of_In, elem_of_map_to_list in Hk.
    destruct (written_lookup (gifFramePattern t2) written _ k' (mk_is_Some _ _ Hk))
      as [Hold|Hnew]; [|exact Hnew].
    exfalso. destruct (decide (tempGifPath t1 = k')) as [<-|Hne].
    + discriminate Hgif.
    + rewrite lookup_insert_ne in Hold by exact Hne.
      rewrite (Hclean k' Hgif) in Hold. destruct Hold as [? Hold]. discriminate.
Qed.

Lemma extractGifFrames_exits (env : MediaEnv) (t1 t2 : Z) (buffer : Buffer)
    (numFrames : nat) (fs : FileSystem) :
  let run := extractGifFrames env t1 t2 buffer numFrames fs in
  (run.1 = Raised <-> writeFileSucceeds env = false \/ ended (gifRun env) = false)
  /\ run.2 !! tempGifPath t1 = None
  /\ (forall frames, run.1 = Returned frames ->
      (forall f, isGifFrameFile f = true -> fs !! f = None) ->
      (length (framesWritten (gifRun env)) <= numFrames)%nat ->
      forall f, isGifFrameFile f = true -> run.2 !! f = None).
Proof.
  intros run. subst run.
  destruct env as [w p s1 s2 [wg eg]].
  unfold extractGifFrames, tryCatch, bind, writeFileSync, runFfmpeg,
    unlinkIfExists, ret, throw. cbn [writeFileSucceeds gifRun framesWritten ended].
  destruct w.
  2:{ split; [split; [tauto|reflexivity]|]. split; [apply lookup_delete_eq|discriminate]. }
  destruct eg.
  - match goal with |- context [readGifFrames ?n ?x] =>
      destruct (readGifFrames_spec n x) as (frames & fs' & -> & Hkeep & Hclean) end.
    split; [split; [discriminate|intros [|]; discriminate]|].
    split; [apply lookup_delete_eq|]. intros frames' _ Hfs Hlen f Hf.
    apply lookup_delete_None. right. apply Hclean; [|exact Hf].
    etransitivity; [apply gif_frames_bound, Hfs|exact Hlen].
  - split; [split; [tauto|reflexivity]|]. split; [apply lookup_delete_eq|discriminate].
Qed.

Lemma analyzeVideo_skips (openai : OpenAI) (env : MediaEnv) (t1 t2 : Z) (buffer : Buffer)
    (fs : FileSystem) :
  let run := extractVideoFrames env t1 t2 buffer 4 fs in
  run.1 = Raised \/ run.1 = Returned [] ->
  analyzeVideo openai env t1 t2 (Some buffer) fs = (None, run.2)
  \/ analyzeVideo openai env t1 t2 (Some buffer) fs = (None, fs).
Proof.
  intros run Hrun. subst run. unfold analyzeVideo.
  destruct (openaiApiKey openai); simpl; [left|right; reflexivity].
  destruct (extractVideoFrames env t1 t2 buffer 4 fs) as [[frames|] fs']; simpl in *.
  - destruct Hrun as [Hrun|Hrun]; [discriminate|]. injection Hrun as ->. reflexivity.
  - reflexivity.
Qed.

Lemma analyzeGif_skips (openai : OpenAI) (env : MediaEnv) (t1 t2 : Z) (buffer : Buffer)
    (fs : FileSystem) :
  let run := extractGifFrames env t1 t2 buffer 4 fs in
  run.1 = Raised \/ run.1 = Returned [] ->
  analyzeGif openai env t1 t2 (Some buffer) fs = (None, run.2)
  \/ analyzeGif openai env t1 t2 (Some buffer) fs = (None, fs).
Proof.
  intros run Hrun. subst run. unfold analyzeGif.
  destruct (openaiApiKey openai); simpl; [left|right; reflexivity].
  destruct (extractGifFrames env t1 t2 buffer 4 fs) as [[frames|] fs']; simpl in *.
  - destruct Hrun as [Hrun|Hrun]; [discriminate|]. injection Hrun as ->. reflexivity.
  - reflexivity.
Qed.

(** C3 (as the code has it). For every input buffer: the extractors raise
    (they do not return an empty list) exactly when the temporary file
    cannot be written, the probe fails, or ffmpeg fails (for video: both the
    timestamp run and the fixed-interval fallback); on every exit path,
    return or raise, the temporary input file is gone; on return the video
    extractor has removed every frame file of the directory, and the GIF
    extractor has removed every frame file when the directory held none
    before and ffmpeg wrote at most numFrames; analyzeVideo and analyzeGif
    catch the exception and answer null, as they do for an empty list. *)
Theorem extractor_exit_paths
    (openai : OpenAI) (env : MediaEnv) (t1 t2 : Z) (buffer : Buffer) (numFrames : nat)
    (fs : FileSystem) :
  let video := extractVideoFrames env t1 t2 buffer numFrames fs in
  let gif := extractGifFrames env t1 t2 buffer numFrames fs in
  (video.1 = Raised
   <-> writeFileSucceeds env = false \/ ffprobeDuration env = None
       \/ (ended (selectRun env) = false /\ ended (fallbackRun env) = false))
  /\ (gif.1 = Raised <-> writeFileSucceeds env = false \/ ended (gifRun env) = false)
  /\ video.2 !! tempVideoPath t1 = None
  /\ gif.2 !! tempGifPath t1 = None
  /\ (forall frames, video.1 = Returned frames -> (1 <= numFrames)%nat ->
      forall f, isFrameFile f = true -> video.2 !! f = None)
  /\ (forall frames, gif.1 = Returned frames ->
      (forall f, isGifFrameFile f = true -> fs !! f = None) ->
      (length (framesWritten (gifRun env)) <= numFrames)%nat ->
      forall f, isGifFrameFile f = true -> gif.2 !! f = None)
  /\ (let run := extractVideoFrames env t1 t2 buffer 4 fs in
      run.1 = Raised \/ run.1 = Returned [] ->
      (analyzeVideo openai env t1 t2 (Some buffer) fs).1 = None)
  /\ (let run := extractGifFrames env t1 t2 buffer 4 fs in
      run.1 = Raised \/ run.1 = Returned [] ->
      (analyzeGif openai env t1 t2 (Some buffer) fs).1 = None).
Proof.
  intros video gif.
  destruct (extractVideoFrames_exits env t1 t2 buffer numFrames fs) as (Hv1 & Hv2 & Hv3).
  destruct (extractGifFrames_exits env t1 t2 buffer numFrames fs) as (Hg1 & Hg2 & Hg3).
  repeat (split; [assumption|]). split.
  - intros run Hrun.
    destruct (analyzeVideo_skips openai env t1 t2 buffer fs Hrun) as [-> | ->]; reflexivity.
  - intros run Hrun.
    destruct (analyzeGif_skips openai env t1 t2 buffer fs Hrun) as [-> | ->]; reflexivity.
Qed.

End MediaExtractor.

(** C3, as stated, fails: when the probe fails the video extractor raises
    instead of returning an empty list; when both ffmpeg runs fail after
    the first wrote a frame, it raises and the frame file stays in the
    temporary directory; the GIF extractor raises when ffmpeg fails. *)
Lemma extractor_raises_and_leaves_frame :
  let probeFails := {| writeFileSucceeds := true; ffprobeDuration := None;
                       selectRun := {| framesWritten := []; ended := true |};
                       fallbackRun := {| framesWritten := []; ended := true |};
                       gifRun := {| framesWritten := []; ended := true |} |} in
  let ffmpegFails := {| writeFileSucceeds := true; ffprobeDuration := Some (2 # 1);
                        selectRun := {| framesWritten := [(1, [255; 216]%N)]; ended := false |};
                        fallbackRun := {| framesWritten := []; ended := false |};
                        gifRun := {| framesWritten := []; ended := false |} |} in
  extractVideoFrames probeFails 1700000000000 1700000000000 [0; 0; 0; 24]%N 4 ∅
  = (Raised, ∅)
  /\ (extractVideoFrames ffmpegFails 1700000000000 1700000000000 [0; 0; 0; 24]%N 4 ∅).1
     = Raised
  /\ (extractVideoFrames ffmpegFails 1700000000000 1700000000000 [0; 0; 0; 24]%N 4 ∅).2
       !! js "frame_1700000000000_1.jpg" = Some [255; 216]%N
  /\ isFrameFile (js "frame_1700000000000_1.jpg") = true
  /\ (extractGifFrames ffmpegFails 1700000000000 1700000000000 [71; 73; 70]%N 4 ∅).1
     = Raised.
Proof. vm_compute. repeat split; reflexivity. Qed.

(** A successful extraction: two frames are returned and neither they nor
    the temporary video are left in the directory. *)
Lemma extractor_exit_paths_witness :
  let env := {| writeFileSucceeds := true; ffprobeDuration := Some (2 # 1);
                selectRun := {| framesWritten := [(1, [255; 216]%N); (2, [255; 217]%N)];
                                ended := true |};
                fallbackRun := {| framesWritten := []; ended := true |};
                gifRun := {| framesWritten := []; ended := true |} |} in
  let run := extractVideoFrames env 1700000000000 1700000000001 [0; 0; 0; 24]%N 4 ∅ in
  run.2 !! js "frame_1700000000001_1.jpg" = None
  /\ run.2 !! tempVideoPath 1700000000000 = None.
Proof.
  intros env run.
  pose proof (extractor_exit_paths exampleQuietOpenAI env 1700000000000 1700000000001
                [0; 0; 0; 24]%N 4 ∅) as (_ & _ & Hinput & _ & Hframes & _).
  split; [|exact Hinput].
  eapply Hframes.
  - vm_compute. reflexivity.
  - lia.
  - vm_compute. reflexivity.
Defined.

(** ** Further properties *)

Lemma scanLinks_length (inMatch : bool) (s : jsString) :
  (2 * scanLinks inMatch s
   + (if inMatch then match s with [] => 0 | _ :: _ => 1 end else 0)
   <= length s)%nat.
Proof.
  revert inMatch. induction s as [|c s IH]; intros inMatch; [destruct inMatch; simpl; lia|].
  destruct inMatch.
  - cbn [scanLinks]. destruct (isSpace c).
    + specialize (IH false). simpl in *. lia.
    + specialize (IH true). destruct s; simpl in *; lia.
  - cbn [scanLinks]. destruct (startsLink (c :: s)) eqn:Hlink.
    + specialize (IH true). destruct s as [|c' s]; [discriminate Hlink|]. simpl in *. lia.
    + specialize (IH false). simpl in *. lia.
Qed.

Section Further.
Context {ops : JsStringOps} {crypto : Crypto}.

(** X1. More than 3 links: the verdict is excessive_links with the link
    count, severity medium, and nothing else of the detector runs (the
    repeat cache is untouched). *)
Theorem excessive_links_first
    (tClean tStamp : Z) (message senderPhone groupId : jsString)
    (recentMessages : gmap (list N) cacheEntry) :
  (3 < countLinks message)%nat ->
  checkSimpleSpam tClean tStamp message senderPhone groupId recentMessages
  = (Some {| type := excessive_links; reason := ContainsLinks (countLinks message);
             severity := medium; extras := NoExtras |}, recentMessages).
Proof.
  intros Hlinks. unfold checkSimpleSpam.
  pose proof (scanLinks_length false message) as Hlen. fold (countLinks message) in Hlen.
  simpl in Hlen.
  destruct (Nat.ltb_spec (length message) 5); [lia|].
  destruct (Nat.ltb_spec SPAM_CONFIG.maxLinks (countLinks message)); [reflexivity|].
  unfold SPAM_CONFIG.maxLinks in *. lia.
Qed.

Lemma insertOrReplacePending_unique now phone groupId answer code timeoutMinutes db :
  pendingKeysUnique db ->
  pendingKeysUnique
    (insertOrReplacePending now phone groupId answer code timeoutMinutes db).2.
Proof.
  unfold pendingKeysUnique, insertOrReplacePending. intros Hnd.
  destruct (expiresAfter now timeoutMinutes) as [expiresAt|]; [|exact Hnd]. simpl.
  rewrite List.map_app. simpl. apply NoDup_app. split; [|split].
  - apply NoDup_map_filter, Hnd.
  - intros x Hx Hx'. apply list_elem_of_In in Hx. apply list_elem_of_In in Hx'.
    destruct Hx' as [<-|[]].
    apply List.in_map_iff in Hx as (r & Hr & Hin). apply List.filter_In in Hin as [_ Hne].
    apply negb_true_iff in Hne. injection Hr as Hp Hg.
    rewrite (proj2 (pendingKeyIs_true phone groupId r) (conj Hp Hg)) in Hne. discriminate.
  - apply NoDup_singleton.
Qed.

Lemma insertOrReplacePending_verified now phone groupId answer code timeoutMinutes db :
  verified_users (insertOrReplacePending now phone groupId answer code timeoutMinutes db).2
  = verified_users db.
Proof.
  unfold insertOrReplacePending. destruct (expiresAfter now timeoutMinutes); reflexivity.
Qed.

Lemma perform_keeps_keys_unique op db :
  verifiedPhonesUnique db /\ pendingKeysUnique db ->
  verifiedPhonesUnique (perform op db) /\ pendingKeysUnique (perform op db).
Proof.
  intros [Hv Hp]. destruct op; simpl; try (split; assumption).
  - split; [|apply insertOrReplacePending_unique, Hp].
    unfold verifiedPhonesUnique, addPendingVerification.
    rewrite insertOrReplacePending_verified. exact Hv.
  - unfold addPendingCaptcha. destruct captchaCode; [split; assumption|].
    split; [|apply insertOrReplacePending_unique, Hp].
    unfold verifiedPhonesUnique. rewrite insertOrReplacePending_verified. exact Hv.
  - split; [exact Hv|]. unfold pendingKeysUnique. simpl. apply NoDup_map_filter, Hp.
  - split; [apply markUserVerified_unique, Hv|exact Hp].
  - split; [exact Hv|]. unfold pendingKeysUnique. simpl. apply NoDup_map_filter, Hp.
  - unfold updateLogsWhereId. destruct logId; split; assumption.
  - unfold updateLogsWhereId. destruct logId; split; assumption.
  - unfold restoreMessage.
    destruct (getModerationLogById logId db) as [log|]; [|split; assumption].
    destruct (negb _); [split; assumption|].
    destruct sock as [sock|]; [|split; assumption].
    destruct (sendMessage _ _ _); [|split; assumption].
    unfold markMessageRestored, updateLogsWhereId. destruct logId; split; assumption.
Qed.

(** X2. Whatever operations ran since the tables were created,
    verified_users holds at most one row per phone (hence per (phone,
    room)) and pending_verifications at most one row per (phone, room). *)
Theorem store_keys_unique (operations : list dbOperation) :
  let db := fold_left (fun d op => perform op d) operations emptyDatabase in
  NoDup (List.map Verified.phone (verified_users db))
  /\ NoDup (List.map (fun r => (Pending.phone r, Pending.group_id r))
              (pending_verifications db)).
Proof.
  cbv zeta.
  assert (Hgen : forall d, verifiedPhonesUnique d /\ pendingKeysUnique d ->
                   verifiedPhonesUnique (fold_left (fun d op => perform op d) operations d)
                   /\ pendingKeysUnique (fold_left (fun d op => perform op d) operations d)).
  { induction operations as [|op operations IH]; intros d Hd; [exact Hd|].
    simpl. apply IH, perform_keeps_keys_unique, Hd. }
  apply Hgen. split; constructor.
Qed.

(** X3. While a captcha is pending and not expired, a text that is not the
    code leaves the database as it is: it is answered "wrong code" when it
    has the shape of a code (3 to 7 letters or digits) and ignored
    otherwise. *)
Theorem wrong_answer_keeps_pending
    (now tVerified : Z) (senderJid messageText groupId groupName : jsString)
    (db : database) (pending : Pending.row) (c : N) (code : jsString) :
  getPendingVerification now (jidToPhone senderJid) groupId db = Some pending ->
  Pending.captcha_code pending = Some (c :: code) ->
  toUpperCase (trim messageText) <> toUpperCase (c :: code) ->
  checkVerificationAnswer now tVerified senderJid messageText groupId groupName db
  = (if looksLikeCaptcha (trim messageText)
     then Some {| vr_success := false; vr_message := wrong (getMessages groupName);
                  vr_phone := jidToPhone senderJid |}
     else None, db).
Proof.
  intros Hpending Hcode Hne. unfold checkVerificationAnswer.
  rewrite Hpending, Hcode.
  destruct (decide _) as [Heq|_]; [contradiction|].
  destruct (looksLikeCaptcha _); reflexivity.
Qed.

End Further.

Lemma excessive_links_first_witness :
  (@checkSimpleSpam asciiOps 0 0 (js "http://a http://b http://c http://d")
     (js "31600000001") (js "120363@g.us") ∅).1
  = Some {| type := excessive_links; reason := ContainsLinks 4; severity := medium;
            extras := NoExtras |}.
Proof.
  rewrite (@excessive_links_first asciiOps 0 0 (js "http://a http://b http://c http://d")
             (js "31600000001") (js "120363@g.us") ∅).
  - reflexivity.
  - vm_compute. lia.
Defined.

Lemma wrong_answer_keeps_pending_witness :
  let db := (@addPendingCaptcha asciiOps 0 (js "31600000001") (js "111@g.us") (js "x7Kq2") 5
               emptyDatabase).2 in
  @checkVerificationAnswer asciiOps exampleCrypto 100 100 (js "31600000001@s.whatsapp.net")
    (js "abc12") (js "111@g.us") (js "Nederland Groep") db
  = (Some {| vr_success := false; vr_message := wrong nl; vr_phone := js "31600000001" |}, db).
Proof.
  intros db.
  refine (@wrong_answer_keeps_pending asciiOps exampleCrypto 100 100
            (js "31600000001@s.whatsapp.net") (js "abc12") (js "111@g.us")
            (js "Nederland Groep") db _ 88%N (js "7KQ2") _ _ _).
  - vm_compute. reflexivity.
  - reflexivity.
  - vm_compute. discriminate.
Defined.

Lemma checkSimpleSpam_other_key_witness :
  let first := @checkSimpleSpam asciiOps 1000 1001 (js "hello there") (js "31600000001")
                 (js "111@g.us") ∅ in
  (@checkSimpleSpam asciiOps 2000 2001 (js "good morning") (js "31600000002")
     (js "111@g.us") first.2).2 !! cacheKey (js "31600000001") (js "111@g.us")
  = cleanRecentMessages 2000 first.2 !! cacheKey (js "31600000001") (js "111@g.us").
Proof.
  intros first.
  apply (@checkSimpleSpam_other_key asciiOps).
  - vm_compute. discriminate.
  - vm_compute. reflexivity.
Defined.

(** ** Strings: containment and removal *)

Lemma startsWith_refl (s : jsString) : startsWith s s = true.
Proof.
  induction s as [|c s IH]; [reflexivity|]. simpl. rewrite N.eqb_refl. exact IH.
Qed.

Lemma includes_refl (s : jsString) : includes s s = true.
Proof.
  destruct s as [|c s]; [reflexivity|].
  cbn [includes]. rewrite startsWith_refl. reflexivity.
Qed.

Lemma startsWith_absent (c : N) (p s : jsString) :
  ~ In c s -> startsWith (c :: p) s = false.
Proof.
  destruct s as [|x s]; [reflexivity|]. intros Hnot. simpl.
  destruct (N.eqb_spec c x) as [->|]; [|reflexivity].
  exfalso. apply Hnot. left. reflexivity.
Qed.

Lemma includes_absent (c : N) (p s : jsString) :
  ~ In c s -> includes (c :: p) s = false.
Proof.
  induction s as [|x s IH]; intros Hnot; [reflexivity|].
  cbn [includes]. rewrite (startsWith_absent c p (x :: s) Hnot). simpl.
  apply IH. intros Hin. apply Hnot. right. exact Hin.
Qed.

Lemma removeFirst_absent (c : N) (p s : jsString) :
  ~ In c s -> removeFirst (c :: p) s = s.
Proof.
  induction s as [|x s IH]; intros Hnot; [reflexivity|].
  cbn [removeFirst]. rewrite (startsWith_absent c p (x :: s) Hnot).
  rewrite IH; [reflexivity|]. intros Hin. apply Hnot. right. exact Hin.
Qed.

Lemma removeFirst_suffix (c : N) (p s : jsString) :
  ~ In c s -> removeFirst (c :: p) (s ++ c :: p) = s.
Proof.
  induction s as [|x s IH]; intros Hnot.
  - cbn [app removeFirst]. rewrite startsWith_refl. apply List.skipn_all.
  - cbn [app removeFirst].
    assert (Hx : (c =? x)%N = false).
    { apply N.eqb_neq. intros ->. apply Hnot. left. reflexivity. }
    cbn [startsWith]. rewrite Hx. simpl.
    rewrite IH; [reflexivity|]. intros Hin. apply Hnot. right. exact Hin.
Qed.

Lemma beforeColon_app (s rest : jsString) :
  ~ In 58%N s -> beforeColon (s ++ 58%N :: rest) = s.
Proof.
  induction s as [|x s IH]; intros Hnot; [reflexivity|].
  cbn [app beforeColon].
  destruct (N.eqb_spec x 58) as [->|]; [exfalso; apply Hnot; left; reflexivity|].
  rewrite IH; [reflexivity|]. intros Hin. apply Hnot. right. exact Hin.
Qed.

Lemma beforeColon_absent (s : jsString) : ~ In 58%N s -> beforeColon s = s.
Proof.
  induction s as [|x s IH]; intros Hnot; [reflexivity|].
  cbn [beforeColon].
  destruct (N.eqb_spec x 58) as [->|]; [exfalso; apply Hnot; left; reflexivity|].
  rewrite IH; [reflexivity|]. intros Hin. apply Hnot. right. exact Hin.
Qed.

Lemma jidToPhone_unfold (jid : jsString) :
  jidToPhone jid
  = beforeColon (removeFirst (js "@g.us") (removeFirst (js "@s.whatsapp.net") jid)).
Proof. destruct jid; reflexivity. Qed.

(** ** Identifiers: JIDs, phones and masks *)

(** X5. For a stored phone without '@' and ':', the participant JID that
    the sweep and the ban command build maps back to the phone under
    jidToPhone; so does the JID of a linked device, phone:device@s.whatsapp.net. *)
Theorem jidToPhone_of_participant (phone device : jsString) :
  ~ In 64%N phone -> ~ In 58%N phone -> ~ In 64%N device ->
  jidToPhone (participantJidOf phone) = phone
  /\ jidToPhone (phone ++ 58%N :: device ++ js "@s.whatsapp.net") = phone.
Proof.
  intros Hat Hcolon Hdev. split.
  - unfold participantJidOf. rewrite (includes_absent 64 [] phone Hat).
    rewrite jidToPhone_unfold.
    change (js "@s.whatsapp.net") with (64%N :: js "s.whatsapp.net").
    rewrite (removeFirst_suffix 64 _ phone Hat).
    change (js "@g.us") with (64%N :: js "g.us").
    rewrite (removeFirst_absent 64 _ phone Hat).
    apply beforeColon_absent, Hcolon.
  - rewrite jidToPhone_unfold.
    assert (Hall : ~ In 64%N (phone ++ 58%N :: device)).
    { intros Hin. apply in_app_or in Hin as [Hin|[Hin|Hin]];
        [exact (Hat Hin)|discriminate Hin|exact (Hdev Hin)]. }
    replace (phone ++ 58%N :: device ++ js "@s.whatsapp.net")
      with ((phone ++ 58%N :: device) ++ js "@s.whatsapp.net")
      by (rewrite <- List.app_assoc; reflexivity).
    change (js "@s.whatsapp.net") with (64%N :: js "s.whatsapp.net").
    rewrite (removeFirst_suffix 64 _ _ Hall).
    change (js "@g.us") with (64%N :: js "g.us").
    rewrite (removeFirst_absent 64 _ _ Hall).
    apply beforeColon_app, Hcolon.
Qed.

Lemma jidToPhone_of_participant_witness :
  jidToPhone (participantJidOf (js "31600000001")) = js "31600000001"
  /\ jidToPhone (js "31600000001:12@s.whatsapp.net") = js "31600000001".
Proof.
  refine (jidToPhone_of_participant (js "31600000001") (js "12") _ _ _);
    vm_compute; intros H; repeat (destruct H as [H|H]; [discriminate H|]); exact H.
Defined.

Lemma mask_of_parts (pre mid suf : jsString) :
  length pre = 4%nat -> length suf = 2%nat -> mid <> [] ->
  (6 <? length (pre ++ mid ++ suf))%nat = true
  /\ List.firstn 4 (pre ++ mid ++ suf) = pre
  /\ List.skipn (length (pre ++ mid ++ suf) - 2) (pre ++ mid ++ suf) = suf.
Proof.
  intros Hpre Hsuf Hmid.
  assert (Hm : (1 <= length mid)%nat) by (destruct mid; [contradiction|simpl; lia]).
  split; [|split].
  - apply Nat.ltb_lt. rewrite !List.length_app. lia.
  - rewrite <- Hpre. apply take_app_length.
  - rewrite List.app_assoc.
    replace (length ((pre ++ mid) ++ suf) - 2)%nat with (length (pre ++ mid))
      by (rewrite List.length_app with (l' := suf); lia).
    apply drop_app_length.
Qed.

(** X6. A bare number (no '@') of more than six code units is masked as
    its first four code units, four stars and its last two: the mask does
    not depend on the middle part, nor on its length.  maskPhone gives the
    same mask for the number and for its JID, and the admin alert and the
    restore endpoint give that mask too. *)
Theorem phone_mask_hides_middle (pre mid suf : jsString) (result : verdict)
    (groupName message : jsString) (logId : Z) :
  length pre = 4%nat -> length suf = 2%nat -> mid <> [] ->
  ~ In 64%N (pre ++ mid ++ suf) ->
  let phone := pre ++ mid ++ suf in
  maskPhone phone = pre ++ js "****" ++ suf
  /\ maskPhone (phone ++ js "@s.whatsapp.net") = pre ++ js "****" ++ suf
  /\ alert_maskedPhone (formatAdminAlert result groupName phone message logId)
     = pre ++ js "****" ++ suf
  /\ maskedPhoneOf phone = pre ++ js "****" ++ suf.
Proof.
  intros Hpre Hsuf Hmid Hat phone.
  destruct (mask_of_parts pre mid suf Hpre Hsuf Hmid) as (Hlen & Hfirst & Hlast).
  fold phone in Hlen, Hfirst, Hlast.
  assert (Hclean : forall jid,
            removeFirst (js "@g.us") (removeFirst (js "@s.whatsapp.net") jid) = phone ->
            jid <> [] -> maskPhone jid = pre ++ js "****" ++ suf).
  { intros jid Hjid Hne. unfold maskPhone. destruct jid as [|x jid]; [contradiction|].
    rewrite Hjid, Hlen, Hfirst, Hlast. reflexivity. }
  assert (Hphone : phone <> []).
  { intros Heq. rewrite Heq in Hlen. discriminate Hlen. }
  split; [|split; [|split]].
  - apply Hclean; [|exact Hphone].
    change (js "@s.whatsapp.net") with (64%N :: js "s.whatsapp.net").
    rewrite (removeFirst_absent 64 _ phone Hat).
    change (js "@g.us") with (64%N :: js "g.us").
    apply removeFirst_absent, Hat.
  - apply Hclean.
    + change (js "@s.whatsapp.net") with (64%N :: js "s.whatsapp.net").
      rewrite (removeFirst_suffix 64 _ phone Hat).
      change (js "@g.us") with (64%N :: js "g.us").
      apply removeFirst_absent, Hat.
    + intros Heq. apply List.app_eq_nil in Heq as [_ Heq]. discriminate Heq.
  - unfold formatAdminAlert. cbn [alert_maskedPhone]. rewrite Hlen, Hfirst, Hlast. reflexivity.
  - unfold maskedPhoneOf. rewrite Hlen, Hfirst, Hlast. reflexivity.
Qed.

Lemma phone_mask_hides_middle_witness :
  maskPhone (js "31600000001") = js "3160****01"
  /\ maskPhone (js "31600000001@s.whatsapp.net") = js "3160****01".
Proof.
  refine (let H := phone_mask_hides_middle (js "3160") (js "00000") (js "01")
                     {| type := excessive_caps; reason := SameMessageSent 0;
                        severity := low; extras := NoExtras |} [] [] 0 _ _ _ _ in
          conj (proj1 H) (proj1 (proj2 H))).
  - reflexivity.
  - reflexivity.
  - discriminate.
  - vm_compute. intros H. repeat (destruct H as [H|H]; [discriminate H|]). exact H.
Defined.

(** ** The admin commands *)

Section AdminCommands.
Context {ops : JsStringOps}.

Lemma command_test (word action : jsString) :
  bool_decide (action = word) || includes word action = includes word action.
Proof.
  destruct (bool_decide_reflect (action = word)) as [->|]; [|reflexivity].
  rewrite includes_refl. reflexivity.
Qed.

(** X7. handleAdminResponse dispatches on the lower-cased, trimmed reply
    by containment, 'ignore' before 'ban' before 'mute': a reply containing
    'ignore' is ignored even when it also contains 'ban'; a removal is
    requested only for a reply that contains 'ban' and not 'ignore', then
    exactly once and for the participant JID of the user, and a failing
    removal is reported as an error string; no other reply touches the
    socket. *)
Theorem admin_reply_dispatch (response : jsString) (sock : Socket)
    (groupId userPhone : jsString) :
  let action := trim (toLowerCase response) in
  let run := handleAdminResponse response sock groupId userPhone in
  (includes (js "ignore") action = true -> run = (ActionIgnored, []))
  /\ (includes (js "ignore") action = false -> includes (js "ban") action = true ->
      run = (if groupParticipantsUpdate sock groupId [participantJidOf userPhone]
             then UserRemoved userPhone else ErrorBanning,
             [CallRemove groupId [participantJidOf userPhone]]))
  /\ (includes (js "ban") action = false -> run.2 = [])
  /\ (includes (js "ignore") action = false -> includes (js "ban") action = false ->
      run = (if includes (js "mute") action then MuteComingSoon else UnknownAction, [])).
Proof.
  intros action run. subst run. unfold handleAdminResponse. fold action.
  rewrite !command_test.
  assert (Hjid : (if negb (includes [64%N] userPhone)
                  then userPhone ++ js "@s.whatsapp.net" else userPhone)
                 = participantJidOf userPhone).
  { unfold participantJidOf. destruct (includes [64%N] userPhone); reflexivity. }
  rewrite Hjid.
  destruct (includes (js "ignore") action), (includes (js "ban") action);
    repeat split; intros; try discriminate; try reflexivity.
  - destruct (includes (js "mute") action); reflexivity.
  - destruct (includes (js "mute") action); reflexivity.
Qed.

End AdminCommands.

Example ignore_wins_over_ban :
  @handleAdminResponse asciiOps (js " Do not BAN, ignore ") exampleSocket (js "111@g.us")
    (js "31600000001")
  = (ActionIgnored, []).
Proof. vm_compute. reflexivity. Qed.

Example ban_inside_a_word :
  @handleAdminResponse asciiOps (js "Urban legend") exampleFailingSocket (js "111@g.us")
    (js "31600000001")
  = (ErrorBanning, [CallRemove (js "111@g.us") [js "31600000001@s.whatsapp.net"]]).
Proof. vm_compute. reflexivity. Qed.

(** ** The HTML dashboard *)

Lemma escapeHtml_unfold (text : jsString) :
  escapeHtml text
  = replaceAll 39 (js "&#039;")
      (replaceAll 34 (js "&quot;")
         (replaceAll 62 (js "&gt;")
            (replaceAll 60 (js "&lt;")
               (replaceAll 38 (js "&amp;") text)))).
Proof. destruct text; reflexivity. Qed.

Lemma replaceAll_app (c : N) (replacement a b : jsString) :
  replaceAll c replacement (a ++ b) = replaceAll c replacement a ++ replaceAll c replacement b.
Proof. apply List.flat_map_app. Qed.

Lemma replaceAll_In (c : N) (replacement s : jsString) (x : N) :
  In x (replaceAll c replacement s) -> (In x s /\ x <> c) \/ In x replacement.
Proof.
  unfold replaceAll. intros Hin. apply List.in_flat_map in Hin as (y & Hy & Hin).
  destruct (N.eqb_spec y c) as [->|Hne]; [right; exact Hin|].
  destruct Hin as [<-|[]]. left. split; assumption.
Qed.

Lemma replaceAll_absent (c : N) (replacement s : jsString) :
  ~ In c s -> replaceAll c replacement s = s.
Proof.
  induction s as [|x s IH]; intros Hnot; [reflexivity|].
  unfold replaceAll in *. cbn [List.flat_map].
  destruct (N.eqb_spec x c) as [->|]; [exfalso; apply Hnot; left; reflexivity|].
  rewrite IH; [reflexivity|]. intros Hin. apply Hnot. right. exact Hin.
Qed.

(** X8. The text produced by escapeHtml contains none of the characters
    <, >, double quote and single quote, whatever the input; a text without
    these and without & is returned as it is; and escaping distributes over
    concatenation. *)
Theorem escapeHtml_no_markup (text : jsString) :
  (forall c, In c (escapeHtml text) -> c <> 60%N /\ c <> 62%N /\ c <> 34%N /\ c <> 39%N)
  /\ ((forall c, In c text ->
         c <> 38%N /\ c <> 60%N /\ c <> 62%N /\ c <> 34%N /\ c <> 39%N) ->
      escapeHtml text = text)
  /\ (forall more, escapeHtml (text ++ more) = escapeHtml text ++ escapeHtml more).
Proof.
  split; [|split].
  - intros c Hin. rewrite escapeHtml_unfold in Hin.
    assert (Hlit : forall l : jsString,
              In c l -> (forallb (fun x => negb (x =? 60) && negb (x =? 62) && negb (x =? 34)
                                           && negb (x =? 39)) l)%N = true ->
              c <> 60%N /\ c <> 62%N /\ c <> 34%N /\ c <> 39%N).
    { intros l Hc Hall. rewrite List.forallb_forall in Hall. specialize (Hall c Hc).
      rewrite !andb_true_iff, !negb_true_iff, !N.eqb_neq in Hall. tauto. }
    apply replaceAll_In in Hin as [[Hin H39]|Hin]; [|exact (Hlit _ Hin eq_refl)].
    apply replaceAll_In in Hin as [[Hin H34]|Hin]; [|exact (Hlit _ Hin eq_refl)].
    apply replaceAll_In in Hin as [[Hin H62]|Hin]; [|exact (Hlit _ Hin eq_refl)].
    apply replaceAll_In in Hin as [[Hin H60]|Hin]; [|exact (Hlit _ Hin eq_refl)].
    repeat split; assumption.
  - intros Hsafe. rewrite escapeHtml_unfold.
    assert (Hnot : forall c, In c [38; 60; 62; 34; 39]%N -> ~ In c text).
    { intros c Hc Hin. destruct (Hsafe c Hin) as (? & ? & ? & ? & ?).
      simpl in Hc. intuition congruence. }
    rewrite (replaceAll_absent 38) by (apply Hnot; simpl; tauto).
    rewrite (replaceAll_absent 60) by (apply Hnot; simpl; tauto).
    rewrite (replaceAll_absent 62) by (apply Hnot; simpl; tauto).
    rewrite (replaceAll_absent 34) by (apply Hnot; simpl; tauto).
    apply replaceAll_absent, Hnot. simpl. tauto.
  - intros more. rewrite !escapeHtml_unfold, !replaceAll_app. reflexivity.
Qed.

Example escapeHtml_script :
  escapeHtml (js "<b>Tom & Jerry's</b>") = js "&lt;b&gt;Tom &amp; Jerry&#039;s&lt;/b&gt;".
Proof. vm_compute. reflexivity. Qed.

(** ** Streaks and eviction in the repeat cache *)

Section Streaks.
Context {ops : JsStringOps}.

Lemma checkSimpleSpamEach_streak (calls : list (Z * Z * jsString))
    (senderPhone groupId : jsString) :
  forall (recentMessages : gmap (list N) cacheEntry) (data : cacheEntry),
    recentMessages !! cacheKey senderPhone groupId = Some data ->
    (forall c, In c calls ->
       reachesRepeatCheck c.2 = true /\ trim (toLowerCase c.2) = Entry.message data) ->
    withinWindow (Entry.lastTime data) calls ->
    (checkSimpleSpamEach calls senderPhone groupId recentMessages).1
    = List.map (fun i => occurrenceVerdict (Entry.count data + Z.of_nat i))
        (List.seq 1 (length calls)).
Proof.
  induction calls as [|[[tClean tStamp] message] calls IH];
    intros recentMessages data Hk Hcalls Hwin; [reflexivity|].
  destruct Hwin as [Hlive Hwin].
  destruct (Hcalls (tClean, tStamp, message) (or_introl eq_refl)) as [Hr Hm].
  cbn [snd] in Hr, Hm.
  cbn [checkSimpleSpamEach length List.seq List.map fst snd].
  rewrite (checkSimpleSpam_repeat tClean tStamp message senderPhone groupId recentMessages data
             Hr Hk Hlive (eq_sym Hm)).
  cbn [fst snd]. f_equal.
  set (data' := {| Entry.message := Entry.message data; Entry.count := Entry.count data + 1;
                   Entry.lastTime := tStamp |}).
  rewrite (IH _ data').
  - rewrite <- (List.seq_shift (length calls) 1), List.map_map. apply List.map_ext. intros i.
    f_equal. simpl. lia.
  - apply lookup_insert_eq.
  - intros c Hc. apply Hcalls. right. exact Hc.
  - exact Hwin.
Qed.

(** X9. When a sender posts the same text (up to case and outer white
    space) again and again in a room, each post past the early returns and
    no later than 60 s after the one before, the first post starting from
    no live entry with that text, then the n-th post is flagged as
    repeated_message exactly when n >= 3, and the verdict of the n-th post
    reports the count n. *)
Theorem repeat_streak_counts (senderPhone groupId : jsString)
    (tClean tStamp : Z) (message : jsString) (calls : list (Z * Z * jsString))
    (recentMessages : gmap (list N) cacheEntry) :
  reachesRepeatCheck message = true ->
  (forall data, recentMessages !! cacheKey senderPhone groupId = Some data ->
     tClean - Entry.lastTime data <= SPAM_CONFIG.repeatWindow ->
     Entry.message data <> trim (toLowerCase message)) ->
  (forall c, In c calls ->
     reachesRepeatCheck c.2 = true
     /\ trim (toLowerCase c.2) = trim (toLowerCase message)) ->
  withinWindow tStamp calls ->
  (checkSimpleSpamEach ((tClean, tStamp, message) :: calls) senderPhone groupId
     recentMessages).1
  = List.map (fun n => occurrenceVerdict (Z.of_nat n)) (List.seq 1 (S (length calls))).
Proof.
  intros Hr Hfresh Hcalls Hwin.
  cbn [checkSimpleSpamEach List.seq List.map fst snd].
  rewrite (checkSimpleSpam_reset tClean tStamp message senderPhone groupId recentMessages
             Hr Hfresh).
  cbn [fst snd]. f_equal.
  rewrite (checkSimpleSpamEach_streak calls senderPhone groupId _ (freshEntry message tStamp)).
  - rewrite <- (List.seq_shift (length calls) 1), List.map_map. apply List.map_ext. intros i.
    f_equal. simpl. lia.
  - apply lookup_insert_eq.
  - exact Hcalls.
  - exact Hwin.
Qed.

(** X10. A call of checkSimpleSpam that reaches the repeat check leaves no
    entry in the cache that is older than the 60 s window (measured from
    the reading of the clock at eviction), invents no entry for another
    key, and makes the cache grow by at most one entry. *)
Theorem repeat_cache_evicts_stale (tClean tStamp : Z) (message senderPhone groupId : jsString)
    (recentMessages : gmap (list N) cacheEntry) :
  reachesRepeatCheck message = true -> tClean <= tStamp ->
  let after :=
    (checkSimpleSpam tClean tStamp message senderPhone groupId recentMessages).2 in
  (forall key data, after !! key = Some data ->
     tClean - Entry.lastTime data <= SPAM_CONFIG.repeatWindow)
  /\ (forall key data, key <> cacheKey senderPhone groupId -> after !! key = Some data ->
        recentMessages !! key = Some data)
  /\ (size after <= size recentMessages + 1)%nat
  /\ (exists data, after !! cacheKey senderPhone groupId = Some data
                   /\ Entry.lastTime data = tStamp
                   /\ Entry.message data = trim (toLowerCase message)).
Proof.
  intros Hr Hclock after.
  assert (Hafter : exists data,
            after = <[cacheKey senderPhone groupId := data]>
                      (cleanRecentMessages tClean recentMessages)
            /\ Entry.lastTime data = tStamp
            /\ Entry.message data = trim (toLowerCase message)).
  { subst after.
    destruct (cleanRecentMessages tClean recentMessages !! cacheKey senderPhone groupId)
      as [data|] eqn:Hk.
    - rewrite cleanRecentMessages_lookup in Hk.
      destruct (recentMessages !! cacheKey senderPhone groupId) as [data0|] eqn:Hk0;
        [|discriminate Hk].
      destruct (decide (tClean - _ <= _)) as [Hlive|]; [|discriminate Hk].
      injection Hk as ->.
      destruct (decide (Entry.message data = trim (toLowerCase message))) as [Heq|Hne].
      + rewrite (checkSimpleSpam_repeat _ _ _ _ _ _ data Hr Hk0 Hlive Heq).
        eexists. split; [reflexivity|]. split; [reflexivity|exact Heq].
      + rewrite checkSimpleSpam_reset.
        * eexists. split; [reflexivity|]. split; reflexivity.
        * exact Hr.
        * intros d Hd _. rewrite Hk0 in Hd. injection Hd as <-. exact Hne.
    - rewrite checkSimpleSpam_reset.
      + eexists. split; [reflexivity|]. split; reflexivity.
      + exact Hr.
      + intros d Hd Hlive. rewrite cleanRecentMessages_lookup, Hd in Hk.
        destruct (decide (tClean - _ <= _)); [discriminate Hk|contradiction]. }
  destruct Hafter as (entry & -> & Htime & Htext).
  assert (Hother : forall key data,
            cleanRecentMessages tClean recentMessages !! key = Some data ->
            recentMessages !! key = Some data
            /\ tClean - Entry.lastTime data <= SPAM_CONFIG.repeatWindow).
  { intros key data Hk. rewrite cleanRecentMessages_lookup in Hk.
    destruct (recentMessages !! key) as [d|]; [|discriminate Hk].
    destruct (decide (tClean - _ <= _)) as [Hlive|]; [|discriminate Hk].
    injection Hk as ->. split; [reflexivity|exact Hlive]. }
  split; [|split; [|split]].
  - intros key data Hk.
    destruct (decide (key = cacheKey senderPhone groupId)) as [->|Hne].
    + rewrite lookup_insert_eq in Hk. injection Hk as <-. rewrite Htime.
      unfold SPAM_CONFIG.repeatWindow. lia.
    + rewrite lookup_insert_ne in Hk by congruence. apply (Hother key data Hk).
  - intros key data Hne Hk. rewrite lookup_insert_ne in Hk by congruence.
    apply (Hother key data Hk).
  - rewrite map_size_insert.
    assert (Hsize : (size (cleanRecentMessages tClean recentMessages)
                     <= size recentMessages)%nat).
    { unfold cleanRecentMessages. apply map_size_filter. }
    destruct (cleanRecentMessages tClean recentMessages !! cacheKey senderPhone groupId);
      simpl; lia.
  - exists entry. split; [apply lookup_insert_eq|]. split; assumption.
Qed.

End Streaks.

Lemma repeat_streak_counts_witness :
  (@checkSimpleSpamEach asciiOps
     [(0, 1, js "hello there"); (1000, 1001, js " Hello there"); (2000, 2001, js "HELLO there ");
      (62001, 62002, js "hello there")]
     (js "31600000001") (js "111@g.us") ∅).1
  = [None; None;
     Some {| type := repeated_message; reason := SameMessageSent 3; severity := medium;
             extras := NoExtras |};
     Some {| type := repeated_message; reason := SameMessageSent 4; severity := medium;
             extras := NoExtras |}].
Proof.
  refine (@repeat_streak_counts asciiOps (js "31600000001") (js "111@g.us") 0 1
            (js "hello there")
            [(1000, 1001, js " Hello there"); (2000, 2001, js "HELLO there ");
             (62001, 62002, js "hello there")] ∅ _ _ _ _).
  - vm_compute. reflexivity.
  - intros data Hdata. rewrite lookup_empty in Hdata. discriminate Hdata.
  - intros c [<-|[<-|[<-|[]]]]; vm_compute; split; reflexivity.
  - cbn. unfold SPAM_CONFIG.repeatWindow. lia.
Defined.

Lemma repeat_cache_evicts_stale_witness :
  let stale : gmap (list N) cacheEntry :=
    {[ js "31600000009:111@g.us" :=
         {| Entry.message := js "old news"; Entry.count := 2; Entry.lastTime := 0 |} ]} in
  let after := (@checkSimpleSpam asciiOps 100000 100001 (js "hello there")
                  (js "31600000001") (js "111@g.us") stale).2 in
  (forall key data, after !! key = Some data ->
     100000 - Entry.lastTime data <= SPAM_CONFIG.repeatWindow)
  /\ (size after <= size stale + 1)%nat.
Proof.
  intros stale after.
  refine (let H := @repeat_cache_evicts_stale asciiOps 100000 100001 (js "hello there")
                     (js "31600000001") (js "111@g.us") stale _ _ in
          conj (proj1 H) (proj1 (proj2 (proj2 H)))).
  - vm_compute. reflexivity.
  - lia.
Defined.

(** ** The classifiers *)

Lemma exceeds_iff (q bound : Q) : negb (Qle_bool q bound) = true <-> (bound < q)%Q.
Proof.
  rewrite negb_true_iff. split.
  - intros Hf. apply Qnot_le_lt. intros Hle. apply Qle_bool_iff in Hle. congruence.
  - intros Hlt. destruct (Qle_bool q bound) eqn:Hle; [|reflexivity].
    apply Qle_bool_iff in Hle. exfalso. exact (Qlt_not_le _ _ Hlt Hle).
Qed.

Lemma checkToxicContent_kind (openai : OpenAI) (message : jsString) (v : verdict) :
  checkToxicContent openai message = Some v -> type v = toxic_content.
Proof.
  unfold checkToxicContent. destruct (length message <? 3)%nat; [discriminate|].
  destruct (negb _); [discriminate|].
  destruct (moderations_create openai message) as [answer|]; [|discriminate].
  destruct (flagged answer); [intros [= <-]; reflexivity|].
  destruct (List.find _ _) as [[category score]|]; [|discriminate].
  intros [= <-]. reflexivity.
Qed.

(** X11. checkToxicContent fails open: without API key, for a text shorter
    than 3, or when the moderation call throws, there is no verdict.  When
    the call answers, a flagged answer always gives a verdict of severity
    high; an unflagged answer gives a verdict (of severity medium, naming
    the first category scored above 0.75) exactly when some category score
    exceeds 0.75.  Every verdict has type toxic_content. *)
Theorem toxic_verdict_law (openai : OpenAI) (message : jsString) :
  let r := checkToxicContent openai message in
  ((length message < 3)%nat \/ openaiApiKey openai = false
   \/ moderations_create openai message = None -> r = None)
  /\ (forall v, r = Some v -> type v = toxic_content)
  /\ (forall answer,
        (3 <= length message)%nat -> openaiApiKey openai = true ->
        moderations_create openai message = Some answer ->
        (flagged answer = true ->
           exists v, r = Some v /\ severity v = high
                     /\ extras v = ToxicExtras true
                                     (List.map fst (List.filter snd (categories answer)))
                                     (category_scores answer))
        /\ (flagged answer = false ->
              (r = None <->
               forall cs, In cs (category_scores answer) -> (cs.2 <= 75 # 100)%Q)
              /\ (forall v, r = Some v ->
                    severity v = medium
                    /\ exists before category score after,
                         category_scores answer = before ++ (category, score) :: after
                         /\ (forall cs, In cs before -> (cs.2 <= 75 # 100)%Q)
                         /\ (75 # 100 < score)%Q
                         /\ reason v = HighScore category score))).
Proof.
  intros r. subst r. unfold checkToxicContent. split; [|split].
  - intros [Hlen|[Hkey|Hcall]].
    + destruct (Nat.ltb_spec (length message) 3); [reflexivity|lia].
    + rewrite Hkey. destruct (length message <? 3)%nat; reflexivity.
    + rewrite Hcall. destruct (length message <? 3)%nat; [reflexivity|].
      destruct (negb _); reflexivity.
  - apply checkToxicContent_kind.
  - intros answer Hlen Hkey Hcall.
    destruct (Nat.ltb_spec (length message) 3); [lia|].
    rewrite Hkey, Hcall. simpl. split.
    + intros ->. eexists. split; [reflexivity|]. split; reflexivity.
    + intros ->.
      assert (Hfind : forall scores : list (jsString * Q),
                match List.find (fun cs => negb (Qle_bool cs.2 (75 # 100))) scores with
                | Some (category, score) =>
                    exists before after,
                      scores = before ++ (category, score) :: after
                      /\ (forall cs, In cs before -> (cs.2 <= 75 # 100)%Q)
                      /\ (75 # 100 < score)%Q
                | None => forall cs, In cs scores -> (cs.2 <= 75 # 100)%Q
                end).
      { induction scores as [|[category score] scores IH]; [intros cs []|].
        cbn [List.find snd].
        destruct (negb (Qle_bool score (75 # 100))) eqn:Hscore.
        - exists [], scores. split; [reflexivity|]. split; [intros cs []|].
          apply exceeds_iff, Hscore.
        - apply negb_false_iff, Qle_bool_iff in Hscore.
          destruct (List.find _ scores) as [[category' score']|].
          + destruct IH as (before & after & -> & Hbefore & Hhigh).
            exists ((category, score) :: before), after. split; [reflexivity|].
            split; [|exact Hhigh]. intros cs [<-|Hin]; [exact Hscore|exact (Hbefore cs Hin)].
          + intros cs [<-|Hin]; [exact Hscore|exact (IH cs Hin)]. }
      specialize (Hfind (category_scores answer)).
      destruct (List.find _ (category_scores answer)) as [[category score]|].
      * destruct Hfind as (before & after & Hsplit & Hbefore & Hhigh). split.
        -- split; [discriminate|]. intros Hall. exfalso.
           apply (Qlt_not_le _ _ Hhigh). apply (Hall (category, score)).
           rewrite Hsplit. apply in_or_app. right. left. reflexivity.
        -- intros v [= <-]. split; [reflexivity|].
           exists before, category, score, after. repeat split; assumption.
      * split; [split; [intros _; exact Hfind|reflexivity]|discriminate].
Qed.

Example toxic_unflagged_high_score :
  let openai := {| openaiApiKey := true;
                   moderations_create := fun _ =>
                     Some {| flagged := false; categories := [];
                             category_scores := [(js "hate", 2 # 10); (js "harassment", 8 # 10)] |};
                   topic_completion := fun _ => ApiError;
                   vision_completion := fun _ => ApiError |} in
  option_map (fun v => (severity v, reason v)) (checkToxicContent openai (js "some text"))
  = Some (medium, HighScore (js "harassment") (8 # 10)).
Proof. reflexivity. Qed.

Lemma classifyFrames_Some (openai : OpenAI) (kind : violation) (fallback : jsString)
    (frames : list Buffer) (v : verdict) :
  fallback <> [] ->
  classifyFrames openai kind fallback frames = Some v ->
  type v = kind /\ severity v = high
  /\ exists answer description,
       vision_completion openai frames = Parsed answer
       /\ media_flagged answer = true
       /\ (6 # 10 < media_confidence answer)%Q
       /\ description <> []
       /\ extras v = MediaExtras (media_topic answer) description (media_confidence answer).
Proof.
  intros Hfallback. unfold classifyFrames.
  destruct (vision_completion openai frames) as [| |answer]; [discriminate|discriminate|].
  destruct (media_flagged answer) eqn:Hflag; [|discriminate]. simpl.
  destruct (negb _) eqn:Hconf; [|discriminate].
  apply exceeds_iff in Hconf. intros [= <-]. simpl.
  split; [reflexivity|]. split; [reflexivity|].
  eexists answer, _. split; [reflexivity|]. split; [exact Hflag|]. split; [exact Hconf|].
  split; [|reflexivity].
  destruct (media_description answer) as [[|c d]|]; [exact Hfallback|discriminate|exact Hfallback].
Qed.

(** X12. A verdict of the image, video or GIF analyser has the kind of its
    analyser (sensitive_image, sensitive_video, sensitive_gif) and severity
    high; it comes from a parsed answer of the vision model that is flagged
    with confidence above 0.6, with the API key configured; and it always
    carries a non-empty description.  For videos and GIFs the answer is the
    one given for the frames that the extractor returned, of which there is
    at least one. *)
Theorem media_verdict_law (openai : OpenAI) (env : MediaEnv) (t1 t2 : Z)
    (buffer : option Buffer) (fs : FileSystem) (v : verdict) :
  let sound (kind : violation) (frames : list Buffer) :=
    type v = kind /\ severity v = high /\ openaiApiKey openai = true
    /\ exists answer description,
         vision_completion openai frames = Parsed answer
         /\ media_flagged answer = true
         /\ (6 # 10 < media_confidence answer)%Q
         /\ description <> []
         /\ extras v = MediaExtras (media_topic answer) description (media_confidence answer) in
  (analyzeImage openai buffer = Some v ->
     exists image, buffer = Some image /\ sound sensitive_image [image])
  /\ ((analyzeVideo openai env t1 t2 buffer fs).1 = Some v ->
        exists video frames,
          buffer = Some video /\ frames <> []
          /\ (extractVideoFrames env t1 t2 video 4 fs).1 = Returned frames
          /\ sound sensitive_video frames)
  /\ ((analyzeGif openai env t1 t2 buffer fs).1 = Some v ->
        exists gif frames,
          buffer = Some gif /\ frames <> []
          /\ (extractGifFrames env t1 t2 gif 4 fs).1 = Returned frames
          /\ sound sensitive_gif frames).
Proof.
  intros sound. subst sound. cbv beta.
  split; [|split].
  - unfold analyzeImage. destruct buffer as [image|]; [|discriminate].
    destruct (openaiApiKey openai) eqn:Hkey; [|discriminate]. simpl. intros Hv.
    apply classifyFrames_Some in Hv as (Ht & Hs & Hrest); [|discriminate].
    exists image. split; [reflexivity|]. split; [exact Ht|]. split; [exact Hs|].
    split; [reflexivity|exact Hrest].
  - unfold analyzeVideo. destruct buffer as [video|]; [|discriminate].
    destruct (openaiApiKey openai) eqn:Hkey; [|discriminate]. simpl.
    destruct (extractVideoFrames env t1 t2 video 4 fs) as [[[|frame frames]|] fs'] eqn:Hext;
      [discriminate| |discriminate].
    simpl. intros Hv.
    apply classifyFrames_Some in Hv as (Ht & Hs & Hrest); [|discriminate].
    exists video, (frame :: frames). split; [reflexivity|]. split; [discriminate|].
    split; [rewrite Hext; reflexivity|]. split; [exact Ht|]. split; [exact Hs|].
    split; [reflexivity|exact Hrest].
  - unfold analyzeGif. destruct buffer as [gif|]; [|discriminate].
    destruct (openaiApiKey openai) eqn:Hkey; [|discriminate]. simpl.
    destruct (extractGifFrames env t1 t2 gif 4 fs) as [[[|frame frames]|] fs'] eqn:Hext;
      [discriminate| |discriminate].
    simpl. intros Hv.
    apply classifyFrames_Some in Hv as (Ht & Hs & Hrest); [|discriminate].
    exists gif, (frame :: frames). split; [reflexivity|]. split; [discriminate|].
    split; [rewrite Hext; reflexivity|]. split; [exact Ht|]. split; [exact Hs|].
    split; [reflexivity|exact Hrest].
Qed.

Example image_verdict_without_description :
  let openai := {| openaiApiKey := true;
                   moderations_create := fun _ => None;
                   topic_completion := fun _ => ApiError;
                   vision_completion := fun _ =>
                     Parsed {| media_flagged := true; media_topic := js "politics";
                               media_description := Some []; media_confidence := 9 # 10 |} |} in
  option_map extras (analyzeImage openai (Some [255; 216]%N))
  = Some (MediaExtras (js "politics") (js "Sensitive image content") (9 # 10)).
Proof. reflexivity. Qed.

Section TextPathVerdicts.
Context {ops : JsStringOps}.

Lemma checkSimpleSpam_kinds (tClean tStamp : Z) (message senderPhone groupId : jsString)
    (recentMessages : gmap (list N) cacheEntry) (w : verdict) :
  (checkSimpleSpam tClean tStamp message senderPhone groupId recentMessages).1 = Some w ->
  type w = excessive_links \/ type w = excessive_caps \/ type w = repeated_message.
Proof.
  unfold checkSimpleSpam.
  destruct (length message <? 5)%nat; [discriminate|].
  destruct (SPAM_CONFIG.maxLinks <? countLinks message)%nat; [intros [= <-]; tauto|].
  destruct (checkCaps message) as [w'|] eqn:Hcaps.
  - intros [= <-]. right. left. exact (proj1 (checkCaps_Some message w' Hcaps)).
  - simpl. destruct (cleanRecentMessages _ _ !! _) as [data|]; simpl; [|discriminate].
    destruct (decide _); simpl; [|discriminate].
    destruct (_ <=? _); [|discriminate]. intros [= <-]. tauto.
Qed.

Lemma checkSensitiveContent_kind (openai : OpenAI) (message : jsString) (w : verdict) :
  checkSensitiveContent openai message = Some w -> type w = sensitive_topic.
Proof.
  unfold checkSensitiveContent.
  destruct (length message <? 10)%nat; [discriminate|].
  destruct (negb _); [discriminate|].
  destruct (topic_completion openai message) as [| |answer]; [discriminate|discriminate|].
  destruct (_ && _); [|discriminate]. intros [= <-]. reflexivity.
Qed.

(** X13. In the revision without the keyword stage, a verdict of type
    sensitive_topic from moderateMessage means: the text has more than 20
    characters, the heuristic and the toxicity stage returned null, the API
    key is configured, and the topic model gave a parsed answer that is
    flagged with confidence above 0.7; the verdict has severity high and
    names that answer's topic.  The text path never returns a media
    verdict. *)
Theorem topic_verdict_needs_long_text (openai : OpenAI) (tClean tStamp : Z)
    (message senderPhone groupId : jsString)
    (recentMessages : gmap (list N) cacheEntry) (v : verdict) :
  result (moderateMessage openai tClean tStamp message senderPhone groupId recentMessages)
  = Some v ->
  (type v = sensitive_topic ->
     (20 < length message)%nat
     /\ (checkSimpleSpam tClean tStamp message senderPhone groupId recentMessages).1 = None
     /\ checkToxicContent openai message = None
     /\ openaiApiKey openai = true
     /\ severity v = high
     /\ exists answer,
          topic_completion openai message = Parsed answer
          /\ topic_flagged answer = true
          /\ (7 # 10 < topic_confidence answer)%Q
          /\ reason v = DetectedTopic (topic answer))
  /\ type v <> sensitive_image /\ type v <> sensitive_video /\ type v <> sensitive_gif.
Proof.
  unfold moderateMessage.
  destruct ((checkSimpleSpam tClean tStamp message senderPhone groupId recentMessages).1)
    as [w|] eqn:Hw.
  { simpl. intros [= <-].
    destruct (checkSimpleSpam_kinds _ _ _ _ _ _ w Hw) as [Hk|[Hk|Hk]]; rewrite Hk;
      (split; [discriminate|repeat split; discriminate]). }
  destruct (checkToxicContent openai message) as [w|] eqn:Htoxic.
  { simpl. intros [= <-].
    rewrite (checkToxicContent_kind openai message w Htoxic). split; [discriminate|repeat split; discriminate]. }
  destruct (Nat.ltb_spec 20 (length message)) as [Hlong|]; [|discriminate].
  unfold checkSensitiveContent.
  destruct (Nat.ltb_spec (length message) 10); [lia|].
  destruct (openaiApiKey openai); [|discriminate]. simpl.
  destruct (topic_completion openai message) as [| |answer]; [discriminate|discriminate|].
  destruct (topic_flagged answer) eqn:Hflag; [|discriminate]. simpl.
  destruct (negb _) eqn:Hconf; [|discriminate]. apply exceeds_iff in Hconf.
  simpl. intros [= <-]. simpl. split; [|repeat split; discriminate].
  intros _. repeat split; try assumption; try reflexivity.
  exists answer. repeat split; assumption.
Qed.

End TextPathVerdicts.

Lemma topic_verdict_needs_long_text_witness :
  let openai := {| openaiApiKey := true;
                   moderations_create := fun _ =>
                     Some {| flagged := false; categories := []; category_scores := [] |};
                   topic_completion := fun _ =>
                     Parsed {| topic_flagged := true; topic := js "elections";
                               topic_confidence := 9 # 10 |};
                   vision_completion := fun _ => ApiError |} in
  let message := js "who will you vote for next week" in
  (20 < length message)%nat
  /\ checkToxicContent openai message = None.
Proof.
  intros openai message.
  refine (let H := @topic_verdict_needs_long_text asciiOps openai 0 1 message
                     (js "31600000001") (js "111@g.us") ∅
                     {| type := sensitive_topic; reason := DetectedTopic (js "elections");
                        severity := high;
                        extras := TopicExtras (js "elections") (9 # 10) |} _ in
          conj (proj1 (proj1 H eq_refl)) (proj1 (proj2 (proj2 (proj1 H eq_refl))))).
  vm_compute. reflexivity.
Defined.

(** ** From challenge to verified member *)

Lemma find_filter_negb {A} (f g : A -> bool) (l : list A) :
  (forall x, f x = true -> g x = true) ->
  List.find f (List.filter (fun x => negb (g x)) l) = None.
Proof.
  intros Himp. apply find_none_iff. intros x Hin.
  apply List.filter_In in Hin as [_ Hg]. apply negb_true_iff in Hg.
  destruct (f x) eqn:Hf; [|reflexivity]. rewrite (Himp x Hf) in Hg. discriminate.
Qed.

Section Membership.
Context {ops : JsStringOps} {crypto : Crypto}.

Lemma checkVerificationAnswer_correct
    (now tVerified : Z) (senderJid messageText groupId groupName : jsString)
    (db : database) (pending : Pending.row) (c : N) (code : jsString) :
  getPendingVerification now (jidToPhone senderJid) groupId db = Some pending ->
  Pending.captcha_code pending = Some (c :: code) ->
  toUpperCase (trim messageText) = toUpperCase (c :: code) ->
  checkVerificationAnswer now tVerified senderJid messageText groupId groupName db
  = (Some {| vr_success := true; vr_message := success (getMessages groupName);
             vr_phone := jidToPhone senderJid |},
     markUserVerified tVerified (jidToPhone senderJid) groupId
       (removePendingVerification (jidToPhone senderJid) groupId db)).
Proof.
  intros Hpending Hcode Hanswer. unfold checkVerificationAnswer. rewrite Hpending, Hcode.
  destruct (decide _) as [_|Hne]; [reflexivity|contradiction].
Qed.

Lemma no_pending_after_verified (t tVerified : Z) (phone groupId : jsString) (db : database) :
  getPendingVerification t phone groupId
    (markUserVerified tVerified phone groupId (removePendingVerification phone groupId db))
  = None.
Proof.
  unfold getPendingVerification. simpl. apply find_filter_negb.
  intros x Hx. apply andb_true_iff in Hx as [Hx _]. exact Hx.
Qed.

Lemma verified_after_mark (tVerified : Z) (phone groupId : jsString) (db : database) :
  isUserVerified phone groupId (markUserVerified tVerified phone groupId db) = true.
Proof.
  unfold isUserVerified. simpl. rewrite List.existsb_app. simpl.
  rewrite !bool_decide_eq_true_2 by reflexivity. simpl. apply orb_true_r.
Qed.

Lemma perform_keeps_member (phone groupId : jsString) (op : dbOperation) (db : database) :
  rewritesMembership phone groupId op = false ->
  isUserVerified phone groupId db = true
  /\ (forall r, In r (pending_verifications db) -> pendingKeyIs phone groupId r = false) ->
  isUserVerified phone groupId (perform op db) = true
  /\ (forall r, In r (pending_verifications (perform op db)) ->
        pendingKeyIs phone groupId r = false).
Proof.
  intros Hop [Hverified Hpending].
  assert (Hinsert : forall now p g answer code timeoutMinutes,
            bool_decide (p = phone) && bool_decide (g = groupId) = false ->
            isUserVerified phone groupId
              (insertOrReplacePending now p g answer code timeoutMinutes db).2 = true
            /\ (forall r, In r (pending_verifications
                                  (insertOrReplacePending now p g answer code timeoutMinutes
                                     db).2) ->
                  pendingKeyIs phone groupId r = false)).
  { intros now p g answer code timeoutMinutes Hkey. unfold insertOrReplacePending.
    destruct (expiresAfter now timeoutMinutes) as [expiresAt|]; [|split; assumption].
    split; [exact Hverified|]. cbn [snd pending_verifications setPending].
    intros r Hin. apply in_app_or in Hin as [Hin|[<-|[]]].
    - apply List.filter_In in Hin as [Hin _]. exact (Hpending r Hin).
    - exact Hkey. }
  destruct op; cbn [perform rewritesMembership] in *.
  - split; assumption.
  - apply Hinsert, Hop.
  - unfold addPendingCaptcha. destruct captchaCode; [split; assumption|].
    apply Hinsert, Hop.
  - split; [exact Hverified|]. cbn [removePendingVerification pending_verifications setPending].
    intros r Hin. apply List.filter_In in Hin as [Hin _]. exact (Hpending r Hin).
  - split; [|exact Hpending].
    unfold isUserVerified, markUserVerified in *. cbn [verified_users setVerified].
    rewrite List.existsb_app.
    destruct (bool_decide_reflect (phone0 = phone)) as [->|Hother].
    + simpl in Hop. apply negb_false_iff, bool_decide_eq_true in Hop. subst groupId0.
      cbn [List.existsb Verified.phone Verified.group_id].
      rewrite !bool_decide_eq_true_2 by reflexivity. simpl. apply orb_true_r.
    + apply orb_true_iff. left.
      apply List.existsb_exists in Hverified as (x & Hin & Hx).
      apply List.existsb_exists. exists x. split; [|exact Hx].
      apply List.filter_In. split; [exact Hin|].
      apply andb_true_iff in Hx as [Hx _]. apply bool_decide_eq_true in Hx.
      apply negb_true_iff, bool_decide_eq_false. congruence.
  - split; [exact Hverified|].
    cbn [cleanupExpiredVerifications snd pending_verifications setPending].
    intros r Hin. apply List.filter_In in Hin as [Hin _]. exact (Hpending r Hin).
  - split; assumption.
  - unfold markMessageRestored, updateLogsWhereId. destruct logId; split; assumption.
  - unfold updateModerationResponse, updateLogsWhereId. destruct logId; split; assumption.
  - split; assumption.
  - unfold restoreMessage.
    destruct (getModerationLogById logId db) as [log|]; [|split; assumption].
    destruct (negb _); [split; assumption|].
    destruct sock as [sock|]; [|split; assumption].
    destruct (sendMessage _ _ _); [|split; assumption].
    unfold markMessageRestored, updateLogsWhereId. destruct logId; split; assumption.
Qed.

(** X14. When the code of a pending, unexpired captcha is submitted (up to
    case and outer white space), checkVerificationAnswer reports success,
    the sender is verified for the room and no pending record of the
    (phone, room) is left; pending records of other keys stay as they were.
    Then, and after any further operations on the database among which
    there is neither a verification of the same phone for another room
    (it replaces the phone's only row of verified_users) nor a pending
    record written for the same (phone, room), the sender is still
    verified for the room, every text of the sender in that room, the code
    included, is ignored by checkVerificationAnswer without any change, and
    a join of the sender to that room issues no challenge: nothing is
    stored and nothing is sent. *)
Theorem correct_answer_verifies
    (now tVerified : Z) (senderJid messageText groupId groupName : jsString)
    (db : database) (pending : Pending.row) (c : N) (code : jsString) :
  getPendingVerification now (jidToPhone senderJid) groupId db = Some pending ->
  Pending.captcha_code pending = Some (c :: code) ->
  toUpperCase (trim messageText) = toUpperCase (c :: code) ->
  let run := checkVerificationAnswer now tVerified senderJid messageText groupId groupName db in
  run.1 = Some {| vr_success := true; vr_message := success (getMessages groupName);
                  vr_phone := jidToPhone senderJid |}
  /\ isUserVerified (jidToPhone senderJid) groupId run.2 = true
  /\ (forall t, getPendingVerification t (jidToPhone senderJid) groupId run.2 = None)
  /\ (forall r, pendingKeyIs (jidToPhone senderJid) groupId r = false ->
        (In r (pending_verifications run.2) <-> In r (pending_verifications db)))
  /\ (forall operations : list dbOperation,
        (forall op, In op operations ->
           rewritesMembership (jidToPhone senderJid) groupId op = false) ->
        let db' := fold_left (fun d op => perform op d) operations run.2 in
        isUserVerified (jidToPhone senderJid) groupId db' = true
        /\ (forall t t' text name,
              checkVerificationAnswer t t' senderJid text groupId name db' = (None, db'))
        /\ (forall env sock t name,
              startVerification env sock t groupId name senderJid db'
              = (Returned tt, db', []))).
Proof.
  intros Hpending Hcode Hanswer run. subst run.
  rewrite (checkVerificationAnswer_correct now tVerified senderJid messageText groupId
             groupName db pending c code Hpending Hcode Hanswer).
  cbn [fst snd].
  split; [reflexivity|]. split; [apply verified_after_mark|].
  split; [intros t; apply no_pending_after_verified|].
  split.
  - intros r Hkey. simpl. rewrite List.filter_In, Hkey. simpl. tauto.
  - intros operations Hquiet. cbv zeta.
    set (phone := jidToPhone senderJid) in *.
    assert (Hmember :
              isUserVerified phone groupId
                (fold_left (fun d op => perform op d) operations
                   (markUserVerified tVerified phone groupId
                      (removePendingVerification phone groupId db))) = true
              /\ (forall r,
                    In r (pending_verifications
                            (fold_left (fun d op => perform op d) operations
                               (markUserVerified tVerified phone groupId
                                  (removePendingVerification phone groupId db)))) ->
                    pendingKeyIs phone groupId r = false)).
    { assert (Hstart : isUserVerified phone groupId
                         (markUserVerified tVerified phone groupId
                            (removePendingVerification phone groupId db)) = true
                       /\ (forall r,
                             In r (pending_verifications
                                     (markUserVerified tVerified phone groupId
                                        (removePendingVerification phone groupId db))) ->
                             pendingKeyIs phone groupId r = false)).
      { split; [apply verified_after_mark|]. simpl. intros r Hin.
        apply List.filter_In in Hin as [_ Hkey]. apply negb_true_iff, Hkey. }
      revert Hstart.
      generalize (markUserVerified tVerified phone groupId
                    (removePendingVerification phone groupId db)).
      induction operations as [|op operations IH]; intros d Hd; [exact Hd|].
      simpl. apply IH.
      - intros op' Hin. apply Hquiet. right. exact Hin.
      - apply perform_keeps_member; [apply Hquiet; left; reflexivity|exact Hd]. }
    destruct Hmember as [Hverified Hnone].
    assert (Hlookup : forall t,
              getPendingVerification t phone groupId
                (fold_left (fun d op => perform op d) operations
                   (markUserVerified tVerified phone groupId
                      (removePendingVerification phone groupId db))) = None).
    { intros t. unfold getPendingVerification. apply find_none_iff. intros r Hin.
      rewrite (Hnone r Hin). reflexivity. }
    split; [exact Hverified|]. split.
    + intros t t' text name. unfold checkVerificationAnswer. fold phone.
      rewrite Hlookup. reflexivity.
    + intros env sock t name. unfold startVerification. fold phone.
      rewrite Hverified. reflexivity.
Qed.

End Membership.

Lemma correct_answer_verifies_witness :
  let db := (@addPendingCaptcha asciiOps 0 (js "31600000001") (js "111@g.us") (js "x7Kq2") 5
               emptyDatabase).2 in
  let run := @checkVerificationAnswer asciiOps exampleCrypto 100 101
               (js "31600000001:7@s.whatsapp.net") (js " x7kq2 ") (js "111@g.us")
               (js "Test Group") db in
  run.1 = Some {| vr_success := true; vr_message := success en;
                  vr_phone := js "31600000001" |}
  /\ isUserVerified (js "31600000001") (js "111@g.us") run.2 = true.
Proof.
  intros db run.
  refine (let H := @correct_answer_verifies asciiOps exampleCrypto 100 101
                     (js "31600000001:7@s.whatsapp.net") (js " x7kq2 ") (js "111@g.us")
                     (js "Test Group") db _ 88%N (js "7KQ2") _ _ _ in
          conj (proj1 H) (proj1 (proj2 H))).
  - vm_compute. reflexivity.
  - reflexivity.
  - vm_compute. reflexivity.
Defined.

(** ** Entries of the moderation ledger *)

Lemma find_log_other (i j : Z) (f : Log.row -> Log.row) (rows : list Log.row) :
  (forall r, Log.id (f r) = Log.id r) -> j <> i ->
  List.find (fun r => Log.id r =? j)
    (List.map (fun r => if Log.id r =? i then f r else r) rows)
  = List.find (fun r => Log.id r =? j) rows.
Proof.
  intros Hid Hne. induction rows as [|r rows IH]; [reflexivity|]. simpl.
  destruct (Z.eqb_spec (Log.id r) i) as [Hri|Hri].
  - rewrite Hid. destruct (Z.eqb_spec (Log.id r) j); [lia|exact IH].
  - rewrite IH. reflexivity.
Qed.

Lemma find_app_first {A} (f : A -> bool) (l1 l2 : list A) :
  List.find f (l1 ++ l2)
  = match List.find f l1 with
    | Some x => Some x
    | None => List.find f l2
    end.
Proof.
  induction l1 as [|x l1 IH]; [reflexivity|]. simpl. destruct (f x); [reflexivity|exact IH].
Qed.

Section LedgerEntries.
Context {crypto : Crypto}.

(** X15. The entry that the message handler writes for a verdict is found
    under the key that logModeration returned, a key under which nothing
    was stored before: it is unrestored, has no admin response, action
    'deleted', the kind of the verdict, the sender and the room; its body
    is the text of the message, except for an image verdict, where it is
    '[IMAGE] ' followed by the description of the image.  Every other key
    looks up as before. *)
Theorem violation_is_logged (now : Z) (moderationResult : verdict)
    (remoteJid senderPhone : jsString) (senderName : option jsString)
    (messageText messageKey : jsString) (db : database) :
  logKeysIssued db ->
  let logged := logViolation now moderationResult remoteJid senderPhone senderName
                  messageText messageKey db in
  getModerationLogById (Some logged.1) db = None
  /\ (exists log,
        getModerationLogById (Some logged.1) logged.2 = Some log
        /\ Log.restored log = 0 /\ Log.admin_response log = None
        /\ Log.action_taken log = js "deleted"
        /\ Log.violation_type log = type moderationResult
        /\ Log.user_phone log = senderPhone /\ Log.group_id log = remoteJid
        /\ (type moderationResult <> sensitive_image -> Log.message_body log = messageText)
        /\ (forall topic description confidence,
              type moderationResult = sensitive_image ->
              extras moderationResult = MediaExtras topic description confidence ->
              Log.message_body log = js "[IMAGE] " ++ description))
  /\ (forall j, j <> logged.1 ->
        getModerationLogById (Some j) logged.2 = getModerationLogById (Some j) db)
  /\ logKeysIssued logged.2.
Proof.
  intros Hkeys logged. subst logged. unfold logViolation, logModeration. cbn [fst snd].
  unfold getModerationLogById. cbn [moderation_logs setLogs].
  assert (Hfresh : forall r, In r (moderation_logs db) ->
                     (Log.id r =? logs_seq db + 1) = false).
  { intros r Hin. apply Z.eqb_neq. specialize (Hkeys r Hin). lia. }
  split; [apply find_none_iff, Hfresh|]. split; [|split].
  - rewrite find_app_none by exact Hfresh. cbn [List.find Log.id].
    rewrite Z.eqb_refl. eexists. split; [reflexivity|]. cbn.
    repeat (split; [reflexivity|]). split.
    + intros Hkind. unfold logMessageBody.
      destruct (type moderationResult); try reflexivity. contradiction.
    + intros topic description confidence Hkind Hextras. unfold logMessageBody.
      rewrite Hkind, Hextras. reflexivity.
  - intros j Hne. rewrite find_app_first.
    destruct (List.find _ (moderation_logs db)); [reflexivity|].
    cbn [List.find Log.id]. destruct (Z.eqb_spec (logs_seq db + 1) j); [congruence|reflexivity].
  - intros r Hin. cbn [moderation_logs logs_seq setLogs] in *.
    apply in_app_or in Hin as [Hin|[<-|[]]]; [specialize (Hkeys r Hin); lia|simpl; lia].
Qed.

(** X16. A restore request that does not succeed leaves the database as it
    is.  Whatever the outcome, the log entries keep their keys and order,
    every entry under another key looks up as before, the other tables are
    not touched, and nothing is sent unless the entry exists, is unrestored
    and the bot is connected; a successful request sets the restored flag
    of the entry and changes no other field of it. *)
Theorem restore_changes_one_flag (sock : option Socket)
    (groupIdToName : gmap (list N) jsString) (logId : option Z) (db : database) :
  let run := restoreMessage sock groupIdToName logId db in
  (run.1.1 <> RestoreOk -> run.1.2 = db)
  /\ (run.1.1 = RestoreOk ->
        exists i log, logId = Some i
                      /\ getModerationLogById (Some i) db = Some log
                      /\ Log.restored log = 0
                      /\ getModerationLogById (Some i) run.1.2 = Some (setRestored log))
  /\ (forall j, logId <> Some j ->
        getModerationLogById (Some j) run.1.2 = getModerationLogById (Some j) db)
  /\ List.map Log.id (moderation_logs run.1.2) = List.map Log.id (moderation_logs db)
  /\ (messages run.1.2 = messages db
      /\ verified_users run.1.2 = verified_users db
      /\ pending_verifications run.1.2 = pending_verifications db)
  /\ (run.2 <> [] ->
        exists log connected,
          getModerationLogById logId db = Some log /\ Log.restored log = 0
          /\ sock = Some connected).
Proof.
  intros run. subst run. unfold restoreMessage.
  destruct (getModerationLogById logId db) as [log|] eqn:Hlog.
  2:{ cbn [fst snd]. repeat split; try reflexivity; try discriminate; congruence. }
  destruct (Z.eqb_spec (Log.restored log) 0) as [Hfresh|Hdone]; simpl negb; cbv iota.
  2:{ cbn [fst snd]. repeat split; try reflexivity; try discriminate; congruence. }
  destruct sock as [connected|].
  2:{ cbn [fst snd]. repeat split; try reflexivity; try discriminate; congruence. }
  cbv zeta.
  destruct (sendMessage connected (Log.group_id log) (restoredMessageOf log)).
  2:{ cbn [fst snd]. repeat split; try reflexivity; try discriminate; try congruence.
      intros _. exists log, connected. repeat split; assumption. }
  cbn [fst snd].
  destruct logId as [i|]; [|discriminate Hlog].
  split; [congruence|]. split; [|split; [|split; [|split]]].
  - intros _. exists i, log. split; [reflexivity|]. split; [exact Hlog|].
    split; [exact Hfresh|].
    simpl. rewrite find_log_after_update by reflexivity.
    simpl in Hlog. rewrite Hlog. reflexivity.
  - intros j Hne. simpl. apply find_log_other; [reflexivity|congruence].
  - simpl. rewrite List.map_map. apply List.map_ext. intros r.
    destruct (Log.id r =? i); reflexivity.
  - repeat split; reflexivity.
  - intros _. exists log, connected. repeat split; assumption.
Qed.

End LedgerEntries.

Lemma violation_is_logged_witness :
  let v := {| type := excessive_links; reason := ContainsLinks 4; severity := medium;
              extras := NoExtras |} in
  let logged := @logViolation exampleCrypto 5 v (js "111@g.us") (js "31600000001")
                  (Some (js "Ann")) (js "http://a http://b http://c http://d") (js "KEY1")
                  emptyDatabase in
  getModerationLogById (Some logged.1) emptyDatabase = None
  /\ logKeysIssued logged.2.
Proof.
  intros v logged.
  refine (let H := @violation_is_logged exampleCrypto 5 v (js "111@g.us") (js "31600000001")
                     (Some (js "Ann")) (js "http://a http://b http://c http://d") (js "KEY1")
                     emptyDatabase _ in
          conj (proj1 H) (proj2 (proj2 (proj2 H)))).
  intros r [].
Defined.

(** ** Message statistics *)

Lemma remove_dups_length {A} `{EqDecision A} (l : list A) :
  (length (remove_dups l) <= length l)%nat.
Proof.
  induction l as [|x l IH]; [reflexivity|]. simpl.
  destruct (decide_rel elem_of x l); simpl; lia.
Qed.

Section Statistics.
Context {crypto : Crypto}.

(** X17. Over the same room and period, the number of unique users is at
    most the number of messages, and one is zero exactly when the other
    is.  Saving a message adds one to the message count of its room for
    every period that reaches back to the time of the message, and leaves
    the counts of the other rooms and the shorter periods as they were; the
    number of unique users of any room grows by at most one. *)
Theorem message_counts (now : Z) (groupId : jsString) (days : Z) (db : database) :
  0 <= days ->
  (0 <= getUniqueUsersCount now groupId days db <= getTotalMessageCount now groupId days db)
  /\ (getTotalMessageCount now groupId days db = 0
      <-> getUniqueUsersCount now groupId days db = 0)
  /\ (forall t room phone body fromAdmin fromBot,
        let db' := saveMessage t room phone body fromAdmin fromBot db in
        getTotalMessageCount now groupId days db'
        = getTotalMessageCount now groupId days db
          + (if bool_decide (room = groupId) && (now - 86400 * days <=? t) then 1 else 0)
        /\ getUniqueUsersCount now groupId days db
           <= getUniqueUsersCount now groupId days db'
           <= getUniqueUsersCount now groupId days db + 1).
Proof.
  intros _. unfold getUniqueUsersCount, getTotalMessageCount.
  split; [|split].
  - pose proof (remove_dups_length
                  (List.map Message.hashed_phone (messagesOfLastDays now groupId days db))) as Hle.
    rewrite List.length_map in Hle. lia.
  - destruct (messagesOfLastDays now groupId days db) as [|r rows]; [simpl; tauto|].
    split; [simpl; lia|]. intros Hzero. exfalso.
    assert (Hin : Message.hashed_phone r
                  ∈ remove_dups (List.map Message.hashed_phone (r :: rows))).
    { apply elem_of_remove_dups. simpl. left. }
    destruct (remove_dups _); [inversion Hin|simpl in Hzero; lia].
  - intros t room phone body fromAdmin fromBot.
    unfold messagesOfLastDays, saveMessage. cbn [messages setMessages].
    rewrite List.filter_app. cbn [List.filter Message.group_id Message.timestamp].
    set (rows := List.filter _ (messages db)).
    destruct (bool_decide (room = groupId) && (now - 86400 * days <=? t)).
    + split; [rewrite List.length_app; simpl; lia|].
      rewrite List.map_app. cbn [List.map Message.hashed_phone].
      set (hashes := List.map Message.hashed_phone rows).
      assert (Hsnoc : forall (l : list jsString) (x : jsString),
                (length (remove_dups l) <= length (remove_dups (l ++ [x]))
                 <= length (remove_dups l) + 1)%nat).
      { induction l as [|y l IH]; intros x; [simpl; lia|].
        specialize (IH x). simpl.
        destruct (decide_rel elem_of y l) as [Hy|Hy].
        - destruct (decide_rel elem_of y (l ++ [x])) as [_|Hn]; [exact IH|].
          exfalso. apply Hn. apply elem_of_app. left. exact Hy.
        - destruct (decide_rel elem_of y (l ++ [x])) as [Hyx|_]; [|simpl; lia].
          assert (Heq : y = x).
          { apply elem_of_app in Hyx as [Hyl|Hyx]; [contradiction|].
            apply list_elem_of_singleton in Hyx. exact Hyx. }
          subst y. clear IH Hyx.
          assert (Hsame : forall l : list jsString, x ∉ l ->
                    remove_dups (l ++ [x]) = remove_dups l ++ [x]).
          { clear. induction l as [|z l IH]; intros Hx; [reflexivity|]. simpl.
            apply not_elem_of_cons in Hx as [Hzx Hx].
            destruct (decide_rel elem_of z l) as [Hz|Hz].
            - destruct (decide_rel elem_of z (l ++ [x])) as [_|Hn]; [exact (IH Hx)|].
              exfalso. apply Hn. apply elem_of_app. left. exact Hz.
            - destruct (decide_rel elem_of z (l ++ [x])) as [Hzx'|_].
              + exfalso. apply elem_of_app in Hzx' as [Hzl|Hzx']; [contradiction|].
                apply list_elem_of_singleton in Hzx'. congruence.
              + rewrite (IH Hx). reflexivity. }
          rewrite (Hsame l Hy), List.length_app. simpl. lia. }
      specialize (Hsnoc hashes (hashPhone phone)). lia.
    + rewrite List.app_nil_r. lia.
Qed.

End Statistics.

Lemma message_counts_witness :
  let db := @saveMessage exampleCrypto 100 (js "111@g.us") (js "31600000001") (js "hello")
              false false
              (@saveMessage exampleCrypto 50 (js "111@g.us") (js "31600000001") (js "hi all")
                 false false emptyDatabase) in
  0 <= getUniqueUsersCount 200 (js "111@g.us") 7 db
    <= getTotalMessageCount 200 (js "111@g.us") 7 db.
Proof.
  intros db.
  refine (proj1 (@message_counts exampleCrypto 200 (js "111@g.us") 7 db _)). lia.
Defined.

Example message_counts_two_posts_one_user :
  let db := @saveMessage exampleCrypto 100 (js "111@g.us") (js "31600000001") (js "hello")
              false false
              (@saveMessage exampleCrypto 50 (js "111@g.us") (js "31600000001") (js "hi all")
                 false false emptyDatabase) in
  getTotalMessageCount 200 (js "111@g.us") 7 db = 2
  /\ getUniqueUsersCount 200 (js "111@g.us") 7 db = 1.
Proof. vm_compute. split; reflexivity. Qed.

(** ** The keyword stage of the earlier revision *)

Lemma charMatches_refl (p : N) : KeywordRevision.charMatches p p = true.
Proof.
  unfold KeywordRevision.charMatches, matchesIgnoreCase.
  rewrite N.eqb_refl. destruct (isLower p); reflexivity.
Qed.

Lemma startsWith_matchesAt (pattern s : jsString) :
  startsWith pattern s = true -> KeywordRevision.matchesAt pattern s = true.
Proof.
  revert s. induction pattern as [|p pattern IH]; intros s; [reflexivity|].
  destruct s as [|c s]; [discriminate|]. simpl.
  intros Hs. apply andb_true_iff in Hs as [Hpc Hs]. apply N.eqb_eq in Hpc. subst c.
  rewrite charMatches_refl. exact (IH s Hs).
Qed.

Lemma includes_matchesSomewhere (pattern s : jsString) :
  includes pattern s = true -> KeywordRevision.matchesSomewhere pattern s = true.
Proof.
  induction s as [|c s IH]; simpl.
  - apply startsWith_matchesAt.
  - intros Hs. apply orb_true_iff in Hs as [Hs|Hs]; apply orb_true_iff.
    + left. exact (startsWith_matchesAt pattern (c :: s) Hs).
    + right. exact (IH Hs).
Qed.

Section Keywords.
Context {ops : JsStringOps}.

(** X18. With a toLowerCase that leaves the topics of the list as they are
    (they are lower-case), the keyword stage of the earlier revision flags
    a message exactly when it has at least 3 characters and its lower-cased
    text contains a listed topic as a substring, also inside a longer word;
    the verdict is sensitive_topic with severity high, lists exactly the
    contained topics in the order of the list, and names the first of
    them. *)
Theorem keyword_verdict_iff_substring (message : jsString) :
  (forall topic, In topic KeywordRevision.SENSITIVE_TOPICS -> toLowerCase topic = topic) ->
  (KeywordRevision.checkSensitiveKeywords message <> None
   <-> (3 <= length message)%nat
       /\ exists topic, In topic KeywordRevision.SENSITIVE_TOPICS
                        /\ includes topic (toLowerCase message) = true)
  /\ (forall v, KeywordRevision.checkSensitiveKeywords message = Some v ->
        type v = sensitive_topic /\ severity v = high
        /\ exists first rest,
             List.filter (fun topic => includes topic (toLowerCase message))
               KeywordRevision.SENSITIVE_TOPICS = first :: rest
             /\ extras v = KeywordExtras (first :: rest)
             /\ reason v = ContainsTopic first).
Proof.
  intros Hlower. unfold KeywordRevision.checkSensitiveKeywords.
  set (lowerMessage := toLowerCase message).
  assert (Hfilter :
            List.filter (fun topic => includes (toLowerCase topic) lowerMessage)
              KeywordRevision.SENSITIVE_TOPICS
            = List.filter (fun topic => includes topic lowerMessage)
                KeywordRevision.SENSITIVE_TOPICS).
  { apply List.filter_ext_in. intros topic Hin. rewrite (Hlower topic Hin). reflexivity. }
  rewrite Hfilter.
  set (matched := List.filter (fun topic => includes topic lowerMessage)
                    KeywordRevision.SENSITIVE_TOPICS).
  assert (Hin_matched :
            forall topic, In topic matched
                          <-> In topic KeywordRevision.SENSITIVE_TOPICS
                              /\ includes topic lowerMessage = true).
  { intros topic. unfold matched. rewrite List.filter_In. reflexivity. }
  clearbody matched.
  assert (Hregex : matched <> [] ->
                   KeywordRevision.SENSITIVE_KEYWORDS_REGEX_test lowerMessage = true).
  { intros Hne. destruct matched as [|topic rest]; [contradiction|].
    destruct (proj1 (Hin_matched topic) (or_introl eq_refl)) as [Hin Hinc].
    unfold KeywordRevision.SENSITIVE_KEYWORDS_REGEX_test. apply List.existsb_exists.
    exists topic. split; [exact Hin|]. apply includes_matchesSomewhere, Hinc. }
  assert (Hmatched : matched <> [] <->
                     exists topic, In topic KeywordRevision.SENSITIVE_TOPICS
                                   /\ includes topic lowerMessage = true).
  { split.
    - intros Hne. destruct matched as [|topic rest]; [contradiction|].
      exists topic. apply Hin_matched. left. reflexivity.
    - intros (topic & Hin) Hnil. apply Hin_matched in Hin.
      rewrite Hnil in Hin. destruct Hin. }
  split.
  - destruct (Nat.ltb_spec (length message) 3) as [Hshort|Hlong].
    + split; [congruence|]. intros [Hlen _]. lia.
    + destruct matched as [|first rest].
      * split.
        -- destruct (KeywordRevision.SENSITIVE_KEYWORDS_REGEX_test lowerMessage); congruence.
        -- intros [_ Hsome]. apply Hmatched in Hsome. congruence.
      * rewrite Hregex by discriminate. split; [|discriminate].
        intros _. split; [exact Hlong|]. apply Hmatched. discriminate.
  - intros v. destruct (length message <? 3)%nat; [discriminate|].
    destruct (KeywordRevision.SENSITIVE_KEYWORDS_REGEX_test lowerMessage); [|discriminate].
    destruct matched as [|first rest]; [discriminate|].
    intros [= <-]. simpl. split; [reflexivity|]. split; [reflexivity|].
    exists first, rest. repeat split; reflexivity.
Qed.

End Keywords.

Lemma keyword_verdict_iff_substring_witness :
  @KeywordRevision.checkSensitiveKeywords asciiOps (js "I saw Godzilla") <> None.
Proof.
  assert (Hlower : forall topic, In topic KeywordRevision.SENSITIVE_TOPICS ->
                     @toLowerCase asciiOps topic = topic).
  { intros topic Hin. vm_compute in Hin.
    repeat (destruct Hin as [<-|Hin]; [reflexivity|]). destruct Hin. }
  apply (proj2 (proj1 (@keyword_verdict_iff_substring asciiOps (js "I saw Godzilla") Hlower))).
  split; [vm_compute; lia|].
  exists (js "god"). split; [|vm_compute; reflexivity].
  unfold KeywordRevision.SENSITIVE_TOPICS. cbn [List.map In]. do 8 right. left. reflexivity.
Defined.

(** ** The moderation step of the message handler *)

Section MessageHandler.
Context {ops : JsStringOps}.

Lemma text_path_kinds (openai : OpenAI) (tClean tStamp : Z)
    (message senderPhone groupId : jsString)
    (recentMessages : gmap (list N) cacheEntry) (run : moderationRun) (v : verdict) :
  run = moderateMessage openai tClean tStamp message senderPhone groupId recentMessages
  \/ run = KeywordRevision.moderateMessage openai tClean tStamp message senderPhone groupId
             recentMessages ->
  (result run = Some v -> type v <> sensitive_image)
  /\ stages run <> []
  /\ cacheAfter run
     = (checkSimpleSpam tClean tStamp message senderPhone groupId recentMessages).2.
Proof.
  assert (Hkinds : forall w,
            (checkSimpleSpam tClean tStamp message senderPhone groupId recentMessages).1
            = Some w \/ checkToxicContent openai message = Some w
            \/ checkSensitiveContent openai message = Some w
            \/ KeywordRevision.checkSensitiveKeywords message = Some w ->
            type w <> sensitive_image).
  { intros w [Hw|[Hw|[Hw|Hw]]].
    - destruct (checkSimpleSpam_kinds _ _ _ _ _ _ w Hw) as [Hk|[Hk|Hk]]; rewrite Hk;
        discriminate.
    - rewrite (checkToxicContent_kind openai message w Hw). discriminate.
    - rewrite (checkSensitiveContent_kind openai message w Hw). discriminate.
    - revert Hw. unfold KeywordRevision.checkSensitiveKeywords.
      destruct (length message <? 3)%nat; [discriminate|].
      destruct (KeywordRevision.SENSITIVE_KEYWORDS_REGEX_test _); [|discriminate].
      destruct (List.filter _ _); [discriminate|]. intros [= <-]. discriminate. }
  intros [->| ->]; unfold moderateMessage, KeywordRevision.moderateMessage.
  - destruct ((checkSimpleSpam tClean tStamp message senderPhone groupId recentMessages).1)
      as [w|] eqn:Hspam.
    { simpl. repeat split; [intros [= <-]; apply Hkinds; tauto|discriminate]. }
    destruct (checkToxicContent openai message) as [w|] eqn:Htoxic.
    { simpl. repeat split; [intros [= <-]; apply Hkinds; tauto|discriminate]. }
    destruct (20 <? length message)%nat; [|simpl; repeat split; discriminate].
    destruct (checkSensitiveContent openai message) as [w|] eqn:Htopic;
      simpl; repeat split; try discriminate.
    intros [= <-]. apply Hkinds. tauto.
  - destruct ((checkSimpleSpam tClean tStamp message senderPhone groupId recentMessages).1)
      as [w|] eqn:Hspam.
    { simpl. repeat split; [intros [= <-]; apply Hkinds; tauto|discriminate]. }
    destruct (KeywordRevision.checkSensitiveKeywords message) as [w|] eqn:Hkeyword.
    { simpl. repeat split; [intros [= <-]; apply Hkinds; tauto|discriminate]. }
    destruct (checkToxicContent openai message) as [w|] eqn:Htoxic.
    { simpl. repeat split; [intros [= <-]; apply Hkinds; tauto|discriminate]. }
    destruct (20 <? length message)%nat; [|simpl; repeat split; discriminate].
    destruct (checkSensitiveContent openai message) as [w|] eqn:Htopic;
      simpl; repeat split; try discriminate.
    intros [= <-]. apply Hkinds. tauto.
Qed.

(** X19. The moderation step of the message handler, with either revision
    of the text path: for a group admin nothing is checked; an image
    verdict means that the image was downloaded and flagged by
    analyzeImage, and then the text path did not run, so the caption
    neither is classified nor counts in the repeat cache; any other verdict
    comes from the text path, which runs only for a non-empty text whose
    image, if any, gave no verdict (also when the download failed); and the
    repeat cache can differ afterwards only for a non-admin sender whose
    text reached the repeat check. *)
Theorem image_verdict_skips_text_path (openai : OpenAI) (tClean tStamp : Z)
    (isGroupAdmin : bool) (image : option download)
    (messageText senderPhone groupId : jsString)
    (recentMessages : gmap (list N) cacheEntry)
    (textPath : gmap (list N) cacheEntry -> moderationRun) :
  textPath = moderateMessage openai tClean tStamp messageText senderPhone groupId
  \/ textPath = KeywordRevision.moderateMessage openai tClean tStamp messageText senderPhone
                  groupId ->
  let run := moderationCheck openai textPath isGroupAdmin image messageText recentMessages in
  let imageVerdict :=
    match image with
    | Some (Downloaded buffer) => analyzeImage openai (Some buffer)
    | _ => None
    end in
  (isGroupAdmin = true ->
     run = {| result := None; cacheAfter := recentMessages; stages := [] |})
  /\ (forall v, result run = Some v -> type v = sensitive_image ->
        imageVerdict = Some v /\ stages run = [] /\ cacheAfter run = recentMessages)
  /\ (forall v, result run = Some v -> type v <> sensitive_image ->
        imageVerdict = None /\ messageText <> [] /\ run = textPath recentMessages)
  /\ (cacheAfter run <> recentMessages ->
        isGroupAdmin = false /\ reachesRepeatCheck messageText = true).
Proof.
  intros Hpath run imageVerdict.
  assert (Hrun : textPath recentMessages
                 = moderateMessage openai tClean tStamp messageText senderPhone groupId
                     recentMessages
                 \/ textPath recentMessages
                    = KeywordRevision.moderateMessage openai tClean tStamp messageText
                        senderPhone groupId recentMessages).
  { destruct Hpath as [-> | ->]; [left|right]; reflexivity. }
  assert (Hkind : forall v, result (textPath recentMessages) = Some v ->
                    type v <> sensitive_image).
  { intros v. exact (proj1 (text_path_kinds openai tClean tStamp messageText senderPhone
                              groupId recentMessages _ v Hrun)). }
  assert (Hcache : cacheAfter (textPath recentMessages)
                   = (checkSimpleSpam tClean tStamp messageText senderPhone groupId
                        recentMessages).2).
  { exact (proj2 (proj2 (text_path_kinds openai tClean tStamp messageText senderPhone
                           groupId recentMessages _
                           {| type := sensitive_image; reason := MediaTopic [];
                              severity := high; extras := NoExtras |} Hrun))). }
  assert (Himage : forall v, imageVerdict = Some v -> type v = sensitive_image).
  { intros v Hv. subst imageVerdict. destruct image as [[|buffer]|]; try discriminate.
    unfold analyzeImage in Hv. destruct (negb _); [discriminate|].
    apply classifyFrames_Some in Hv as [Hk _]; [exact Hk|discriminate]. }
  assert (Erun : run = if isGroupAdmin
                       then {| result := None; cacheAfter := recentMessages; stages := [] |}
                       else match imageVerdict, messageText with
                            | None, _ :: _ => textPath recentMessages
                            | _, _ => {| result := imageVerdict;
                                         cacheAfter := recentMessages; stages := [] |}
                            end).
  { subst run imageVerdict. unfold moderationCheck.
    destruct isGroupAdmin; [reflexivity|]. destruct image as [[|buffer]|]; reflexivity. }
  rewrite Erun. clear Erun run.
  destruct isGroupAdmin.
  { split; [reflexivity|]. split; [intros v Hv; discriminate Hv|].
    split; [intros v Hv; discriminate Hv|]. intros Hne. contradiction. }
  split; [discriminate|].
  destruct imageVerdict as [w|].
  - specialize (Himage w eq_refl).
    destruct messageText as [|c text]; cbn [result cacheAfter stages];
      (split; [|split];
       [intros v [= <-] _; repeat split; reflexivity
       |intros v [= <-] Hne; contradiction
       |intros Hne; contradiction]).
  - destruct messageText as [|c text].
    + cbn [result cacheAfter stages]. split; [intros v Hv; discriminate Hv|].
      split; [intros v Hv; discriminate Hv|]. intros Hne. contradiction.
    + split; [|split].
      * intros v Hv Hk. exfalso. exact (Hkind v Hv Hk).
      * intros v Hv Hk. split; [reflexivity|]. split; [discriminate|reflexivity].
      * intros Hne. split; [reflexivity|]. rewrite Hcache in Hne.
        destruct (reachesRepeatCheck (c :: text)) eqn:Hr; [reflexivity|].
        exfalso. apply Hne. apply checkSimpleSpam_early, Hr.
Qed.

End MessageHandler.

Lemma image_verdict_skips_text_path_witness :
  let openai := {| openaiApiKey := true;
                   moderations_create := fun _ => None;
                   topic_completion := fun _ => ApiError;
                   vision_completion := fun _ =>
                     Parsed {| media_flagged := true; media_topic := js "politics";
                               media_description := Some (js "a campaign poster");
                               media_confidence := 9 # 10 |} |} in
  let run := moderationCheck openai
               (@moderateMessage asciiOps openai 0 1 (js "hello there") (js "31600000001")
                  (js "111@g.us"))
               false (Some (Downloaded [255; 216]%N)) (js "hello there") ∅ in
  stages run = [] /\ cacheAfter run = ∅.
Proof.
  intros openai run.
  refine (let H := @image_verdict_skips_text_path asciiOps openai 0 1 false
                     (Some (Downloaded [255; 216]%N)) (js "hello there") (js "31600000001")
                     (js "111@g.us") ∅ _ (or_introl eq_refl) in
          proj2 (proj1 (proj2 H)
                   {| type := sensitive_image; reason := MediaTopic (js "politics");
                      severity := high;
                      extras := MediaExtras (js "politics") (js "a campaign poster")
                                  (9 # 10) |}
                   eq_refl eq_refl)).
Defined.

(** ** Keys of the ledger after it was cleared *)

Section LedgerKeys.
Context {crypto : Crypto}.

(** X20. clearModerationLogs returns the number of entries and leaves none:
    every lookup then finds nothing.  A verdict logged after the clearing
    gets a key larger than every key of the cleared entries, so that a
    restore request for an old key answers "Message not found", sends
    nothing and changes nothing, also after new entries were logged. *)
Theorem cleared_keys_are_not_reused (now : Z) (data : moderationData) (db : database) :
  logKeysIssued db ->
  let cleared := clearModerationLogs db in
  let logged := logModeration now data cleared.2 in
  cleared.1 = Z.of_nat (length (moderation_logs db))
  /\ (forall logId, getModerationLogById logId cleared.2 = None)
  /\ (forall r, In r (moderation_logs db) -> Log.id r < logged.1)
  /\ (forall r sock groupIdToName,
        In r (moderation_logs db) ->
        restoreMessage sock groupIdToName (Some (Log.id r)) logged.2
        = (RestoreFailed MessageNotFound, logged.2, [])).
Proof.
  intros Hkeys cleared logged. subst cleared logged.
  unfold clearModerationLogs, logModeration. cbn [fst snd setLogs logs_seq moderation_logs].
  split; [reflexivity|]. split; [intros [i|]; reflexivity|]. split.
  - intros r Hin. specialize (Hkeys r Hin). lia.
  - intros r sock groupIdToName Hin. unfold restoreMessage, getModerationLogById.
    cbn [moderation_logs setLogs app List.find Log.id].
    specialize (Hkeys r Hin).
    destruct (Z.eqb_spec (logs_seq db + 1) (Log.id r)); [lia|reflexivity].
Qed.

End LedgerKeys.

Lemma cleared_keys_are_not_reused_witness :
  let data := {| groupId := js "111@g.us"; userPhone := js "31600000001";
                 userName := None; messageBody := js "BUY NOW BUY NOW";
                 violationType := excessive_caps; actionTaken := js "deleted";
                 categoryScores := None; messageKey := None |} in
  let db := (@logModeration exampleCrypto 5 data emptyDatabase).2 in
  let logged := @logModeration exampleCrypto 9 data (clearModerationLogs db).2 in
  (clearModerationLogs db).1 = 1 /\ logged.1 = 2
  /\ forall logId, getModerationLogById logId (clearModerationLogs db).2 = None.
Proof.
  intros data db logged.
  refine (let H := @cleared_keys_are_not_reused exampleCrypto 9 data db _ in
          conj (proj1 H) (conj eq_refl (proj1 (proj2 H)))).
  intros r [<-|[]]. vm_compute. discriminate.
Defined.

(** ** From join to verified member *)

Section Join.
Context {ops : JsStringOps} {crypto : Crypto}.



End Join.


(** ** Pending records without a captcha code *)

Section LegacyChallenge.
Context {ops : JsStringOps} {crypto : Crypto}.


End LegacyChallenge.

